(** * pixel_api: the event ingestion pipeline of [src/server.ts]

    A shallow embedding of the request handlers of the tracking-pixel API
    ([POST /events], [POST /events/bulk], [POST /users], [POST /sessions])
    together with their helpers ([pick], [validateEvent], [shouldStore]),
    and the properties of the ingestion pipeline proved about them.

    - JSON payloads are values of [JsVal]; JavaScript's truthiness, [||],
      [??], [?.] and [typeof] are written out.
    - The in-memory [dedupe] map is a [gmap string Z].
    - The relational store is a record of four tables; a transaction on the
      dedicated client connection works on a private copy of the store that
      [COMMIT] publishes and [ROLLBACK] discards.
    - The handlers are written in a small state-and-exception monad, so that
      [await], [try]/[catch]/[finally] and early [return] read as in the
      source.  Storage faults and clock readings come from an environment
      oracle indexed by the program point that asks.
    - One request runs at a time: the interleaving of requests at their
      [await] points is not part of the model.
    - What the handlers only pass through (string conversion of values that
      are not strings, date parsing, JSON printing, the driver's text form
      of a parameter) is a field of [Host], over which everything is
      quantified. *)

From Stdlib Require QArith.
From Stdlib Require Import ZArith Lia Ascii String.
From stdpp Require Import base option list strings gmap fin_maps.

Local Open Scope string_scope.
Local Open Scope Z_scope.

(** ** JavaScript values *)

(** A JavaScript number: a double is either NaN, an infinity or a finite
    value.  No arithmetic is done on payload numbers, only zero tests, so the
    finite values are kept as rationals. *)
Inductive JsNumber :=
| NaN
| Infinity (negative : bool)
| Finite (q : QArith_base.Q).

#[warnings="-register-all"]
Inductive JsVal :=
| JUndefined
| JNull
| JBool (b : bool)
| JNum (n : JsNumber)
| JStr (s : string)
| JArr (items : list JsVal)
| JObj (props : list (string * JsVal))
| JDate (t : JsNumber).

Definition JInt (z : Z) : JsVal := JNum (Finite (QArith_base.inject_Z z)).

(** [Boolean(v)]: the falsy values are [undefined], [null], [false], [0],
    [NaN] and the empty string. *)
Definition number_truthy (n : JsNumber) : bool :=
  match n with
  | NaN => false
  | Infinity _ => true
  | Finite q => negb (QArith_base.Qeq_bool q (QArith_base.inject_Z 0))
  end.

Definition truthy (v : JsVal) : bool :=
  match v with
  | JUndefined | JNull => false
  | JBool b => b
  | JNum n => number_truthy n
  | JStr s => negb (String.eqb s "")
  | JArr _ | JObj _ | JDate _ => true
  end.

Definition nullish (v : JsVal) : bool :=
  match v with
  | JUndefined | JNull => true
  | _ => false
  end.

(** [a || b] and [a ?? b]. *)
Definition jor (a b : JsVal) : JsVal := if truthy a then a else b.
Definition jnullish_or (a b : JsVal) : JsVal := if nullish a then b else a.

Definition typeof (v : JsVal) : string :=
  match v with
  | JUndefined => "undefined"
  | JBool _ => "boolean"
  | JNum _ => "number"
  | JStr _ => "string"
  | JNull | JArr _ | JObj _ | JDate _ => "object"
  end.

Definition is_undefined (v : JsVal) : bool :=
  match v with JUndefined => true | _ => false end.

(** [v === "s"] for a string literal. *)
Definition strict_eq_str (v : JsVal) (s : string) : bool :=
  match v with JStr s' => String.eqb s' s | _ => false end.

Definition Number_isFinite (v : JsVal) : bool :=
  match v with JNum (Finite _) => true | _ => false end.

Definition Array_isArray (v : JsVal) : bool :=
  match v with JArr _ => true | _ => false end.

(** Own properties of an object, in insertion order.  [JSON.parse] keeps the
    last of several equal keys, so a parsed object has distinct keys. *)
Fixpoint assoc (k : string) (props : list (string * JsVal)) : option JsVal :=
  match props with
  | [] => None
  | (k', v) :: rest => if String.eqb k' k then Some v else assoc k rest
  end.

(** [o[k] = v]: replaces the value of an existing key, else appends. *)
Fixpoint assoc_set (k : string) (v : JsVal) (props : list (string * JsVal))
  : list (string * JsVal) :=
  match props with
  | [] => [(k, v)]
  | (k', v') :: rest =>
      if String.eqb k' k then (k, v) :: rest else (k', v') :: assoc_set k v rest
  end.

(** [v.k] and [v?.k] on a base that is not null or undefined.  None of the
    property names the handlers read is a built-in property of arrays,
    strings, numbers, booleans or [Object.prototype], so reading them off
    anything but an object with that own key gives [undefined]. *)
Definition get (v : JsVal) (k : string) : JsVal :=
  match v with
  | JObj props => default JUndefined (assoc k props)
  | _ => JUndefined
  end.

(** [v?.k]: [undefined] on a null or undefined base. *)
Definition get_opt (v : JsVal) (k : string) : JsVal :=
  if nullish v then JUndefined else get v k.

(** ** Helpers of the source *)

(** [pick(obj, keys)].  The fields are read with [get], and the copy lists
    them in the order they were set: this is the source's [pick] on key
    lists of plain field names such as [legacy_keys], the only list the
    handlers pass (not on names that are built-in properties of a value,
    nor on integer-like names, which JavaScript lists first). *)
Definition pick (obj : JsVal) (keys : list string) : JsVal :=
  JObj (fold_left
          (fun out k =>
             if negb (is_undefined (get_opt obj k))
             then assoc_set k (get obj k) out
             else out)
          keys []).

Definition legacy_keys : list string :=
  ["utm_source"; "utm_medium"; "utm_campaign"; "utm_content"; "utm_term";
   "gclid"; "fbclid"; "wbraid"; "gbraid"; "msclkid"; "ttclid"; "yclid"].

(** What a handler can throw: a property read off [null]/[undefined], or a
    rejected database operation. *)
Inductive Op :=
| OpUpsertUser (item : nat)
| OpUpsertSession (item : nat)
| OpConnect
| OpBegin
| OpInsertEvent (item : nat)
| OpInsertMetadata
| OpCommit
| OpRollback.

Inductive Exn :=
| TypeError
| DbError (op : Op).

Inductive Outcome (A : Type) :=
| Ret (a : A)
| Throw (e : Exn).
Arguments Ret {A} a.
Arguments Throw {A} e.

Definition push_if (c : bool) (code : string) (l : list string) : list string :=
  if c then l ++ [code] else l.

(** [validateEvent(ev)].  Reading [ev.event_id] off [null] or [undefined]
    throws; every other value has (possibly undefined) properties. *)
Definition validateEvent (ev : JsVal) : Outcome (list string * list string) :=
  if nullish ev then Throw TypeError else
  let errs := [] in
  let warns := [] in
  let errs := push_if (negb (truthy (get ev "event_id"))) "missing:event_id" errs in
  let errs := push_if (negb (truthy (get ev "event_name"))) "missing:event_name" errs in
  let errs := push_if (negb (truthy (get ev "client_id"))) "missing:client_id" errs in
  let warns := push_if (negb (truthy (get ev "session_id"))) "recommend:session_id" warns in
  let errs :=
    if strict_eq_str (get ev "event_name") "purchase" then
      let errs :=
        push_if (negb (String.eqb (typeof (get_opt (get_opt ev "ecommerce") "value")) "number"))
                "missing:ecommerce.value" errs in
      push_if (negb (String.eqb (typeof (get_opt (get_opt ev "ecommerce") "currency")) "string"))
              "missing:ecommerce.currency" errs
    else errs in
  Ret (errs, warns).

(** ** The runtime and the environment of a request *)

(** Library functions of the JavaScript runtime and of the database driver
    that the handlers call and whose result only travels through them. *)
Record Host := {
  (** [String(v)] of a value that is not a string (template literals). *)
  to_string : JsVal -> string;
  (** The time value of [new Date(v)]; [NaN] for an invalid date. *)
  date_value : JsVal -> JsNumber;
  (** [JSON.stringify] of the request's header object. *)
  json_stringify : list (string * string) -> string;
  (** The text the driver sends for a key parameter that is not a string. *)
  param_text : JsVal -> string
}.

(** Program points that read the wall clock; [item] is the position of the
    event in a batch, 0 in the single-event handlers. *)
Inductive ClockSite :=
| AtDedupe (item : nat)
| AtLastSeen (item : nat)
| AtStartedAt (item : nat)
| AtOccurred (item : nat).

(** What the outside world does during one request: which database
    operations are rejected, and what the clock shows at each reading. *)
Record Env := {
  fault : Op -> bool;
  clock : ClockSite -> Z
}.

Record Request := {
  body : JsVal;
  headers : list (string * string);
  remoteAddress : option string
}.

Fixpoint header_lookup (k : string) (hs : list (string * string)) : option string :=
  match hs with
  | [] => None
  | (k', v) :: rest => if String.eqb k' k then Some v else header_lookup k rest
  end.

(** [req.headers[k]]. *)
Definition header (req : Request) (k : string) : JsVal :=
  match header_lookup k (headers req) with
  | Some v => JStr v
  | None => JUndefined
  end.

(** [s.split(",")[0]]: the text before the first comma. *)
Fixpoint before_comma (s : string) : string :=
  match s with
  | EmptyString => EmptyString
  | String c rest =>
      if Ascii.eqb c ","%char then EmptyString else String c (before_comma rest)
  end.

(** White space of [String.prototype.trim] among the Latin-1 characters a
    header value is made of. *)
Definition is_space (c : Ascii.ascii) : bool :=
  let n := Ascii.nat_of_ascii c in
  (Nat.eqb n 9 || Nat.eqb n 10 || Nat.eqb n 11 || Nat.eqb n 12 || Nat.eqb n 13
   || Nat.eqb n 32 || Nat.eqb n 160)%bool.

Fixpoint trim_start (s : string) : string :=
  match s with
  | EmptyString => EmptyString
  | String c rest => if is_space c then trim_start rest else s
  end.

Fixpoint trim_end (s : string) : string :=
  match s with
  | EmptyString => EmptyString
  | String c rest =>
      match trim_end rest with
      | EmptyString => if is_space c then EmptyString else String c EmptyString
      | rest' => String c rest'
      end
  end.

Definition trim (s : string) : string := trim_end (trim_start s).

(** The originating address:
    [xff?.split(",")[0]?.trim() || req.socket.remoteAddress || null]. *)
Definition request_ip (req : Request) : JsVal :=
  let forwarded :=
    match header req "x-forwarded-for" with
    | JStr s => JStr (trim (before_comma s))
    | _ => JUndefined
    end in
  let peer :=
    match remoteAddress req with
    | Some a => JStr a
    | None => JUndefined
    end in
  jor (jor forwarded peer) JNull.

(** ** The relational store *)

Record UserRow := {
  u_client_id : JsVal;
  u_traits : JsVal;
  u_last_seen : JsVal;
  u_user_id : JsVal;
  u_email_sha256 : JsVal;
  u_phone_sha256 : JsVal
}.

Record SessionRow := {
  s_session_id : JsVal;
  s_client_id : JsVal;
  s_started_at : JsVal;
  s_first_page : JsVal;
  s_last_page : JsVal
}.

(** A row of [pixel_events]: the serial [id] and the forty columns of the
    INSERT, by name, in the order of the statement. *)
Record EventRow := {
  e_id : Z;
  e_columns : list (string * JsVal)
}.

Record MetadataRow := {
  m_pixel_event_id : Z;
  m_ip_address : JsVal;
  m_headers : string;
  m_geo_location : JsVal;
  m_user_agent : JsVal;
  m_request_id : JsVal
}.

(** [pixel_users] and [pixel_sessions] have a unique key (the ON CONFLICT
    target), [pixel_events] and [pixel_metadata] are only appended to. *)
Record Store := {
  pixel_users : gmap string UserRow;
  pixel_sessions : gmap string SessionRow;
  pixel_events : list EventRow;
  pixel_metadata : list MetadataRow
}.

(** The database as the process sees it: the committed store, the private
    store of the transaction open on the checked-out client connection, and
    the sequence behind [pixel_events.id], which no rollback resets. *)
Record Database := {
  committed : Store;
  in_tx : option Store;
  event_seq : Z
}.

(** The process: the database and the module-level [dedupe] map. *)
Record World := {
  db : Database;
  dedupe : gmap string Z
}.

Inductive Conn := Pool | Client.

(** The store a statement on connection [c] reads and writes. *)
Definition view (c : Conn) (d : Database) : Store :=
  match c, in_tx d with
  | Client, Some s => s
  | _, _ => committed d
  end.

Definition write (c : Conn) (s : Store) (d : Database) : Database :=
  match c, in_tx d with
  | Client, Some _ =>
      {| committed := committed d; in_tx := Some s; event_seq := event_seq d |}
  | _, _ =>
      {| committed := s; in_tx := in_tx d; event_seq := event_seq d |}
  end.

(** A bound parameter: the driver sends [undefined] as NULL. *)
Definition sql_param (v : JsVal) : JsVal := if nullish v then JNull else v.

(** [COALESCE(a, b)]. *)
Definition COALESCE (a b : JsVal) : JsVal :=
  match a with JNull => b | _ => a end.

(** ** The handler monad: process state and exceptions *)

Definition M (A : Type) : Type := World -> Outcome A * World.

Definition ret {A : Type} (a : A) : M A := fun w => (Ret a, w).

Definition bind {A B : Type} (m : M A) (k : A -> M B) : M B :=
  fun w =>
    match m w with
    | (Ret a, w') => k a w'
    | (Throw e, w') => (Throw e, w')
    end.

Definition lift {A : Type} (o : Outcome A) : M A := fun w => (o, w).

(** [try { m } catch (e) { h e }]. *)
Definition try_catch {A : Type} (m : M A) (h : Exn -> M A) : M A :=
  fun w =>
    match m w with
    | (Ret a, w') => (Ret a, w')
    | (Throw e, w') => h e w'
    end.

(** [try { m } finally { cleanup }], for a cleanup that cannot throw. *)
Definition try_finally {A : Type} (m : M A) (cleanup : World -> World) : M A :=
  fun w => let (r, w') := m w in (r, cleanup w').

Declare Scope handler_scope.
Delimit Scope handler_scope with handler.
Notation "x <- m ;; k" := (bind m (fun x => k))
  (at level 100, m at next level, right associativity) : handler_scope.
Notation "m ;;; k" := (bind m (fun _ => k))
  (at level 100, right associativity) : handler_scope.
Local Open Scope handler_scope.

(** [if (c) { await m }]. *)
Definition when (c : bool) (m : M unit) : M unit := if c then m else ret tt.

(** ** Database operations *)

(** A statement either is rejected by the database or returns a result and a
    new database. *)
Definition Statement (A : Type) : Type := Database -> option (A * Database).

(** [await conn.query(stmt)] at program point [op]: the environment may
    reject the operation, and a rejected operation changes nothing. *)
Definition query {A : Type} (e : Env) (op : Op) (stmt : Statement A) : M A :=
  fun w =>
    if fault e op then (Throw (DbError op), w)
    else match stmt (db w) with
         | Some (a, d) => (Ret a, {| db := d; dedupe := dedupe w |})
         | None => (Throw (DbError op), w)
         end.

(** [await pool.connect()]. *)
Definition connect (e : Env) : M unit :=
  query e OpConnect (fun d => Some (tt, d)).

(** Every request checks out its own connection, so BEGIN starts from the
    committed store. *)
Definition begin_tx : Statement unit :=
  fun d => Some (tt, {| committed := committed d;
                        in_tx := Some (committed d);
                        event_seq := event_seq d |}).

Definition commit_tx : Statement unit :=
  fun d => Some (tt, {| committed := default (committed d) (in_tx d);
                        in_tx := None;
                        event_seq := event_seq d |}).

Definition rollback_tx : Statement unit :=
  fun d => Some (tt, {| committed := committed d;
                        in_tx := None;
                        event_seq := event_seq d |}).

(** [client.release()].  A connection handed back while its transaction is
    still open (ROLLBACK itself was rejected) never publishes it. *)
Definition release (w : World) : World :=
  {| db := {| committed := committed (db w);
              in_tx := None;
              event_seq := event_seq (db w) |};
     dedupe := dedupe w |}.

Definition set_users (t : gmap string UserRow) (s : Store) : Store :=
  {| pixel_users := t; pixel_sessions := pixel_sessions s;
     pixel_events := pixel_events s; pixel_metadata := pixel_metadata s |}.

Definition set_sessions (t : gmap string SessionRow) (s : Store) : Store :=
  {| pixel_users := pixel_users s; pixel_sessions := t;
     pixel_events := pixel_events s; pixel_metadata := pixel_metadata s |}.

Definition add_event (r : EventRow) (s : Store) : Store :=
  {| pixel_users := pixel_users s; pixel_sessions := pixel_sessions s;
     pixel_events := pixel_events s ++ [r]; pixel_metadata := pixel_metadata s |}.

Definition add_metadata (r : MetadataRow) (s : Store) : Store :=
  {| pixel_users := pixel_users s; pixel_sessions := pixel_sessions s;
     pixel_events := pixel_events s; pixel_metadata := pixel_metadata s ++ [r] |}.

Definition bind_user (p : UserRow) : UserRow :=
  {| u_client_id := sql_param (u_client_id p);
     u_traits := sql_param (u_traits p);
     u_last_seen := sql_param (u_last_seen p);
     u_user_id := sql_param (u_user_id p);
     u_email_sha256 := sql_param (u_email_sha256 p);
     u_phone_sha256 := sql_param (u_phone_sha256 p) |}.

Definition bind_session (p : SessionRow) : SessionRow :=
  {| s_session_id := sql_param (s_session_id p);
     s_client_id := sql_param (s_client_id p);
     s_started_at := sql_param (s_started_at p);
     s_first_page := sql_param (s_first_page p);
     s_last_page := sql_param (s_last_page p) |}.

(** ** Sample requests

    Concrete data on which the handlers are run below. *)

Definition host0 : Host :=
  {| to_string := fun _ => "[object Object]";
     date_value := fun _ => NaN;
     json_stringify := fun _ => "{}";
     param_text := fun _ => "?" |}.

(** No operation is rejected; the clock shows [now]. *)
Definition env_ok (now : Z) : Env :=
  {| fault := fun _ => false; clock := fun _ => now |}.

(** Only [bad] is rejected. *)
Definition op_eqb (a b : Op) : bool :=
  match a, b with
  | OpUpsertUser i, OpUpsertUser j => Nat.eqb i j
  | OpUpsertSession i, OpUpsertSession j => Nat.eqb i j
  | OpConnect, OpConnect => true
  | OpBegin, OpBegin => true
  | OpInsertEvent i, OpInsertEvent j => Nat.eqb i j
  | OpInsertMetadata, OpInsertMetadata => true
  | OpCommit, OpCommit => true
  | OpRollback, OpRollback => true
  | _, _ => false
  end.

Definition env_fault (bad : Op) (now : Z) : Env :=
  {| fault := fun op => op_eqb op bad; clock := fun _ => now |}.

Definition empty_store : Store :=
  {| pixel_users := ∅; pixel_sessions := ∅;
     pixel_events := []; pixel_metadata := [] |}.

Definition world0 : World :=
  {| db := {| committed := empty_store; in_tx := None; event_seq := 0 |};
     dedupe := ∅ |}.

Definition request (b : JsVal) : Request :=
  {| body := b;
     headers := [("x-forwarded-for", "203.0.113.7, 10.0.0.1"); ("user-agent", "pixel/1")];
     remoteAddress := Some "10.0.0.1" |}.

Definition page_view (id page : string) : JsVal :=
  JObj [("event_id", JStr id); ("event_name", JStr "page_view");
        ("client_id", JStr "c1"); ("session_id", JStr "s1");
        ("page_location", JStr page)].

(** A page view without [event_id], and one without [session_id]. *)
Definition ev_no_id : JsVal :=
  JObj [("event_name", JStr "page_view"); ("client_id", JStr "c1")].

Definition ev_no_session : JsVal :=
  JObj [("event_id", JStr "e1"); ("event_name", JStr "page_view");
        ("client_id", JStr "c1")].

(** A purchase whose value is a string. *)
Definition ev_purchase_text_value : JsVal :=
  JObj [("event_id", JStr "p1"); ("event_name", JStr "purchase");
        ("client_id", JStr "c1");
        ("ecommerce", JObj [("value", JStr "19.99"); ("currency", JStr "EUR")])].

(** An event that resolves client [c1] to [user], and the body of an
    explicit upsert doing the same. *)
Definition ev_identify (id user : string) : JsVal :=
  JObj [("event_id", JStr id); ("event_name", JStr "login");
        ("client_id", JStr "c1");
        ("identify", JObj [("user_id", JStr user)])].

Definition user_body (user : JsVal) : JsVal :=
  JObj [("client_id", JStr "c1"); ("user_id", user)].

(** A page view with flat attribution fields. *)
Definition ev_legacy_utm : JsVal :=
  JObj [("event_id", JStr "e3"); ("event_name", JStr "page_view");
        ("client_id", JStr "c1");
        ("utm_source", JStr "ads"); ("utm_medium", JStr "cpc")].

(** A page view with a campaign object (and a flat field next to it). *)
Definition ev_campaign : JsVal :=
  JObj [("event_id", JStr "e4"); ("event_name", JStr "page_view");
        ("client_id", JStr "c1");
        ("campaign", JObj [("utm_source", JStr "newsletter")]);
        ("utm_medium", JStr "cpc")].

(** The body of an explicit session upsert with a last page. *)
Definition session_body (page : string) : JsVal :=
  JObj [("session_id", JStr "s1"); ("client_id", JStr "c1");
        ("last_page", JStr page)].

Definition at_ms (z : Z) : JsVal := JDate (Finite (QArith_base.inject_Z z)).

Section Handlers.

Variable H : Host.

(** Modelled from the spec: the table definitions are not part of the
    sources.  The spec gives the client identifier and the session identifier
    as the unique key of their tables (they are the ON CONFLICT targets), so
    a NULL key is rejected; a key reaches the table as the text the driver
    sends for it. *)
Definition key_text (k : JsVal) : option string :=
  match sql_param k with
  | JNull => None
  | JStr s => Some s
  | v => Some (param_text H v)
  end.

(** [INSERT ... ON CONFLICT (key) DO UPDATE SET ...]: [fresh] is the row
    proposed for insertion, [merge] the SET clause applied to the stored
    row. *)
Definition upsert_row {R : Type} (key : JsVal) (fresh : R) (merge : R -> R)
    (t : gmap string R) : option (gmap string R) :=
  match key_text key with
  | None => None
  | Some k =>
      Some (match t !! k with
            | Some old => <[k := merge old]> t
            | None => <[k := fresh]> t
            end)
  end.

(** The user upsert of [POST /events]:
    [SET last_seen = EXCLUDED.last_seen,
         user_id = COALESCE(EXCLUDED.user_id, pixel_users.user_id),
         email_sha256 = COALESCE(...), phone_sha256 = COALESCE(...)]. *)
Definition merge_user_event (x old : UserRow) : UserRow :=
  {| u_client_id := u_client_id old;
     u_traits := u_traits old;
     u_last_seen := u_last_seen x;
     u_user_id := COALESCE (u_user_id x) (u_user_id old);
     u_email_sha256 := COALESCE (u_email_sha256 x) (u_email_sha256 old);
     u_phone_sha256 := COALESCE (u_phone_sha256 x) (u_phone_sha256 old) |}.

(** The user upsert of [POST /users]: as above, and
    [traits = EXCLUDED.traits]. *)
Definition merge_user_full (x old : UserRow) : UserRow :=
  {| u_client_id := u_client_id old;
     u_traits := u_traits x;
     u_last_seen := u_last_seen x;
     u_user_id := COALESCE (u_user_id x) (u_user_id old);
     u_email_sha256 := COALESCE (u_email_sha256 x) (u_email_sha256 old);
     u_phone_sha256 := COALESCE (u_phone_sha256 x) (u_phone_sha256 old) |}.

(** The user upsert of [POST /events/bulk]:
    [SET last_seen = EXCLUDED.last_seen]. *)
Definition merge_user_minimal (x old : UserRow) : UserRow :=
  {| u_client_id := u_client_id old;
     u_traits := u_traits old;
     u_last_seen := u_last_seen x;
     u_user_id := u_user_id old;
     u_email_sha256 := u_email_sha256 old;
     u_phone_sha256 := u_phone_sha256 old |}.

Definition upsert_user (c : Conn) (merge : UserRow -> UserRow -> UserRow)
    (p : UserRow) : Statement UserRow :=
  fun d =>
    let x := bind_user p in
    let s := view c d in
    match upsert_row (u_client_id x) x (merge x) (pixel_users s) with
    | None => None
    | Some t =>
        match key_text (u_client_id x) with
        | Some k =>
            match t !! k with
            | Some row => Some (row, write c (set_users t s) d)
            | None => None
            end
        | None => None
        end
    end.

(** The session upsert of [POST /events] and of [POST /events/bulk]:
    [SET client_id = EXCLUDED.client_id]. *)
Definition merge_session_event (x old : SessionRow) : SessionRow :=
  {| s_session_id := s_session_id old;
     s_client_id := s_client_id x;
     s_started_at := s_started_at old;
     s_first_page := s_first_page old;
     s_last_page := s_last_page old |}.

(** The session upsert of [POST /sessions]:
    [SET client_id = EXCLUDED.client_id,
         first_page = COALESCE(pixel_sessions.first_page, EXCLUDED.first_page),
         last_page = COALESCE(EXCLUDED.last_page, pixel_sessions.last_page)]. *)
Definition merge_session_full (x old : SessionRow) : SessionRow :=
  {| s_session_id := s_session_id old;
     s_client_id := s_client_id x;
     s_started_at := s_started_at old;
     s_first_page := COALESCE (s_first_page old) (s_first_page x);
     s_last_page := COALESCE (s_last_page x) (s_last_page old) |}.

Definition upsert_session (c : Conn)
    (merge : SessionRow -> SessionRow -> SessionRow) (p : SessionRow)
  : Statement SessionRow :=
  fun d =>
    let x := bind_session p in
    let s := view c d in
    match upsert_row (s_session_id x) x (merge x) (pixel_sessions s) with
    | None => None
    | Some t =>
        match key_text (s_session_id x) with
        | Some k =>
            match t !! k with
            | Some row => Some (row, write c (set_sessions t s) d)
            | None => None
            end
        | None => None
        end
    end.

(** The row an INSERT into [pixel_events] stores for the parameters [cols]
    under the serial number [id]. *)
Definition event_row (id : Z) (cols : list (string * JsVal)) : EventRow :=
  {| e_id := id;
     e_columns := map (fun kv => (kv.1, sql_param kv.2)) cols |}.

(** [INSERT INTO pixel_events (...) VALUES (...) RETURNING id]. *)
Definition insert_event (c : Conn) (cols : list (string * JsVal)) : Statement Z :=
  fun d =>
    let id := event_seq d + 1 in
    let d1 := {| committed := committed d; in_tx := in_tx d; event_seq := id |} in
    Some (id, write c (add_event (event_row id cols) (view c d1)) d1).

(** [INSERT INTO pixel_metadata (...) VALUES (...)]. *)
Definition insert_metadata (c : Conn) (r : MetadataRow) : Statement unit :=
  fun d => Some (tt, write c (add_metadata r (view c d)) d).

(** The metadata row of a request, for the event reference [ref]. *)
Definition request_metadata (req : Request) (ref : Z) : MetadataRow :=
  {| m_pixel_event_id := ref;
     m_ip_address := sql_param (request_ip req);
     m_headers := json_stringify H (headers req);
     m_geo_location := JNull;
     m_user_agent := sql_param (jor (header req "user-agent") JNull);
     m_request_id := sql_param (jor (header req "x-request-id") JNull) |}.

(** ** Deduplication *)

(** [`${v}`]. *)
Definition template (v : JsVal) : string :=
  match v with
  | JStr s => s
  | _ => to_string H v
  end.

(** [`${ev.event_name}:${ev.event_id}`]. *)
Definition dedupe_key (ev : JsVal) : string :=
  template (get ev "event_name") ++ ":" ++ template (get ev "event_id").

(** [for (const [k, ts] of dedupe.entries())
       if (now - ts > 60000) dedupe.delete(k);] *)
Definition evict (now : Z) (d : gmap string Z) : gmap string Z :=
  filter (fun kv : string * Z => ~ (now - kv.2 > 60000)) d.

(** [shouldStore(ev)], called for item [i] of the request. *)
Definition shouldStore (e : Env) (i : nat) (ev : JsVal) : M bool :=
  fun w =>
    let key := dedupe_key ev in
    let now := clock e (AtDedupe i) in
    let d := evict now (dedupe w) in
    match d !! key with
    | Some _ => (Ret false, {| db := db w; dedupe := d |})
    | None => (Ret true, {| db := db w; dedupe := <[key := now]> d |})
    end.

(** ** Normalisation *)

Definition date_now (e : Env) (site : ClockSite) : JsNumber :=
  Finite (QArith_base.inject_Z (clock e site)).

(** [toTimestampTz(ms)]:
    [ms && Number.isFinite(ms) ? new Date(ms) : new Date()]. *)
Definition toTimestampTz (e : Env) (i : nat) (ms : JsVal) : JsNumber :=
  if (truthy ms && Number_isFinite ms)%bool then date_value H ms
  else date_now e (AtOccurred i).

(** [ev.occurred_at ? new Date(ev.occurred_at) : toTimestampTz(ev.timestamp)],
    as the time value of the date. *)
Definition occurredAt (e : Env) (i : nat) (ev : JsVal) : JsNumber :=
  if truthy (get ev "occurred_at") then date_value H (get ev "occurred_at")
  else toTimestampTz e i (get ev "timestamp").

(** [ev.campaign || legacyCampaign || null]. *)
Definition campaign_of (ev : JsVal) : JsVal :=
  let legacyCampaign := pick ev legacy_keys in
  jor (jor (get ev "campaign") legacyCampaign) JNull.

(** The forty parameters of the event INSERT, each with its column.
    [user_agent] is the eighth parameter, on which the two handlers differ. *)
Definition event_params (ev : JsVal) (user_agent : JsVal) (occurred : JsNumber)
  : list (string * JsVal) :=
  let campaign := campaign_of ev in
  [ ("event_id", get ev "event_id");
    ("event_name", get ev "event_name");
    ("timestamp", jnullish_or (get ev "timestamp") (JNum occurred));
    ("client_id", get ev "client_id");
    ("session_id", get ev "session_id");
    ("page_location", jor (get ev "page_location") JNull);
    ("page_referrer", jor (get ev "page_referrer") JNull);
    ("user_agent", user_agent);
    ("viewport_width", jor (get_opt (get ev "viewport") "width") JNull);
    ("viewport_height", jor (get_opt (get ev "viewport") "height") JNull);
    ("utm_source", jor (get ev "utm_source") JNull);
    ("utm_medium", jor (get ev "utm_medium") JNull);
    ("utm_campaign", jor (get ev "utm_campaign") JNull);
    ("utm_content", jor (get ev "utm_content") JNull);
    ("utm_term", jor (get ev "utm_term") JNull);
    ("message", jor (get ev "message") JNull);
    ("occurred_at", JDate occurred);
    ("page_title", jor (get ev "page_title") JNull);
    ("language", jor (get ev "language") JNull);
    ("timezone_offset",
      if Number_isFinite (get ev "timezone_offset")
      then get ev "timezone_offset" else JNull);
    ("screen", jor (get ev "screen") JNull);
    ("viewport", jor (get ev "viewport") JNull);
    ("network", jor (get ev "network") JNull);
    ("performance", jor (get ev "performance") JNull);
    ("campaign", jor campaign JNull);
    ("attribution", jor (get ev "attribution") JNull);
    ("referrer_chain",
      if Array_isArray (get ev "referrer_chain")
      then get ev "referrer_chain" else JNull);
    ("navigation", jor (get ev "navigation") JNull);
    ("click", jor (get ev "click") JNull);
    ("form", jor (get ev "form") JNull);
    ("engagement", jor (get ev "engagement") JNull);
    ("ecommerce", jor (get ev "ecommerce") JNull);
    ("browser_hints", jor (get ev "browser_hints") JNull);
    ("fbp", jor (get ev "fbp") JNull);
    ("fbc", jor (get ev "fbc") JNull);
    ("validation_warnings", jor (get ev "validation_warnings") JNull);
    ("validation_errors", jor (get ev "validation_errors") JNull);
    ("bot_score",
      if Number_isFinite (get ev "bot_score") then get ev "bot_score" else JInt 0);
    ("experiment", jor (get ev "experiment") JNull);
    ("raw_payload", ev) ].

(** ** Responses *)

Inductive Payload :=
| InvalidEvent (errs warns : list string)   (* {error:"invalid_event", errs, warns} *)
| Deduped                                   (* {ok:true, deduped:true} *)
| Stored (id : Z) (warns : list string)     (* {ok:true, id, warns} *)
| Ingested (n : nat)                        (* {ok:true, ingested} *)
| Failure (error : string)                  (* {error} *)
| UserJson (row : UserRow)
| SessionJson (row : SessionRow).

Record Response := {
  status : Z;
  payload : Payload
}.

Definition respond (code : Z) (p : Payload) : M Response :=
  ret {| status := code; payload := p |}.

(** The outermost [catch] of the event handlers. *)
Definition run_handler (m : M Response) (w : World) : Response * World :=
  match m w with
  | (Ret r, w') => (r, w')
  | (Throw _, w') => ({| status := 500; payload := Failure "server_error" |}, w')
  end.

(** ** [POST /users] and [POST /sessions] *)

(** The user parameters [POST /users] binds for the body [b]. *)
Definition users_params (e : Env) (b : JsVal) : UserRow :=
  {| u_client_id := get b "client_id";
     u_traits := jor (get b "traits") (JObj []);
     u_last_seen := jor (get b "last_seen") (JDate (date_now e (AtLastSeen 0)));
     u_user_id := jor (get b "user_id") JNull;
     u_email_sha256 := jor (get b "email_sha256") JNull;
     u_phone_sha256 := jor (get b "phone_sha256") JNull |}.

(** The session parameters [POST /sessions] binds for the body [b]. *)
Definition sessions_params (e : Env) (b : JsVal) : SessionRow :=
  {| s_session_id := get b "session_id";
     s_client_id := get b "client_id";
     s_started_at := jor (get b "started_at") (JDate (date_now e (AtStartedAt 0)));
     s_first_page := jor (get b "first_page") JNull;
     s_last_page := jor (get b "last_page") JNull |}.

(** These two handlers have no [catch]: a rejected query leaves the request
    without a response, which is the [Throw] outcome here. *)
Definition post_users (e : Env) (req : Request) : M Response :=
  let b := jor (body req) (JObj []) in
  row <- query e (OpUpsertUser 0)
           (upsert_user Pool merge_user_full (users_params e b)) ;;
  respond 200 (UserJson row).

Definition post_sessions (e : Env) (req : Request) : M Response :=
  let b := jor (body req) (JObj []) in
  row <- query e (OpUpsertSession 0)
           (upsert_session Pool merge_session_full (sessions_params e b)) ;;
  respond 200 (SessionJson row).

(** ** [POST /events] *)

(** The parameters of the user upsert of [POST /events]. *)
Definition event_user (e : Env) (ev : JsVal) : UserRow :=
  {| u_client_id := get ev "client_id";
     u_traits := jor (get ev "traits") (JObj []);
     u_last_seen := JDate (date_now e (AtLastSeen 0));
     u_user_id := jor (get_opt (get ev "identify") "user_id") JNull;
     u_email_sha256 := jor (get_opt (get ev "identify") "email_sha256") JNull;
     u_phone_sha256 := jor (get_opt (get ev "identify") "phone_sha256") JNull |}.

(** The parameters of the session upsert of [POST /events]. *)
Definition event_session (e : Env) (ev : JsVal) : SessionRow :=
  {| s_session_id := get ev "session_id";
     s_client_id := get ev "client_id";
     s_started_at :=
       JDate (if truthy (get ev "started_at")
              then date_value H (get ev "started_at")
              else date_now e (AtStartedAt 0));
     s_first_page := jor (get ev "page_location") JNull;
     s_last_page := jor (get ev "page_location") JNull |}.

(** "garantir usuario": the upsert on the pool, before the transaction. *)
Definition ensure_user (e : Env) (ev : JsVal) : M unit :=
  when (truthy (get ev "client_id"))
    (query e (OpUpsertUser 0)
       (upsert_user Pool merge_user_event (event_user e ev)) ;;; ret tt).

(** "garantir sessao". *)
Definition ensure_session (e : Env) (ev : JsVal) : M unit :=
  when (truthy (get ev "session_id"))
    (query e (OpUpsertSession 0)
       (upsert_session Pool merge_session_event (event_session e ev)) ;;; ret tt).

(** [params] of the single-event handler. *)
Definition single_params (e : Env) (req : Request) (ev : JsVal)
  : list (string * JsVal) :=
  event_params ev
    (jor (jor (get ev "user_agent") (header req "user-agent")) JNull)
    (occurredAt e 0 ev).

(** The transaction of the single-event handler: BEGIN, the event row, the
    metadata row, COMMIT; on any throw ROLLBACK and [db_error]; the client is
    released in all cases. *)
Definition write_event (e : Env) (req : Request) (ev : JsVal)
    (warns : list string) : M Response :=
  let params := single_params e req ev in
  connect e ;;;
  try_finally
    (try_catch
       (query e OpBegin begin_tx ;;;
        eventDbId <- query e (OpInsertEvent 0) (insert_event Client params) ;;
        query e OpInsertMetadata
          (insert_metadata Client (request_metadata req eventDbId)) ;;;
        query e OpCommit commit_tx ;;;
        respond 200 (Stored eventDbId warns))
       (fun _ =>
          query e OpRollback rollback_tx ;;;
          respond 500 (Failure "db_error")))
    release.

Definition post_events_body (e : Env) (req : Request) : M Response :=
  let ev := jor (body req) (JObj []) in
  v <- lift (validateEvent ev) ;;
  let (errs, warns) := v : list string * list string in
  if negb (Nat.eqb (length errs) 0) then respond 400 (InvalidEvent errs warns)
  else
    store <- shouldStore e 0 ev ;;
    if negb store then respond 200 Deduped
    else
      ensure_user e ev ;;;
      ensure_session e ev ;;;
      write_event e req ev warns.

Definition post_events (e : Env) (req : Request) (w : World) : Response * World :=
  run_handler (post_events_body e req) w.

(** ** [POST /events/bulk] *)

(** The minimal upserts of the batch name only [client_id, last_seen] and
    [session_id, client_id, started_at]; the columns an INSERT does not name
    are NULL in a new row. *)
Definition bulk_user (e : Env) (i : nat) (ev : JsVal) : UserRow :=
  {| u_client_id := get ev "client_id";
     u_traits := JNull;
     u_last_seen := JDate (date_now e (AtLastSeen i));
     u_user_id := JNull;
     u_email_sha256 := JNull;
     u_phone_sha256 := JNull |}.

Definition bulk_session (e : Env) (i : nat) (ev : JsVal) : SessionRow :=
  {| s_session_id := get ev "session_id";
     s_client_id := get ev "client_id";
     s_started_at := JDate (date_now e (AtStartedAt i));
     s_first_page := JNull;
     s_last_page := JNull |}.

(** The parameters of the event INSERT of the batch, for item [i]. *)
Definition bulk_params (e : Env) (i : nat) (ev : JsVal) : list (string * JsVal) :=
  event_params ev (jor (get ev "user_agent") JNull) (occurredAt e i ev).

(** One iteration of [for (const ev of events)], for the item at position
    [i]; [ok] is the running count.  [continue] returns the count
    unchanged. *)
Definition bulk_item (e : Env) (i : nat) (ev : JsVal) (ok : nat) : M nat :=
  v <- lift (validateEvent ev) ;;
  if negb (Nat.eqb (length v.1) 0) then ret ok
  else
    store <- shouldStore e i ev ;;
    if negb store then ret ok
    else
      when (truthy (get ev "client_id"))
        (query e (OpUpsertUser i)
           (upsert_user Client merge_user_minimal (bulk_user e i ev)) ;;; ret tt) ;;;
      when (truthy (get ev "session_id"))
        (query e (OpUpsertSession i)
           (upsert_session Client merge_session_event (bulk_session e i ev)) ;;; ret tt) ;;;
      query e (OpInsertEvent i) (insert_event Client (bulk_params e i ev)) ;;;
      ret (S ok).

Fixpoint bulk_loop (e : Env) (i : nat) (events : list JsVal) (ok : nat) : M nat :=
  match events with
  | [] => ret ok
  | ev :: rest =>
      ok' <- bulk_item e i ev ok ;;
      bulk_loop e (S i) rest ok'
  end.

(** The transaction of the batch handler: BEGIN, the loop, one metadata row
    for the whole batch if anything was ingested, COMMIT; on any throw
    ROLLBACK and [db_error]; the client is released in all cases. *)
Definition bulk_transaction (e : Env) (req : Request) (events : list JsVal)
  : M Response :=
  try_finally
    (try_catch
       (query e OpBegin begin_tx ;;;
        ok <- bulk_loop e 0 events 0 ;;
        when (Nat.ltb 0 ok)
          (query e OpInsertMetadata
             (insert_metadata Client (request_metadata req 0))) ;;;
        query e OpCommit commit_tx ;;;
        respond 200 (Ingested ok))
       (fun _ =>
          query e OpRollback rollback_tx ;;;
          respond 500 (Failure "db_error")))
    release.

Definition post_events_bulk_body (e : Env) (req : Request) : M Response :=
  let events := match body req with JArr items => items | _ => [] end in
  if Nat.eqb (length events) 0 then respond 200 (Ingested 0)
  else
    connect e ;;;
    bulk_transaction e req events.

Definition post_events_bulk (e : Env) (req : Request) (w : World)
  : Response * World :=
  run_handler (post_events_bulk_body e req) w.

(** ** Vocabulary of the statements below *)

(** The hard errors and the warnings of an event. *)
Definition errs_of (ev : JsVal) : list string :=
  match validateEvent ev with
  | Ret (errs, _) => errs
  | Throw _ => []
  end.

Definition warns_of (ev : JsVal) : list string :=
  match validateEvent ev with
  | Ret (_, warns) => warns
  | Throw _ => []
  end.

(** The event of a single-event request: [req.body || {}]. *)
Definition event_of (req : Request) : JsVal := jor (body req) (JObj []).

(** An event passes validation: the validator returns and has no error. *)
Definition valid (ev : JsVal) : Prop :=
  nullish ev = false /\ errs_of ev = [].

(** The fingerprint of [ev] is not in the cache once the entries older than
    the window are gone: [shouldStore] will answer [true] at time [now]. *)
Definition unseen (now : Z) (ev : JsVal) (cache : gmap string Z) : Prop :=
  evict now cache !! dedupe_key ev = None.

(** The table after an upsert under key [k]. *)
Definition upserted {R : Type} (k : string) (fresh : R) (merge : R -> R)
    (t : gmap string R) : gmap string R :=
  <[k := match t !! k with Some old => merge old | None => fresh end]> t.


(** No operation at all is rejected during the request. *)
Definition no_fault (e : Env) : Prop := forall op, fault e op = false.

(** The committed tables of a world. *)
Definition events_of (w : World) : list EventRow := pixel_events (committed (db w)).
Definition metadata_of (w : World) : list MetadataRow := pixel_metadata (committed (db w)).
Definition users_of (w : World) : gmap string UserRow := pixel_users (committed (db w)).
Definition sessions_of (w : World) : gmap string SessionRow := pixel_sessions (committed (db w)).

(** A run of dedupe checks, as [(environment, item, event)] triples, from
    cache [d]: the cache after the last of them. *)
Definition checks (cs : list (Env * nat * JsVal)) (w : World) : World :=
  fold_left (fun w c => (shouldStore c.1.1 c.1.2 c.2 w).2) cs w.

(** The outcome of the [catch] block of a transaction in world [w]. *)
Definition rolled_back (e : Env) (w : World) : Outcome Response * World :=
  if fault e OpRollback then (Throw (DbError OpRollback), release w)
  else (Ret {| status := 500; payload := Failure "db_error" |}, release w).

(** The world after one serial number of [pixel_events] was handed out. *)
Definition bump (w : World) : World :=
  {| db := {| committed := committed (db w);
              in_tx := in_tx (db w);
              event_seq := event_seq (db w) + 1 |};
     dedupe := dedupe w |}.

(** The world with another committed users, resp. sessions, table. *)
Definition put_users (t : gmap string UserRow) (w : World) : World :=
  {| db := {| committed := set_users t (committed (db w));
              in_tx := in_tx (db w);
              event_seq := event_seq (db w) |};
     dedupe := dedupe w |}.

Definition put_sessions (t : gmap string SessionRow) (w : World) : World :=
  {| db := {| committed := set_sessions t (committed (db w));
              in_tx := in_tx (db w);
              event_seq := event_seq (db w) |};
     dedupe := dedupe w |}.

(** The world after [shouldStore] registered [ev] at item [i]. *)
Definition registered (e : Env) (i : nat) (ev : JsVal) (w : World) : World :=
  {| db := db w;
     dedupe := <[dedupe_key ev := clock e (AtDedupe i)]>
                 (evict (clock e (AtDedupe i)) (dedupe w)) |}.

(** The world after a dedupe check that found [ev] in the cache. *)
Definition swept (e : Env) (i : nat) (w : World) : World :=
  {| db := db w; dedupe := evict (clock e (AtDedupe i)) (dedupe w) |}.

(** The world after the user upsert, resp. the session upsert, of
    [POST /events] went through. *)
Definition identified (e : Env) (ev : JsVal) (w : World) : World :=
  match key_text (get ev "client_id") with
  | Some k =>
      put_users (upserted k (bind_user (event_user e ev))
                   (merge_user_event (bind_user (event_user e ev)))
                   (users_of w)) w
  | None => w
  end.

Definition in_session (e : Env) (ev : JsVal) (w : World) : World :=
  if truthy (get ev "session_id") then
    match key_text (get ev "session_id") with
    | Some k =>
        put_sessions (upserted k (bind_session (event_session e ev))
                        (merge_session_event (bind_session (event_session e ev)))
                        (sessions_of w)) w
    | None => w
    end
  else w.


Definition server_error : Response :=
  {| status := 500; payload := Failure "server_error" |}.

(** The check [c] happens no later than 60 seconds after time [t1]. *)
Definition in_window (t1 : Z) (c : Env * nat * JsVal) : Prop :=
  clock c.1.1 (AtDedupe c.1.2) - t1 <= 60000.

(** Coalescing in the words of the specification: a null or absent incoming
    value leaves the stored value, any other incoming value replaces it. *)
Definition coalesce_spec (incoming stored : JsVal) : JsVal :=
  if nullish incoming then stored else incoming.


(** The world inside a transaction: committed store [c0], private store
    [s], last serial number [n], cache [dd]. *)
Definition in_transaction (c0 s : Store) (n : Z) (dd : gmap string Z) : World :=
  {| db := {| committed := c0; in_tx := Some s; event_seq := n |};
     dedupe := dd |}.

(** The world right after BEGIN. *)
Definition begun (w : World) : World :=
  in_transaction (committed (db w)) (committed (db w)) (event_seq (db w)) (dedupe w).

(** The steps of an item after validation and deduplication. *)
Definition bulk_store (e : Env) (i : nat) (ev : JsVal) (ok : nat) : M nat :=
  when (truthy (get ev "client_id"))
    (query e (OpUpsertUser i)
       (upsert_user Client merge_user_minimal (bulk_user e i ev)) ;;; ret tt) ;;;
  when (truthy (get ev "session_id"))
    (query e (OpUpsertSession i)
       (upsert_session Client merge_session_event (bulk_session e i ev)) ;;; ret tt) ;;;
  query e (OpInsertEvent i) (insert_event Client (bulk_params e i ev)) ;;;
  ret (S ok).

(** The world after the metadata row of the batch went into the
    transaction, and the world after COMMIT. *)
Definition with_batch_metadata (req : Request) (w : World) : World :=
  {| db := write Client (add_metadata (request_metadata req 0) (view Client (db w))) (db w);
     dedupe := dedupe w |}.

Definition after_commit (w : World) : World :=
  {| db := {| committed := default (committed (db w)) (in_tx (db w));
              in_tx := None;
              event_seq := event_seq (db w) |};
     dedupe := dedupe w |}.

(** ** Vocabulary of the further properties *)


(** The commerce fields the validator looks at. *)
Definition ecommerce_value (ev : JsVal) : JsVal :=
  get_opt (get_opt ev "ecommerce") "value".
Definition ecommerce_currency (ev : JsVal) : JsVal :=
  get_opt (get_opt ev "ecommerce") "currency".

(** Character tests on strings. *)
Fixpoint has_char (c : Ascii.ascii) (s : string) : bool :=
  match s with
  | EmptyString => false
  | String c' rest => (Ascii.eqb c' c || has_char c rest)%bool
  end.

Definition starts_with_space (s : string) : bool :=
  match s with
  | EmptyString => false
  | String c _ => is_space c
  end.

Fixpoint ends_with_space (s : string) : bool :=
  match s with
  | EmptyString => false
  | String c EmptyString => is_space c
  | String _ rest => ends_with_space rest
  end.

(** [req.socket.remoteAddress || null]. *)
Definition peer_ip (req : Request) : JsVal :=
  match remoteAddress req with
  | Some a => jor (JStr a) JNull
  | None => JNull
  end.

(** The column [c] of a stored event row. *)
Definition column (c : string) (row : EventRow) : option JsVal :=
  assoc c (e_columns row).

(** The columns whose parameter has the form [ev.c || null]. *)
Definition or_null_columns : list string :=
  ["page_location"; "page_referrer"; "utm_source"; "utm_medium"; "utm_campaign";
   "utm_content"; "utm_term"; "message"; "page_title"; "language"; "screen";
   "viewport"; "network"; "performance"; "attribution"; "navigation"; "click";
   "form"; "engagement"; "ecommerce"; "browser_hints"; "fbp"; "fbc";
   "validation_warnings"; "validation_errors"; "experiment"].

(** ** Sequences of requests *)

(** A request to one of the four handlers that write. *)
Inductive Call :=
| PostEvents (e : Env) (req : Request)
| PostEventsBulk (e : Env) (req : Request)
| PostUsers (e : Env) (req : Request)
| PostSessions (e : Env) (req : Request).

(** The process after one request, and after a sequence of requests. *)
Definition after (c : Call) (w : World) : World :=
  match c with
  | PostEvents e req => (post_events e req w).2
  | PostEventsBulk e req => (post_events_bulk e req w).2
  | PostUsers e req => (post_users e req w).2
  | PostSessions e req => (post_sessions e req w).2
  end.

Definition after_all (cs : list Call) (w : World) : World :=
  fold_left (fun w c => after c w) cs w.

(** A row written for an event that passed validation. *)
Definition validated_row (r : EventRow) : Prop :=
  exists id ev ua t, r = event_row id (event_params ev ua t) /\ valid ev.

(** A metadata row with no location that refers to the batch (0) or to an
    event row of the store. *)
Definition linked (s : Store) (m : MetadataRow) : Prop :=
  m_geo_location m = JNull /\
  (m_pixel_event_id m = 0 \/
   exists r, In r (pixel_events s) /\ e_id r = m_pixel_event_id m).

(** [row] is a later state of the user row [old]: same client, and no
    resolved identity field went from a value to NULL. *)
Definition keeps_identity (old row : UserRow) : Prop :=
  u_client_id row = u_client_id old /\
  (u_user_id old <> JNull -> u_user_id row <> JNull) /\
  (u_email_sha256 old <> JNull -> u_email_sha256 row <> JNull) /\
  (u_phone_sha256 old <> JNull -> u_phone_sha256 row <> JNull).

(** [row] is a later state of the session row [old]: same session, same
    start, and a first page that was set is still the same. *)
Definition keeps_first_page (old row : SessionRow) : Prop :=
  s_session_id row = s_session_id old /\
  s_started_at row = s_started_at old /\
  (s_first_page old <> JNull -> s_first_page row = s_first_page old).

(** Store [s'] is a later state of store [s]. *)
Definition grows (s s' : Store) : Prop :=
  (exists new, pixel_events s' = (pixel_events s ++ new)%list /\
               Forall validated_row new) /\
  (exists new, pixel_metadata s' = (pixel_metadata s ++ new)%list /\
               Forall (linked s') new) /\
  (forall k old, pixel_users s !! k = Some old ->
     exists row, pixel_users s' !! k = Some row /\ keeps_identity old row) /\
  (forall k old, pixel_sessions s !! k = Some old ->
     exists row, pixel_sessions s' !! k = Some row /\ keeps_first_page old row).

(** A relation [R] between a store and a later one is kept by a statement
    run inside a transaction: the committed store is left alone and the
    private store goes to a store related to it. *)
Definition tx_keeps (R : Store -> Store -> Prop) {A : Type} (stmt : Statement A)
  : Prop :=
  forall c0 s n a d',
    stmt {| committed := c0; in_tx := Some s; event_seq := n |} = Some (a, d') ->
    exists s' n',
      d' = {| committed := c0; in_tx := Some s'; event_seq := n' |} /\ R s s'.

(** The same for a piece of a handler, whether it returns or throws. *)
Definition tx_safe (R : Store -> Store -> Prop) {A : Type} (m : M A) : Prop :=
  forall c0 s n dd,
    exists o s' n' dd',
      m (in_transaction c0 s n dd) = (o, in_transaction c0 s' n' dd') /\
      R s s'.

(** [R] is kept by an upsert with the SET clause [merge], whatever the key
    and the parameters. *)
Definition user_merge_ok (R : Store -> Store -> Prop)
    (merge : UserRow -> UserRow -> UserRow) : Prop :=
  forall s k x, R s (set_users (upserted k x (merge x) (pixel_users s)) s).

Definition session_merge_ok (R : Store -> Store -> Prop)
    (merge : SessionRow -> SessionRow -> SessionRow) : Prop :=
  forall s k x, R s (set_sessions (upserted k x (merge x) (pixel_sessions s)) s).

(** A request other than [POST /sessions]. *)
Definition no_session_upsert (c : Call) : Prop :=
  match c with PostSessions _ _ => False | _ => True end.

(** The session rows of [s] are all in [s'], with the same start and the
    same pages. *)
Definition same_pages (old row : SessionRow) : Prop :=
  s_session_id row = s_session_id old /\
  s_started_at row = s_started_at old /\
  s_first_page row = s_first_page old /\
  s_last_page row = s_last_page old.

Definition pages_frozen (s s' : Store) : Prop :=
  forall k old, pixel_sessions s !! k = Some old ->
    exists row, pixel_sessions s' !! k = Some row /\ same_pages old row.

(** ** Vocabulary of the batch properties *)

(** The items of a batch request: [Array.isArray(req.body) ? req.body : []]. *)
Definition batch_of (req : Request) : list JsVal :=
  match body req with JArr items => items | _ => [] end.

(** Row [r] is the row the batch writes for one of its items: the item at
    some position [j] of [items], which passes validation. *)
Definition row_of_item (e : Env) (first : nat) (items : list JsVal)
    (r : EventRow) : Prop :=
  exists j ev,
    items !! j = Some ev /\ valid ev /\
    r = event_row (e_id r) (bulk_params e (first + j) ev).

(** The serial numbers of [rows] are consecutive, starting after [n]. *)
Definition numbered_from (n : Z) (rows : list EventRow) : Prop :=
  forall j r, rows !! j = Some r -> e_id r = n + 1 + Z.of_nat j.




(** The fingerprint of every item of [items] that passes validation is in
    the cache. *)
Definition all_registered (items : list JsVal) (dd : gmap string Z) : Prop :=
  Forall (fun ev => valid ev -> is_Some (dd !! dedupe_key ev)) items.

(** ** [GET /users/:client_id] *)


(** ** [POST /purchases]: the event it builds *)

(** [Number(v)]: a number is itself; for any other value the conversion is
    the runtime's, [conv]. *)
Definition to_number (conv : JsVal -> JsNumber) (v : JsVal) : JsNumber :=
  match v with JNum n => n | _ => conv v end.

(** The event the legacy handler builds from its body before it hands the
    request over to the route of [/events]; [now] is [Date.now()]. *)
Definition purchase_event (conv : JsVal -> JsNumber) (now : Z) (req_body : JsVal)
  : JsVal :=
  let b := jor req_body (JObj []) in
  JObj [ ("event_id", get b "purchase_id");
         ("event_name", JStr "purchase");
         ("client_id", get b "client_id");
         ("session_id", get b "session_id");
         ("timestamp", jor (get b "timestamp") (JInt now));
         ("ecommerce",
           JObj [ ("value", JNum (to_number conv (jor (get b "value") (JInt 0))));
                  ("currency", jor (get b "currency") JNull);
                  ("items", jor (get b "items") (JArr [])) ]);
         ("message", JStr "legacy /purchases") ].

(** * Properties *)

(** ** Values and parameters *)

Lemma truthy_not_nullish (v : JsVal) : truthy v = true -> nullish v = false.
Proof. by destruct v. Qed.

Lemma sql_param_id (v : JsVal) : nullish v = false -> sql_param v = v.
Proof. unfold sql_param. by intros ->. Qed.

Lemma sql_param_idem (v : JsVal) : sql_param (sql_param v) = sql_param v.
Proof. by destruct v. Qed.

Lemma sql_param_or_null (v : JsVal) : sql_param (jor v JNull) = jor v JNull.
Proof.
  unfold jor. destruct (truthy v) eqn:E; [|done].
  by apply sql_param_id, truthy_not_nullish.
Qed.

Lemma event_of_not_nullish (req : Request) : nullish (event_of req) = false.
Proof.
  unfold event_of, jor. destruct (truthy (body req)) eqn:E; [|done].
  by apply truthy_not_nullish.
Qed.

Lemma key_text_param (v : JsVal) : key_text (sql_param v) = key_text v.
Proof. unfold key_text. by rewrite sql_param_idem. Qed.

Lemma key_text_truthy (v : JsVal) :
  truthy v = true -> exists k, key_text v = Some k.
Proof.
  intros Hv. unfold key_text. rewrite sql_param_id by by apply truthy_not_nullish.
  destruct v; try done; eauto.
Qed.

Lemma validateEvent_returns (ev : JsVal) :
  nullish ev = false -> validateEvent ev = Ret (errs_of ev, warns_of ev).
Proof.
  intros Hn. unfold errs_of, warns_of, validateEvent. by rewrite Hn.
Qed.

(** ** Upserts *)

Lemma upsert_row_run {R : Type} (key : JsVal) (k : string) (fresh : R)
    (merge : R -> R) (t : gmap string R) :
  key_text key = Some k ->
  upsert_row key fresh merge t = Some (upserted k fresh merge t).
Proof.
  intros Hk. unfold upsert_row, upserted. rewrite Hk. by destruct (t !! k).
Qed.

Lemma upserted_lookup {R : Type} (k : string) (fresh : R) (merge : R -> R)
    (t : gmap string R) :
  upserted k fresh merge t !! k
  = Some (match t !! k with Some old => merge old | None => fresh end).
Proof. unfold upserted. by rewrite lookup_insert_eq. Qed.

Lemma upsert_user_run (c : Conn) (merge : UserRow -> UserRow -> UserRow)
    (p : UserRow) (d : Database) (k : string) :
  key_text (u_client_id p) = Some k ->
  exists row,
    upsert_user c merge p d
    = Some (row, write c (set_users (upserted k (bind_user p) (merge (bind_user p))
                                       (pixel_users (view c d))) (view c d)) d).
Proof.
  intros Hk. unfold upsert_user.
  assert (Hk' : key_text (u_client_id (bind_user p)) = Some k)
    by (simpl; by rewrite key_text_param).
  rewrite (upsert_row_run _ k) by done. rewrite Hk', upserted_lookup. eauto.
Qed.

Lemma upsert_session_run (c : Conn)
    (merge : SessionRow -> SessionRow -> SessionRow)
    (p : SessionRow) (d : Database) (k : string) :
  key_text (s_session_id p) = Some k ->
  exists row,
    upsert_session c merge p d
    = Some (row, write c (set_sessions (upserted k (bind_session p) (merge (bind_session p))
                                          (pixel_sessions (view c d))) (view c d)) d).
Proof.
  intros Hk. unfold upsert_session.
  assert (Hk' : key_text (s_session_id (bind_session p)) = Some k)
    by (simpl; by rewrite key_text_param).
  rewrite (upsert_row_run _ k) by done. rewrite Hk', upserted_lookup. eauto.
Qed.

Lemma ensure_user_run (e : Env) (ev : JsVal) (w : World) (k : string) :
  key_text (get ev "client_id") = Some k ->
  truthy (get ev "client_id") = true ->
  fault e (OpUpsertUser 0) = false ->
  ensure_user e ev w
  = (Ret tt, put_users (upserted k (bind_user (event_user e ev))
                          (merge_user_event (bind_user (event_user e ev)))
                          (users_of w)) w).
Proof.
  intros Hk Ht Hf. unfold ensure_user, when, bind, query, ret. rewrite Ht, Hf.
  destruct (upsert_user_run Pool merge_user_event (event_user e ev) (db w) k Hk)
    as [row ->].
  done.
Qed.

Lemma ensure_session_run (e : Env) (ev : JsVal) (w : World) (k : string) :
  key_text (get ev "session_id") = Some k ->
  truthy (get ev "session_id") = true ->
  fault e (OpUpsertSession 0) = false ->
  ensure_session e ev w
  = (Ret tt, put_sessions (upserted k (bind_session (event_session e ev))
                             (merge_session_event (bind_session (event_session e ev)))
                             (sessions_of w)) w).
Proof.
  intros Hk Ht Hf. unfold ensure_session, when, bind, query, ret. rewrite Ht, Hf.
  destruct (upsert_session_run Pool merge_session_event (event_session e ev) (db w) k Hk)
    as [row ->].
  done.
Qed.

Lemma ensure_session_skip (e : Env) (ev : JsVal) (w : World) :
  truthy (get ev "session_id") = false -> ensure_session e ev w = (Ret tt, w).
Proof. intros Ht. unfold ensure_session, when. by rewrite Ht. Qed.

(** ** The single-event transaction *)

Lemma write_event_run (e : Env) (req : Request) (ev : JsVal) (warns : list string) (w : World) :
  write_event e req ev warns w =
    if fault e OpConnect then (Throw (DbError OpConnect), w)
    else if (fault e OpBegin || fault e (OpInsertEvent 0))%bool then rolled_back e w
    else if (fault e OpInsertMetadata || fault e OpCommit)%bool then rolled_back e (bump w)
    else
      let id := event_seq (db w) + 1 in
      (Ret {| status := 200; payload := Stored id warns |},
       {| db := {| committed :=
                     add_metadata (request_metadata req id)
                       (add_event (event_row id (single_params e req ev)) (committed (db w)));
                   in_tx := None;
                   event_seq := id |};
          dedupe := dedupe w |}).
Proof.
  unfold write_event, rolled_back, bump, connect, try_finally, try_catch, bind, query, respond, ret.
  destruct (fault e OpConnect); [done|]. simpl.
  destruct (fault e OpBegin); simpl.
  { destruct (fault e OpRollback); done. }
  destruct (fault e (OpInsertEvent 0)); simpl.
  { destruct (fault e OpRollback); done. }
  destruct (fault e OpInsertMetadata); simpl.
  { destruct (fault e OpRollback); done. }
  destruct (fault e OpCommit); simpl.
  { destruct (fault e OpRollback); done. }
  done.
Qed.

(** ** The three ways through [POST /events] *)

Lemma post_events_invalid (e : Env) (req : Request) (w : World) :
  errs_of (event_of req) <> [] ->
  post_events e req w
  = ({| status := 400;
        payload := InvalidEvent (errs_of (event_of req)) (warns_of (event_of req)) |}, w).
Proof.
  intros Hne. unfold post_events, run_handler, post_events_body, bind, lift.
  fold (event_of req).
  rewrite (validateEvent_returns _ (event_of_not_nullish req)).
  destruct (errs_of (event_of req)); done.
Qed.

Lemma shouldStore_seen (e : Env) (i : nat) (ev : JsVal) (w : World) (ts : Z) :
  evict (clock e (AtDedupe i)) (dedupe w) !! dedupe_key ev = Some ts ->
  shouldStore e i ev w = (Ret false, swept e i w).
Proof. intros Hs. unfold shouldStore. by rewrite Hs. Qed.

Lemma shouldStore_unseen (e : Env) (i : nat) (ev : JsVal) (w : World) :
  unseen (clock e (AtDedupe i)) ev (dedupe w) ->
  shouldStore e i ev w = (Ret true, registered e i ev w).
Proof. intros Hs. unfold shouldStore. by rewrite Hs. Qed.

Lemma post_events_duplicate (e : Env) (req : Request) (w : World) (ts : Z) :
  errs_of (event_of req) = [] ->
  evict (clock e (AtDedupe 0)) (dedupe w) !! dedupe_key (event_of req) = Some ts ->
  post_events e req w = ({| status := 200; payload := Deduped |}, swept e 0 w).
Proof.
  intros He Hs. unfold post_events, run_handler, post_events_body, bind, lift.
  fold (event_of req).
  rewrite (validateEvent_returns _ (event_of_not_nullish req)), He. simpl.
  by rewrite (shouldStore_seen _ _ _ _ ts).
Qed.

Lemma post_events_accepted (e : Env) (req : Request) (w : World) :
  errs_of (event_of req) = [] ->
  unseen (clock e (AtDedupe 0)) (event_of req) (dedupe w) ->
  post_events e req w
  = run_handler
      (ensure_user e (event_of req) ;;;
       ensure_session e (event_of req) ;;;
       write_event e req (event_of req) (warns_of (event_of req)))
      (registered e 0 (event_of req) w).
Proof.
  intros He Hs. unfold post_events, run_handler, post_events_body.
  fold (event_of req). unfold bind at 1. unfold lift.
  rewrite (validateEvent_returns _ (event_of_not_nullish req)), He. simpl.
  unfold bind at 1. by rewrite shouldStore_unseen.
Qed.

(** ** Validation *)

Lemma errs_of_unfold (ev : JsVal) :
  nullish ev = false ->
  errs_of ev =
    let errs := push_if (negb (truthy (get ev "event_id"))) "missing:event_id" [] in
    let errs := push_if (negb (truthy (get ev "event_name"))) "missing:event_name" errs in
    let errs := push_if (negb (truthy (get ev "client_id"))) "missing:client_id" errs in
    if strict_eq_str (get ev "event_name") "purchase" then
      push_if (negb (String.eqb (typeof (get_opt (get_opt ev "ecommerce") "currency")) "string"))
        "missing:ecommerce.currency"
        (push_if (negb (String.eqb (typeof (get_opt (get_opt ev "ecommerce") "value")) "number"))
           "missing:ecommerce.value" errs)
    else errs.
Proof. intros Hn. unfold errs_of, validateEvent. rewrite Hn. done. Qed.


Lemma typeof_number (v : JsVal) :
  String.eqb (typeof v) "number" = true <-> exists n, v = JNum n.
Proof.
  split.
  - destruct v; simpl; try discriminate. eauto.
  - intros [n ->]. done.
Qed.

Lemma typeof_string (v : JsVal) :
  String.eqb (typeof v) "string" = true <-> exists s, v = JStr s.
Proof.
  split.
  - destruct v; simpl; try discriminate. eauto.
  - intros [s ->]. done.
Qed.

Lemma valid_required (ev : JsVal) :
  valid ev ->
  truthy (get ev "event_id") = true /\
  truthy (get ev "event_name") = true /\
  truthy (get ev "client_id") = true.
Proof.
  intros [Hn He]. rewrite (errs_of_unfold _ Hn) in He. revert He.
  unfold push_if.
  destruct (truthy (get ev "event_id")), (truthy (get ev "event_name")),
    (truthy (get ev "client_id")); simpl; try done;
    destruct (strict_eq_str _ _); simpl;
    repeat match goal with |- context [if ?b then _ else _] => destruct b end;
    simpl; done.
Qed.

Lemma ensure_user_cases (e : Env) (ev : JsVal) (w : World) :
  truthy (get ev "client_id") = true ->
  ensure_user e ev w
  = if fault e (OpUpsertUser 0) then (Throw (DbError (OpUpsertUser 0)), w)
    else (Ret tt, identified e ev w).
Proof.
  intros Ht. destruct (key_text_truthy _ Ht) as [k Hk].
  destruct (fault e (OpUpsertUser 0)) eqn:Hf.
  - unfold ensure_user, when, bind, query. by rewrite Ht, Hf.
  - rewrite (ensure_user_run e ev w k) by done. unfold identified. by rewrite Hk.
Qed.

Lemma ensure_session_cases (e : Env) (ev : JsVal) (w : World) :
  ensure_session e ev w
  = if (truthy (get ev "session_id") && fault e (OpUpsertSession 0))%bool
    then (Throw (DbError (OpUpsertSession 0)), w)
    else (Ret tt, in_session e ev w).
Proof.
  unfold in_session.
  destruct (truthy (get ev "session_id")) eqn:Ht; simpl.
  - destruct (key_text_truthy _ Ht) as [k Hk].
    destruct (fault e (OpUpsertSession 0)) eqn:Hf.
    + unfold ensure_session, when, bind, query. by rewrite Ht, Hf.
    + rewrite (ensure_session_run e ev w k) by done. by rewrite Hk.
  - by apply ensure_session_skip.
Qed.

(** The upserts leave the event and metadata tables, the sequence and the
    cache alone. *)
Lemma identified_frame (e : Env) (ev : JsVal) (w : World) :
  events_of (identified e ev w) = events_of w /\
  metadata_of (identified e ev w) = metadata_of w /\
  sessions_of (identified e ev w) = sessions_of w /\
  event_seq (db (identified e ev w)) = event_seq (db w) /\
  dedupe (identified e ev w) = dedupe w.
Proof. unfold identified. by destruct (key_text _). Qed.

Lemma in_session_frame (e : Env) (ev : JsVal) (w : World) :
  events_of (in_session e ev w) = events_of w /\
  metadata_of (in_session e ev w) = metadata_of w /\
  users_of (in_session e ev w) = users_of w /\
  event_seq (db (in_session e ev w)) = event_seq (db w) /\
  dedupe (in_session e ev w) = dedupe w.
Proof. unfold in_session. destruct (truthy _); [|done]. by destruct (key_text _). Qed.

Lemma post_events_accepted_run (e : Env) (req : Request) (w : World) :
  valid (event_of req) ->
  unseen (clock e (AtDedupe 0)) (event_of req) (dedupe w) ->
  let ev := event_of req in
  let w0 := registered e 0 ev w in
  post_events e req w
  = if fault e (OpUpsertUser 0) then (server_error, w0)
    else if (truthy (get ev "session_id") && fault e (OpUpsertSession 0))%bool
    then (server_error, identified e ev w0)
    else run_handler (write_event e req ev (warns_of ev))
           (in_session e ev (identified e ev w0)).
Proof.
  intros Hv Hs ev w0. destruct (valid_required _ Hv) as (_ & _ & Hc).
  rewrite post_events_accepted by (done || apply Hv).
  fold ev w0. unfold run_handler. unfold bind at 1.
  rewrite ensure_user_cases by done.
  destruct (fault e (OpUpsertUser 0)); [done|].
  unfold bind at 1. rewrite ensure_session_cases.
  destruct (truthy (get ev "session_id") && fault e (OpUpsertSession 0))%bool; done.
Qed.

Lemma bulk_item_invalid (e : Env) (i : nat) (ev : JsVal) (ok : nat) (w : World) :
  nullish ev = false -> errs_of ev <> [] ->
  bulk_item e i ev ok w = (Ret ok, w).
Proof.
  intros Hn He. unfold bulk_item, bind, lift.
  rewrite (validateEvent_returns _ Hn). simpl.
  destruct (errs_of ev); done.
Qed.



Lemma identified_users (e : Env) (ev : JsVal) (w1 w2 : World) :
  users_of w1 = users_of w2 ->
  users_of (identified e ev w1) = users_of (identified e ev w2).
Proof.
  intros E. unfold identified. destruct (key_text _); [|done].
  unfold users_of in *. simpl. by rewrite E.
Qed.

Lemma in_session_sessions (e : Env) (ev : JsVal) (w1 w2 : World) :
  sessions_of w1 = sessions_of w2 ->
  sessions_of (in_session e ev w1) = sessions_of (in_session e ev w2).
Proof.
  intros E. unfold in_session. destruct (truthy _); [|done].
  destruct (key_text _); [|done].
  unfold sessions_of in *. simpl. by rewrite E.
Qed.



(** C8. For an event named ["purchase"] the validator reports
    [missing:ecommerce.value] exactly when [ecommerce.value] is not a number
    and [missing:ecommerce.currency] exactly when [ecommerce.currency] is not
    a string, each code at most once; an event with either error is not
    stored by the single-event handler (400, nothing changes) nor by the
    batch loop (the item is skipped). *)
Theorem purchase_fields_enforced (e : Env) (req : Request) (w : World) :
  let ev := event_of req in
  let value := get_opt (get_opt ev "ecommerce") "value" in
  let currency := get_opt (get_opt ev "ecommerce") "currency" in
  get ev "event_name" = JStr "purchase" ->
  (In "missing:ecommerce.value" (errs_of ev) <-> ~ exists n, value = JNum n) /\
  (In "missing:ecommerce.currency" (errs_of ev) <-> ~ exists s, currency = JStr s) /\
  (count_occ string_dec (errs_of ev) "missing:ecommerce.value" <= 1)%nat /\
  (count_occ string_dec (errs_of ev) "missing:ecommerce.currency" <= 1)%nat /\
  ((~ exists n, value = JNum n) \/ (~ exists s, currency = JStr s) ->
     post_events e req w
     = ({| status := 400;
           payload := InvalidEvent (errs_of ev) (warns_of ev) |}, w) /\
     forall i ok, bulk_item e i ev ok w = (Ret ok, w)).
Proof.
  intros ev value currency Hp.
  pose proof (event_of_not_nullish req) as Hn. fold ev in Hn.
  pose proof (typeof_number value) as Tn.
  pose proof (typeof_string currency) as Ts.
  assert (Hu := errs_of_unfold _ Hn). rewrite Hp in Hu. simpl in Hu.
  fold value currency in Hu.
  assert (Hv : In "missing:ecommerce.value" (errs_of ev) <-> ~ exists n, value = JNum n).
  { rewrite Hu, <- Tn. unfold push_if.
    destruct (truthy (get ev "event_id")), (truthy (get ev "client_id")),
      (String.eqb (typeof value) "number"), (String.eqb (typeof currency) "string");
      simpl; intuition congruence. }
  assert (Hc : In "missing:ecommerce.currency" (errs_of ev) <-> ~ exists s, currency = JStr s).
  { rewrite Hu, <- Ts. unfold push_if.
    destruct (truthy (get ev "event_id")), (truthy (get ev "client_id")),
      (String.eqb (typeof value) "number"), (String.eqb (typeof currency) "string");
      simpl; intuition congruence. }
  assert (Hne : (~ exists n, value = JNum n) \/ (~ exists s, currency = JStr s) ->
                errs_of ev <> []).
  { intros [D|D] Hnil; [apply Hv in D|apply Hc in D]; rewrite Hnil in D; done. }
  split; [done|]. split; [done|].
  split; [|split].
  - rewrite Hu. unfold push_if.
    destruct (truthy (get ev "event_id")), (truthy (get ev "client_id")),
      (String.eqb (typeof value) "number"), (String.eqb (typeof currency) "string");
      simpl; lia.
  - rewrite Hu. unfold push_if.
    destruct (truthy (get ev "event_id")), (truthy (get ev "client_id")),
      (String.eqb (typeof value) "number"), (String.eqb (typeof currency) "string");
      simpl; lia.
  - intros D. split.
    + apply post_events_invalid. by apply Hne.
    + intros i ok. apply bulk_item_invalid; [done|by apply Hne].
Qed.

(** ** Atomicity of the single-event write *)


Lemma accepted_frame (e : Env) (ev : JsVal) (w : World) :
  let w1 := in_session e ev (identified e ev (registered e 0 ev w)) in
  events_of w1 = events_of w /\
  metadata_of w1 = metadata_of w /\
  event_seq (db w1) = event_seq (db w) /\
  users_of w1 = users_of (identified e ev w) /\
  sessions_of w1 = sessions_of (in_session e ev w) /\
  dedupe w1 = dedupe (registered e 0 ev w).
Proof.
  intros w1. subst w1.
  destruct (in_session_frame e ev (identified e ev (registered e 0 ev w)))
    as (E1 & E2 & E3 & E4 & E5).
  destruct (identified_frame e ev (registered e 0 ev w))
    as (F1 & F2 & F3 & F4 & F5).
  repeat split.
  - by rewrite E1, F1.
  - by rewrite E2, F2.
  - by rewrite E4, F4.
  - rewrite E3. by apply identified_users.
  - apply in_session_sessions. by rewrite F3.
  - by rewrite E5, F5.
Qed.



(** ** The dedupe cache *)

Lemma evict_lookup (now : Z) (d : gmap string Z) (k : string) (ts : Z) :
  evict now d !! k = Some ts <-> d !! k = Some ts /\ now - ts <= 60000.
Proof.
  unfold evict. rewrite map_lookup_filter_Some. simpl. split.
  - intros [? ?]. split; [done|lia].
  - intros [? ?]. split; [done|lia].
Qed.

Lemma evict_lookup_expired (now : Z) (d : gmap string Z) (k : string) (ts : Z) :
  d !! k = Some ts -> now - ts > 60000 -> evict now d !! k = None.
Proof.
  intros Hk Hold. unfold evict. apply map_lookup_filter_None. right.
  intros x Hx. simpl. rewrite Hk in Hx. injection Hx as <-. lia.
Qed.


(** The answer of a check is taken on the cache without its old entries. *)
Lemma shouldStore_answer (e : Env) (i : nat) (ev : JsVal) (w : World) :
  (shouldStore e i ev w).1
  = Ret (bool_decide (unseen (clock e (AtDedupe i)) ev (dedupe w))).
Proof.
  unfold shouldStore, unseen.
  destruct (evict (clock e (AtDedupe i)) (dedupe w) !! dedupe_key ev) eqn:Hs; simpl.
  - symmetry; f_equal; by apply bool_decide_eq_false_2.
  - symmetry; f_equal; by apply bool_decide_eq_true_2.
Qed.

(** A check within the window of an entry keeps the entry, with its time. *)
Lemma shouldStore_keeps (e : Env) (i : nat) (ev : JsVal) (w : World)
    (k : string) (t1 : Z) :
  dedupe w !! k = Some t1 ->
  clock e (AtDedupe i) - t1 <= 60000 ->
  dedupe (shouldStore e i ev w).2 !! k = Some t1.
Proof.
  intros Hk Hin.
  assert (Hev : evict (clock e (AtDedupe i)) (dedupe w) !! k = Some t1)
    by by apply evict_lookup.
  unfold shouldStore.
  destruct (evict (clock e (AtDedupe i)) (dedupe w) !! dedupe_key ev) eqn:Hs; simpl.
  - done.
  - destruct (decide (dedupe_key ev = k)) as [<-|Hne]; [congruence|].
    by rewrite lookup_insert_ne.
Qed.

Lemma checks_keep (cs : list (Env * nat * JsVal)) (w : World) (k : string) (t1 : Z) :
  dedupe w !! k = Some t1 ->
  Forall (in_window t1) cs ->
  dedupe (checks cs w) !! k = Some t1.
Proof.
  intros Hk Hcs. revert w Hk.
  induction Hcs as [|c cs Hc _ IH]; intros w Hk; [done|].
  unfold checks. simpl. apply IH. by apply shouldStore_keeps.
Qed.


Lemma write_event_dedupe (e : Env) (req : Request) (ev : JsVal)
    (warns : list string) (w : World) :
  dedupe (run_handler (write_event e req ev warns) w).2 = dedupe w.
Proof.
  unfold run_handler. rewrite write_event_run. unfold rolled_back.
  destruct (fault e OpConnect); [done|].
  destruct (fault e OpBegin || fault e (OpInsertEvent 0))%bool;
    [by destruct (fault e OpRollback)|].
  destruct (fault e OpInsertMetadata || fault e OpCommit)%bool;
    [by destruct (fault e OpRollback)|].
  done.
Qed.

(** Once [shouldStore] accepted an event its fingerprint stays registered,
    however the rest of the request goes. *)
Lemma post_events_registers (e : Env) (req : Request) (w : World) :
  valid (event_of req) ->
  unseen (clock e (AtDedupe 0)) (event_of req) (dedupe w) ->
  dedupe (post_events e req w).2 = dedupe (registered e 0 (event_of req) w).
Proof.
  intros Hv Hs. rewrite post_events_accepted_run by done.
  destruct (fault e (OpUpsertUser 0)); [done|].
  destruct (accepted_frame e (event_of req) w) as (_ & _ & _ & _ & _ & A).
  destruct (identified_frame e (event_of req) (registered e 0 (event_of req) w))
    as (_ & _ & _ & _ & F).
  destruct (_ && _)%bool; [done|].
  by rewrite write_event_dedupe.
Qed.

(** A valid resubmission of a fingerprint that is in the cache and within
    its window is answered [deduped] and touches no table. *)
Lemma post_events_deduped (e : Env) (req : Request) (w : World) (t1 : Z) :
  valid (event_of req) ->
  dedupe w !! dedupe_key (event_of req) = Some t1 ->
  clock e (AtDedupe 0) - t1 <= 60000 ->
  post_events e req w = ({| status := 200; payload := Deduped |}, swept e 0 w).
Proof.
  intros [_ He] Hk Hin. apply (post_events_duplicate e req w t1); [done|].
  by apply evict_lookup.
Qed.


Lemma post_events_reaches_tx (e : Env) (req : Request) (w : World) :
  let ev := event_of req in
  valid ev ->
  unseen (clock e (AtDedupe 0)) ev (dedupe w) ->
  fault e (OpUpsertUser 0) = false ->
  fault e (OpUpsertSession 0) = false ->
  post_events e req w
  = run_handler (write_event e req ev (warns_of ev))
      (in_session e ev (identified e ev (registered e 0 ev w))).
Proof.
  intros ev Hv Hs Hu Hss. rewrite post_events_accepted_run by done.
  fold ev. by rewrite Hu, Hss, andb_false_r.
Qed.




(** ** Identity and session rows *)

Lemma view_write (c : Conn) (s : Store) (d : Database) : view c (write c s d) = s.
Proof. unfold view, write. destruct c, (in_tx d); done. Qed.

Lemma coalesce_is_spec (incoming stored : JsVal) :
  COALESCE (sql_param incoming) stored = coalesce_spec incoming stored.
Proof. by destruct incoming. Qed.

(** An upsert against an existing row returns and stores the merged row. *)
Lemma upsert_user_existing (c : Conn) (merge : UserRow -> UserRow -> UserRow)
    (p : UserRow) (d : Database) (k : string) (old : UserRow) :
  key_text (u_client_id p) = Some k ->
  pixel_users (view c d) !! k = Some old ->
  exists d',
    upsert_user c merge p d = Some (merge (bind_user p) old, d') /\
    pixel_users (view c d') !! k = Some (merge (bind_user p) old).
Proof.
  intros Hk Hold. unfold upsert_user.
  assert (Hk' : key_text (u_client_id (bind_user p)) = Some k)
    by (simpl; by rewrite key_text_param).
  rewrite (upsert_row_run _ k) by done. rewrite Hk', upserted_lookup, Hold.
  eexists. split; [reflexivity|].
  rewrite view_write. simpl. by rewrite upserted_lookup, Hold.
Qed.

Lemma upsert_session_existing (c : Conn)
    (merge : SessionRow -> SessionRow -> SessionRow)
    (p : SessionRow) (d : Database) (k : string) (old : SessionRow) :
  key_text (s_session_id p) = Some k ->
  pixel_sessions (view c d) !! k = Some old ->
  exists d',
    upsert_session c merge p d = Some (merge (bind_session p) old, d') /\
    pixel_sessions (view c d') !! k = Some (merge (bind_session p) old).
Proof.
  intros Hk Hold. unfold upsert_session.
  assert (Hk' : key_text (s_session_id (bind_session p)) = Some k)
    by (simpl; by rewrite key_text_param).
  rewrite (upsert_row_run _ k) by done. rewrite Hk', upserted_lookup, Hold.
  eexists. split; [reflexivity|].
  rewrite view_write. simpl. by rewrite upserted_lookup, Hold.
Qed.

Lemma post_users_existing (e : Env) (req : Request) (w : World) (k : string)
    (old : UserRow) :
  let b := event_of req in
  let row := merge_user_full (bind_user (users_params e b)) old in
  key_text (get b "client_id") = Some k ->
  users_of w !! k = Some old ->
  fault e (OpUpsertUser 0) = false ->
  exists w',
    post_users e req w = (Ret {| status := 200; payload := UserJson row |}, w') /\
    users_of w' !! k = Some row.
Proof.
  intros b row Hk Hold Hf. unfold post_users, bind, query, respond, ret.
  fold (event_of req). fold b. rewrite Hf.
  destruct (upsert_user_existing Pool merge_user_full (users_params e b) (db w) k old)
    as (d' & -> & Hd'); try done.
  eexists. split; [reflexivity|]. done.
Qed.

Lemma post_sessions_existing (e : Env) (req : Request) (w : World) (k : string)
    (old : SessionRow) :
  let b := event_of req in
  let row := merge_session_full (bind_session (sessions_params e b)) old in
  key_text (get b "session_id") = Some k ->
  sessions_of w !! k = Some old ->
  fault e (OpUpsertSession 0) = false ->
  exists w',
    post_sessions e req w = (Ret {| status := 200; payload := SessionJson row |}, w') /\
    sessions_of w' !! k = Some row.
Proof.
  intros b row Hk Hold Hf. unfold post_sessions, bind, query, respond, ret.
  fold (event_of req). fold b. rewrite Hf.
  destruct (upsert_session_existing Pool merge_session_full (sessions_params e b) (db w) k old)
    as (d' & -> & Hd'); try done.
  eexists. split; [reflexivity|]. done.
Qed.

Lemma write_event_tables (e : Env) (req : Request) (ev : JsVal)
    (warns : list string) (w : World) :
  users_of (run_handler (write_event e req ev warns) w).2 = users_of w /\
  sessions_of (run_handler (write_event e req ev warns) w).2 = sessions_of w.
Proof.
  unfold run_handler. rewrite write_event_run. unfold rolled_back.
  destruct (fault e OpConnect); [done|].
  destruct (fault e OpBegin || fault e (OpInsertEvent 0))%bool;
    [by destruct (fault e OpRollback)|].
  destruct (fault e OpInsertMetadata || fault e OpCommit)%bool;
    [by destruct (fault e OpRollback)|].
  done.
Qed.

(** Once the user upsert of [POST /events] went through, the users table is
    the upserted one however the rest of the request goes. *)
Lemma post_events_users (e : Env) (req : Request) (w : World) :
  let ev := event_of req in
  valid ev ->
  unseen (clock e (AtDedupe 0)) ev (dedupe w) ->
  fault e (OpUpsertUser 0) = false ->
  users_of (post_events e req w).2 = users_of (identified e ev w).
Proof.
  intros ev Hv Hs Hu. rewrite post_events_accepted_run by done.
  fold ev. rewrite Hu.
  destruct (accepted_frame e ev w) as (_ & _ & _ & A & _).
  destruct (_ && _)%bool; simpl.
  - by apply identified_users.
  - destruct (write_event_tables e req ev (warns_of ev)
                (in_session e ev (identified e ev (registered e 0 ev w)))) as [-> _].
    done.
Qed.

(** While a session upsert of [POST /events] that went through leaves the
    sessions table upserted. *)
Lemma post_events_sessions (e : Env) (req : Request) (w : World) :
  let ev := event_of req in
  valid ev ->
  unseen (clock e (AtDedupe 0)) ev (dedupe w) ->
  fault e (OpUpsertUser 0) = false ->
  fault e (OpUpsertSession 0) = false ->
  sessions_of (post_events e req w).2 = sessions_of (in_session e ev w).
Proof.
  intros ev Hv Hs Hu Hss. rewrite post_events_reaches_tx by done. fold ev.
  destruct (accepted_frame e ev w) as (_ & _ & _ & _ & A & _).
  destruct (write_event_tables e req ev (warns_of ev)
              (in_session e ev (identified e ev (registered e 0 ev w)))) as [_ ->].
  done.
Qed.

(** C4. An upsert of a client identity against an existing row coalesces the
    resolved user id, the email hash and the phone hash: the stored value
    stays when the incoming parameter is null or absent and is replaced when
    it is not, so a later event without the field does not erase it; the
    last-seen time is always the incoming one.  This holds for the explicit
    upsert of [POST /users], for the upsert of [POST /events] (where the
    users table keeps the result however the rest of the request goes), and
    for the upsert of the batch, which names no identity field and so
    leaves all three as stored.  The incoming parameter of a field is the
    payload value passed through [|| null]. *)
Theorem client_identity_coalesced (e : Env) (req : Request) (w : World)
    (k : string) (old : UserRow) :
  let b := event_of req in
  users_of w !! k = Some old ->
  key_text (get b "client_id") = Some k ->
  fault e (OpUpsertUser 0) = false ->
  (exists row w',
     post_users e req w = (Ret {| status := 200; payload := UserJson row |}, w') /\
     users_of w' !! k = Some row /\
     u_user_id row = coalesce_spec (jor (get b "user_id") JNull) (u_user_id old) /\
     u_email_sha256 row
     = coalesce_spec (jor (get b "email_sha256") JNull) (u_email_sha256 old) /\
     u_phone_sha256 row
     = coalesce_spec (jor (get b "phone_sha256") JNull) (u_phone_sha256 old) /\
     u_last_seen row = jor (get b "last_seen") (JDate (date_now e (AtLastSeen 0)))) /\
  (valid b -> unseen (clock e (AtDedupe 0)) b (dedupe w) ->
   exists row,
     users_of (post_events e req w).2 !! k = Some row /\
     u_user_id row
     = coalesce_spec (jor (get_opt (get b "identify") "user_id") JNull) (u_user_id old) /\
     u_email_sha256 row
     = coalesce_spec (jor (get_opt (get b "identify") "email_sha256") JNull)
         (u_email_sha256 old) /\
     u_phone_sha256 row
     = coalesce_spec (jor (get_opt (get b "identify") "phone_sha256") JNull)
         (u_phone_sha256 old) /\
     u_last_seen row = JDate (date_now e (AtLastSeen 0))) /\
  (forall (c : Conn) (d : Database) (i : nat),
     pixel_users (view c d) !! k = Some old ->
     exists row d',
       upsert_user c merge_user_minimal (bulk_user e i b) d = Some (row, d') /\
       pixel_users (view c d') !! k = Some row /\
       u_user_id row = u_user_id old /\
       u_email_sha256 row = u_email_sha256 old /\
       u_phone_sha256 row = u_phone_sha256 old /\
       u_last_seen row = JDate (date_now e (AtLastSeen i))).
Proof.
  intros b Hold Hk Hf. split; [|split].
  - destruct (post_users_existing e req w k old) as (w' & E1 & E2); try done.
    fold b in E1, E2. eexists _, w'. split; [exact E1|]. split; [exact E2|].
    simpl. rewrite <- !coalesce_is_spec.
    repeat split. unfold jor. destruct (truthy (get b "last_seen")) eqn:Ht; [|done].
    by apply sql_param_id, truthy_not_nullish.
  - intros Hv Hs. fold b in Hv, Hs.
    rewrite post_events_users by done. fold b.
    unfold identified. rewrite Hk. unfold users_of at 1. simpl.
    rewrite upserted_lookup. fold (users_of w). rewrite Hold.
    eexists. split; [reflexivity|]. simpl. rewrite <- !coalesce_is_spec. done.
  - intros c d i Hd.
    destruct (upsert_user_existing c merge_user_minimal (bulk_user e i b) d k old)
      as (d' & E1 & E2); try done.
    eexists _, d'. split; [exact E1|]. split; [exact E2|]. done.
Qed.

(** ** The batch loop *)

Lemma bulk_item_duplicate (e : Env) (i : nat) (ev : JsVal) (ok : nat)
    (w : World) (ts : Z) :
  valid ev ->
  evict (clock e (AtDedupe i)) (dedupe w) !! dedupe_key ev = Some ts ->
  bulk_item e i ev ok w = (Ret ok, swept e i w).
Proof.
  intros [Hn He] Hs. unfold bulk_item, bind, lift.
  rewrite (validateEvent_returns _ Hn). simpl. rewrite He. simpl.
  by rewrite (shouldStore_seen _ _ _ _ ts).
Qed.

Lemma bulk_item_accepted (e : Env) (i : nat) (ev : JsVal) (ok : nat) (w : World) :
  valid ev ->
  unseen (clock e (AtDedupe i)) ev (dedupe w) ->
  bulk_item e i ev ok w = bulk_store e i ev ok (registered e i ev w).
Proof.
  intros [Hn He] Hs. unfold bulk_item. unfold bind at 1. unfold lift.
  rewrite (validateEvent_returns _ Hn). simpl. rewrite He. simpl.
  unfold bind at 1. by rewrite shouldStore_unseen.
Qed.

Lemma bind_eq {A B : Type} (m : M A) (k : A -> M B) (w : World) :
  bind m k w
  = match m w with
    | (Ret a, w') => k a w'
    | (Throw x, w') => (Throw x, w')
    end.
Proof. done. Qed.

Lemma query_fault {A : Type} (e : Env) (op : Op) (stmt : Statement A) (w : World) :
  fault e op = true -> query e op stmt w = (Throw (DbError op), w).
Proof. intros Hf. unfold query. by rewrite Hf. Qed.

Lemma query_ok {A : Type} (e : Env) (op : Op) (stmt : Statement A) (w : World)
    (a : A) (d : Database) :
  fault e op = false -> stmt (db w) = Some (a, d) ->
  query e op stmt w = (Ret a, {| db := d; dedupe := dedupe w |}).
Proof. intros Hf Hs. unfold query. by rewrite Hf, Hs. Qed.

Lemma bulk_user_step (e : Env) (i : nat) (ev : JsVal)
    (c0 s : Store) (n : Z) (dd : gmap string Z) :
  truthy (get ev "client_id") = true ->
  exists s',
    when (truthy (get ev "client_id"))
      (query e (OpUpsertUser i)
         (upsert_user Client merge_user_minimal (bulk_user e i ev)) ;;; ret tt)
      (in_transaction c0 s n dd)
    = (if fault e (OpUpsertUser i)
       then (Throw (DbError (OpUpsertUser i)), in_transaction c0 s n dd)
       else (Ret tt, in_transaction c0 s' n dd)) /\
    pixel_events s' = pixel_events s /\ pixel_metadata s' = pixel_metadata s.
Proof.
  intros Hc. destruct (key_text_truthy _ Hc) as [kc Hkc].
  rewrite Hc. unfold when. rewrite bind_eq.
  destruct (upsert_user_run Client merge_user_minimal (bulk_user e i ev)
              (db (in_transaction c0 s n dd)) kc Hkc) as [row Hrow].
  destruct (fault e (OpUpsertUser i)) eqn:Fu.
  - rewrite query_fault by done. by exists s.
  - rewrite (query_ok _ _ _ _ _ _ Fu Hrow). simpl. eexists. split; [reflexivity|]. done.
Qed.

Lemma bulk_session_step (e : Env) (i : nat) (ev : JsVal)
    (c0 s : Store) (n : Z) (dd : gmap string Z) :
  exists s',
    when (truthy (get ev "session_id"))
      (query e (OpUpsertSession i)
         (upsert_session Client merge_session_event (bulk_session e i ev)) ;;; ret tt)
      (in_transaction c0 s n dd)
    = (if (truthy (get ev "session_id") && fault e (OpUpsertSession i))%bool
       then (Throw (DbError (OpUpsertSession i)), in_transaction c0 s n dd)
       else (Ret tt, in_transaction c0 s' n dd)) /\
    pixel_events s' = pixel_events s /\ pixel_metadata s' = pixel_metadata s.
Proof.
  destruct (truthy (get ev "session_id")) eqn:Hsid; simpl.
  2:{ by exists s. }
  destruct (key_text_truthy _ Hsid) as [ks Hks]. rewrite bind_eq.
  destruct (upsert_session_run Client merge_session_event (bulk_session e i ev)
              (db (in_transaction c0 s n dd)) ks Hks) as [row Hrow].
  destruct (fault e (OpUpsertSession i)) eqn:Fs.
  - rewrite query_fault by done. by exists s.
  - rewrite (query_ok _ _ _ _ _ _ Fs Hrow). simpl. eexists. split; [reflexivity|]. done.
Qed.

Lemma bulk_insert_step (e : Env) (i : nat) (ev : JsVal) (ok : nat)
    (c0 s : Store) (n : Z) (dd : gmap string Z) :
  (query e (OpInsertEvent i) (insert_event Client (bulk_params e i ev)) ;;;
   ret (S ok)) (in_transaction c0 s n dd)
  = if fault e (OpInsertEvent i)
    then (Throw (DbError (OpInsertEvent i)), in_transaction c0 s n dd)
    else (Ret (S ok),
          in_transaction c0 (add_event (event_row (n + 1) (bulk_params e i ev)) s)
            (n + 1) dd).
Proof.
  rewrite bind_eq. unfold query. by destruct (fault e (OpInsertEvent i)).
Qed.

(** Inside a transaction the steps of an accepted item touch the private
    store only; they either all go through, adding one event row, or
    throw. *)
Lemma bulk_store_run (e : Env) (i : nat) (ev : JsVal) (ok : nat)
    (c0 s : Store) (n : Z) (dd : gmap string Z) :
  truthy (get ev "client_id") = true ->
  let rejected :=
    (fault e (OpUpsertUser i)
     || (truthy (get ev "session_id") && fault e (OpUpsertSession i))
     || fault e (OpInsertEvent i))%bool in
  if rejected
  then exists x s', bulk_store e i ev ok (in_transaction c0 s n dd)
                    = (Throw x, in_transaction c0 s' n dd)
  else exists s',
      bulk_store e i ev ok (in_transaction c0 s n dd)
      = (Ret (S ok), in_transaction c0 s' (n + 1) dd) /\
      pixel_events s' = (pixel_events s ++ [event_row (n + 1) (bulk_params e i ev)])%list /\
      pixel_metadata s' = pixel_metadata s.
Proof.
  intros Hc rejected. subst rejected. unfold bulk_store. rewrite bind_eq.
  destruct (bulk_user_step e i ev c0 s n dd Hc) as (s1 & -> & E1 & M1).
  destruct (fault e (OpUpsertUser i)); simpl.
  { by eexists _, s. }
  rewrite bind_eq.
  destruct (bulk_session_step e i ev c0 s1 n dd) as (s2 & -> & E2 & M2).
  destruct (truthy (get ev "session_id") && fault e (OpUpsertSession i))%bool; simpl.
  { by eexists _, s1. }
  rewrite bulk_insert_step.
  destruct (fault e (OpInsertEvent i)).
  { by eexists _, s2. }
  eexists. split; [reflexivity|]. simpl. by rewrite E2, E1, M2, M1.
Qed.

Lemma bulk_transaction_run (e : Env) (req : Request) (events : list JsVal)
    (w : World) :
  bulk_transaction e req events w
  = if fault e OpBegin then rolled_back e w
    else match bulk_loop e 0 events 0 (begun w) with
         | (Throw _, w1) => rolled_back e w1
         | (Ret ok, w1) =>
             if (Nat.ltb 0 ok && fault e OpInsertMetadata)%bool
             then rolled_back e w1
             else
               let w2 := if Nat.ltb 0 ok then with_batch_metadata req w1 else w1 in
               if fault e OpCommit then rolled_back e w2
               else (Ret {| status := 200; payload := Ingested ok |}, after_commit w2)
         end.
Proof.
  unfold bulk_transaction, try_finally, try_catch. rewrite bind_eq.
  destruct (fault e OpBegin) eqn:Fb.
  { rewrite query_fault by done. simpl.
    unfold rolled_back, bind, query, respond, ret.
    by destruct (fault e OpRollback). }
  rewrite (query_ok e OpBegin begin_tx w tt _ Fb eq_refl).
  unfold begun, in_transaction. rewrite bind_eq.
  destruct (bulk_loop e 0 events 0 _) as [[ok|x] w1].
  2:{ simpl. unfold rolled_back, bind, query, respond, ret.
      by destruct (fault e OpRollback). }
  rewrite bind_eq. unfold when.
  destruct (Nat.ltb 0 ok); cbv beta iota.
  - rewrite andb_true_l. destruct (fault e OpInsertMetadata) eqn:Fm.
    { rewrite query_fault by done. simpl.
      unfold rolled_back, bind, query, respond, ret. by destruct (fault e OpRollback). }
    rewrite (query_ok e OpInsertMetadata _ w1 tt _ Fm eq_refl).
    fold (with_batch_metadata req w1). rewrite bind_eq.
    destruct (fault e OpCommit) eqn:Fc.
    { rewrite query_fault by done. simpl.
      unfold rolled_back, bind, query, respond, ret. by destruct (fault e OpRollback). }
    rewrite (query_ok e OpCommit commit_tx _ tt _ Fc eq_refl). done.
  - rewrite andb_false_l. unfold ret at 1. cbv beta iota. rewrite bind_eq.
    destruct (fault e OpCommit) eqn:Fc.
    { rewrite query_fault by done. simpl.
      unfold rolled_back, bind, query, respond, ret. by destruct (fault e OpRollback). }
    rewrite (query_ok e OpCommit commit_tx _ tt _ Fc eq_refl). done.
Qed.

(** Every step of the loop inside a transaction leaves the committed store
    alone and the transaction open. *)
Lemma bulk_item_tx (e : Env) (i : nat) (ev : JsVal) (ok : nat)
    (c0 s : Store) (n : Z) (dd : gmap string Z) :
  exists o s' n' dd',
    bulk_item e i ev ok (in_transaction c0 s n dd) = (o, in_transaction c0 s' n' dd').
Proof.
  destruct (nullish ev) eqn:Hn.
  { unfold bulk_item, bind, lift, validateEvent. rewrite Hn. by eexists _, s, n, dd. }
  destruct (decide (errs_of ev = [])) as [He|He].
  2:{ rewrite bulk_item_invalid by done. by eexists _, s, n, dd. }
  assert (Hv : valid ev) by done.
  destruct (evict (clock e (AtDedupe i)) dd !! dedupe_key ev) as [ts|] eqn:Hs.
  { rewrite (bulk_item_duplicate e i ev ok _ ts) by done.
    by eexists _, s, n, _. }
  rewrite bulk_item_accepted by done.
  destruct (valid_required _ Hv) as (_ & _ & Hc).
  pose proof (bulk_store_run e i ev ok c0 s n
                (<[dedupe_key ev := clock e (AtDedupe i)]> (evict (clock e (AtDedupe i)) dd))
                Hc) as R.
  simpl in R. unfold registered. simpl.
  fold (in_transaction c0 s n
          (<[dedupe_key ev := clock e (AtDedupe i)]> (evict (clock e (AtDedupe i)) dd))).
  destruct (_ || _ || _)%bool.
  - destruct R as (x & s' & ->). by eexists _, s', n, _.
  - destruct R as (s' & -> & _). by eexists _, s', (n + 1), _.
Qed.

Lemma bulk_loop_tx (e : Env) (events : list JsVal) (i : nat) (ok : nat)
    (c0 s : Store) (n : Z) (dd : gmap string Z) :
  exists o s' n' dd',
    bulk_loop e i events ok (in_transaction c0 s n dd) = (o, in_transaction c0 s' n' dd').
Proof.
  revert i ok s n dd. induction events as [|ev rest IH]; intros i ok s n dd.
  { by eexists _, s, n, dd. }
  simpl. rewrite bind_eq.
  destruct (bulk_item_tx e i ev ok c0 s n dd) as (o & s1 & n1 & dd1 & ->).
  destruct o as [ok'|x].
  - apply IH.
  - by eexists _, s1, n1, dd1.
Qed.

Lemma post_events_bulk_run (e : Env) (req : Request) (w : World)
    (ev : JsVal) (rest : list JsVal) :
  body req = JArr (ev :: rest) ->
  post_events_bulk e req w
  = if fault e OpConnect then (server_error, w)
    else run_handler (bulk_transaction e req (ev :: rest)) w.
Proof.
  intros Hb. unfold post_events_bulk, run_handler, post_events_bulk_body.
  rewrite Hb. simpl. rewrite bind_eq. unfold connect.
  destruct (fault e OpConnect) eqn:Fc.
  - by rewrite query_fault.
  - by rewrite (query_ok e OpConnect _ w tt (db w) Fc eq_refl); destruct w.
Qed.

(** Either the batch is answered with its count, or the request fails with
    status 500 and the committed store is the one it started from. *)
Lemma bulk_all_or_nothing (e : Env) (req : Request) (w : World) :
  let r := post_events_bulk e req w in
  (exists n, r.1 = {| status := 200; payload := Ingested n |}) \/
  (status r.1 = 500 /\ committed (db r.2) = committed (db w)).
Proof.
  intros r. subst r.
  destruct (body req) as [| | | | |[|ev rest]| |] eqn:Hb;
    try (left; exists 0%nat; unfold post_events_bulk, run_handler,
           post_events_bulk_body; by rewrite Hb).
  rewrite (post_events_bulk_run e req w ev rest Hb).
  destruct (fault e OpConnect); [by right|].
  unfold run_handler. rewrite bulk_transaction_run.
  destruct (fault e OpBegin).
  { right. unfold rolled_back. by destruct (fault e OpRollback). }
  destruct (bulk_loop_tx e (ev :: rest) 0 0 (committed (db w)) (committed (db w))
              (event_seq (db w)) (dedupe w)) as (o & s' & n' & dd' & Hl).
  fold (begun w) in Hl. rewrite Hl.
  destruct o as [ok|x].
  2:{ right. unfold rolled_back. by destruct (fault e OpRollback). }
  destruct (Nat.ltb 0 ok && fault e OpInsertMetadata)%bool.
  { right. unfold rolled_back. by destruct (fault e OpRollback). }
  destruct (fault e OpCommit).
  { right. unfold rolled_back.
    destruct (fault e OpRollback), (Nat.ltb 0 ok); done. }
  left. by exists ok.
Qed.

Lemma bulk_loop_app_throw (e : Env) (pre : list JsVal) (ev : JsVal)
    (post : list JsVal) (i ok ok1 : nat) (w w1 w2 : World) (x : Exn) :
  bulk_loop e i pre ok w = (Ret ok1, w1) ->
  bulk_item e (i + length pre) ev ok1 w1 = (Throw x, w2) ->
  bulk_loop e i (pre ++ ev :: post) ok w = (Throw x, w2).
Proof.
  revert i ok w. induction pre as [|p pre IH]; intros i ok w Hpre Hit.
  - simpl in *. injection Hpre as <- <-. rewrite Nat.add_0_r in Hit.
    rewrite bind_eq. by rewrite Hit.
  - simpl in *. rewrite bind_eq in *.
    destruct (bulk_item e i p ok w) as [[ok'|y] w']; [|done].
    apply IH; [done|]. by rewrite Nat.add_succ_comm.
Qed.

(** A batch whose loop throws is answered 500 and leaves the committed
    store as it was. *)
Lemma bulk_throw_rolls_back (e : Env) (req : Request) (w w1 : World)
    (ev : JsVal) (rest : list JsVal) (x : Exn) :
  let r := post_events_bulk e req w in
  body req = JArr (ev :: rest) ->
  fault e OpConnect = false ->
  fault e OpBegin = false ->
  bulk_loop e 0 (ev :: rest) 0 (begun w) = (Throw x, w1) ->
  status r.1 = 500 /\
  committed (db r.2) = committed (db w) /\
  (fault e OpRollback = false ->
   r.1 = {| status := 500; payload := Failure "db_error" |}).
Proof.
  intros r Hb Fc Fb Hl. subst r.
  rewrite (post_events_bulk_run e req w ev rest Hb), Fc.
  unfold run_handler. rewrite bulk_transaction_run, Fb, Hl.
  destruct (bulk_loop_tx e (ev :: rest) 0 0 (committed (db w)) (committed (db w))
              (event_seq (db w)) (dedupe w)) as (o & s' & n' & dd' & Hl').
  fold (begun w) in Hl'. rewrite Hl in Hl'. injection Hl' as _ ->.
  unfold rolled_back. by destruct (fault e OpRollback).
Qed.

Lemma evict_lookup_absent (now : Z) (d : gmap string Z) (k : string) :
  d !! k = None -> evict now d !! k = None.
Proof. intros Hk. unfold evict. apply map_lookup_filter_None. by left. Qed.

(** An accepted item none of whose operations is rejected adds its event
    row to the transaction and counts. *)
Lemma bulk_item_stored (e : Env) (i : nat) (ev : JsVal) (ok : nat)
    (c0 s : Store) (n : Z) (dd : gmap string Z) :
  valid ev ->
  unseen (clock e (AtDedupe i)) ev dd ->
  fault e (OpUpsertUser i) = false ->
  fault e (OpUpsertSession i) = false ->
  fault e (OpInsertEvent i) = false ->
  exists s',
    bulk_item e i ev ok (in_transaction c0 s n dd)
    = (Ret (S ok),
       in_transaction c0 s' (n + 1)
         (<[dedupe_key ev := clock e (AtDedupe i)]> (evict (clock e (AtDedupe i)) dd))) /\
    pixel_events s' = (pixel_events s ++ [event_row (n + 1) (bulk_params e i ev)])%list /\
    pixel_metadata s' = pixel_metadata s.
Proof.
  intros Hv Hs Fu Fs Fi. rewrite bulk_item_accepted by done.
  destruct (valid_required _ Hv) as (_ & _ & Hc).
  pose proof (bulk_store_run e i ev ok c0 s n
                (<[dedupe_key ev := clock e (AtDedupe i)]> (evict (clock e (AtDedupe i)) dd))
                Hc) as R.
  simpl in R. rewrite Fu, Fs, Fi, andb_false_r in R. simpl in R. exact R.
Qed.

(** An accepted item whose event INSERT is rejected throws. *)
Lemma bulk_item_insert_rejected (e : Env) (i : nat) (ev : JsVal) (ok : nat)
    (c0 s : Store) (n : Z) (dd : gmap string Z) :
  valid ev ->
  unseen (clock e (AtDedupe i)) ev dd ->
  fault e (OpInsertEvent i) = true ->
  exists x w2, bulk_item e i ev ok (in_transaction c0 s n dd) = (Throw x, w2).
Proof.
  intros Hv Hs Fi. rewrite bulk_item_accepted by done.
  destruct (valid_required _ Hv) as (_ & _ & Hc).
  pose proof (bulk_store_run e i ev ok c0 s n
                (<[dedupe_key ev := clock e (AtDedupe i)]> (evict (clock e (AtDedupe i)) dd))
                Hc) as R.
  simpl in R. rewrite Fi, orb_true_r in R. destruct R as (x & s' & R). eauto.
Qed.

(** The loop over [[A; B; C]] with [A] and [C] accepted and [B] invalid. *)
Lemma bulk_loop_ABC (e : Env) (A B C : JsVal) (w : World) :
  valid A -> nullish B = false -> errs_of B <> [] -> valid C ->
  dedupe_key A <> dedupe_key C ->
  dedupe w !! dedupe_key A = None ->
  dedupe w !! dedupe_key C = None ->
  fault e (OpUpsertUser 0) = false ->
  fault e (OpUpsertSession 0) = false ->
  fault e (OpInsertEvent 0) = false ->
  let n := event_seq (db w) in
  exists s1 dd1,
    bulk_loop e 0 [A] 0 (begun w) = (Ret 1%nat, in_transaction (committed (db w)) s1 (n + 1) dd1) /\
    bulk_loop e 0 [A; B] 0 (begun w) = (Ret 1%nat, in_transaction (committed (db w)) s1 (n + 1) dd1) /\
    pixel_events s1 = (events_of w ++ [event_row (n + 1) (bulk_params e 0 A)])%list /\
    pixel_metadata s1 = metadata_of w /\
    unseen (clock e (AtDedupe 2)) C dd1 /\
    bulk_loop e 0 [A; B; C] 0 (begun w)
    = bulk_item e 2 C 1 (in_transaction (committed (db w)) s1 (n + 1) dd1).
Proof.
  intros HA HBn HB HC Hne HkA HkC Fu Fs Fi n. subst n.
  assert (HsA : unseen (clock e (AtDedupe 0)) A (dedupe w))
    by by apply evict_lookup_absent.
  destruct (bulk_item_stored e 0 A 0 (committed (db w)) (committed (db w))
              (event_seq (db w)) (dedupe w))
    as (s1 & E1 & E2 & E3); try done.
  fold (begun w) in E1.
  eexists s1, _. unfold bulk_loop. rewrite !bind_eq, E1. rewrite !bind_eq.
  rewrite (bulk_item_invalid e 1 B) by done.
  split; [reflexivity|]. split; [reflexivity|]. split; [done|]. split; [done|].
  split.
  - unfold unseen. apply evict_lookup_absent.
    rewrite lookup_insert_ne by done. by apply evict_lookup_absent.
  - rewrite bind_eq. by destruct (bulk_item e 2 C 1 _) as [[?|?] ?].
Qed.

Lemma bulk_loop_committed (e : Env) (events : list JsVal) (w : World)
    (o : Outcome nat) (w1 : World) :
  bulk_loop e 0 events 0 (begun w) = (o, w1) ->
  exists s' n' dd', w1 = in_transaction (committed (db w)) s' n' dd'.
Proof.
  intros Hl.
  destruct (bulk_loop_tx e events 0 0 (committed (db w)) (committed (db w))
              (event_seq (db w)) (dedupe w)) as (o' & s' & n' & dd' & Hl').
  fold (begun w) in Hl'. rewrite Hl in Hl'. injection Hl' as _ ->. eauto.
Qed.

(** The last column of a stored row is the payload as it came. *)
Lemma raw_payload_column (id : Z) (ev ua : JsVal) (t : JsNumber) :
  nullish ev = false ->
  assoc "raw_payload" (e_columns (event_row id (event_params ev ua t))) = Some ev.
Proof. intros Hn. simpl. by rewrite (sql_param_id _ Hn). Qed.

(** The batch handler on items that are not [null].  Such an item with a
    hard error, and an item whose fingerprint is in the cache, are skipped:
    the loop goes on with the same count and no table touched.  All event
    INSERTs of a batch belong to one transaction: the request either answers [{ok, ingested}] or answers 500
    with the committed store exactly as before the request.  In particular,
    when the INSERT of an accepted item is rejected after the items before
    it went through, or when the metadata row of the batch is rejected,
    the answer is 500 ([db_error] when ROLLBACK goes through) and nothing of
    the batch is committed.  And with no operation rejected, the batch
    [[A; B; C]] with [A] and [C] valid, of different fingerprints not in the
    cache, and [B] invalid but not [null] is answered [ingested = 2] with
    exactly the rows of [A] and [C] (their raw payloads are [A] and [C])
    added to the events table, and one metadata row. *)
Theorem batch_semantics (e : Env) (req : Request) (w : World) :
  let r := post_events_bulk e req w in
  let failed :=
    status r.1 = 500 /\ committed (db r.2) = committed (db w) /\
    (fault e OpRollback = false ->
     r.1 = {| status := 500; payload := Failure "db_error" |}) in
  (forall i item ok w0,
     nullish item = false -> errs_of item <> [] ->
     bulk_item e i item ok w0 = (Ret ok, w0)) /\
  (forall i item ok w0 ts,
     valid item ->
     evict (clock e (AtDedupe i)) (dedupe w0) !! dedupe_key item = Some ts ->
     bulk_item e i item ok w0 = (Ret ok, swept e i w0)) /\
  ((exists n, r.1 = {| status := 200; payload := Ingested n |}) \/
   (status r.1 = 500 /\ committed (db r.2) = committed (db w))) /\
  (forall pre ev post ok1 w1,
     body req = JArr (pre ++ ev :: post) ->
     fault e OpConnect = false -> fault e OpBegin = false ->
     bulk_loop e 0 pre 0 (begun w) = (Ret ok1, w1) ->
     valid ev ->
     unseen (clock e (AtDedupe (length pre))) ev (dedupe w1) ->
     fault e (OpInsertEvent (length pre)) = true ->
     failed) /\
  (forall ev rest ok w1,
     body req = JArr (ev :: rest) ->
     fault e OpConnect = false -> fault e OpBegin = false ->
     bulk_loop e 0 (ev :: rest) 0 (begun w) = (Ret ok, w1) ->
     (0 < ok)%nat ->
     fault e OpInsertMetadata = true ->
     failed) /\
  (forall A B C,
     body req = JArr [A; B; C] ->
     valid A -> nullish B = false -> errs_of B <> [] -> valid C ->
     dedupe_key A <> dedupe_key C ->
     dedupe w !! dedupe_key A = None ->
     dedupe w !! dedupe_key C = None ->
     no_fault e ->
     r.1 = {| status := 200; payload := Ingested 2 |} /\
     events_of r.2
     = (events_of w ++ [event_row (event_seq (db w) + 1) (bulk_params e 0 A);
                        event_row (event_seq (db w) + 1 + 1) (bulk_params e 2 C)])%list /\
     metadata_of r.2 = (metadata_of w ++ [request_metadata req 0])%list /\
     assoc "raw_payload"
       (e_columns (event_row (event_seq (db w) + 1) (bulk_params e 0 A))) = Some A /\
     assoc "raw_payload"
       (e_columns (event_row (event_seq (db w) + 1 + 1) (bulk_params e 2 C))) = Some C).
Proof.
  intros r failed. split; [|split; [|split; [|split; [|split]]]].
  - intros i item ok w0. apply bulk_item_invalid.
  - intros i item ok w0 ts. apply bulk_item_duplicate.
  - apply bulk_all_or_nothing.
  - intros pre ev post ok1 w1 Hb Fc Fb Hpre Hv Hs Fi.
    destruct (bulk_loop_committed e pre w _ w1 Hpre) as (s1 & n1 & dd1 & ->).
    destruct (bulk_item_insert_rejected e (length pre) ev ok1 (committed (db w))
                s1 n1 dd1 Hv Hs Fi) as (x & w2 & Hit).
    pose proof (bulk_loop_app_throw e pre ev post 0 0 ok1 _ _ w2 x Hpre Hit) as Hl.
    destruct (pre ++ ev :: post)%list as [|ev0 rest] eqn:Hlist.
    { by destruct pre. }
    by apply (bulk_throw_rolls_back e req w w2 ev0 rest x).
  - intros ev rest ok w1 Hb Fc Fb Hl Hok Fm. subst failed r.
    destruct (bulk_loop_committed e (ev :: rest) w _ w1 Hl) as (s1 & n1 & dd1 & ->).
    rewrite (post_events_bulk_run e req w ev rest Hb), Fc.
    unfold run_handler. rewrite bulk_transaction_run, Fb, Hl, Fm.
    assert (Nat.ltb 0 ok = true) as -> by by apply Nat.ltb_lt.
    simpl. unfold rolled_back. by destruct (fault e OpRollback).
  - intros A B C Hb HA HBn HB HC Hne HkA HkC Hf. subst r.
    destruct (bulk_loop_ABC e A B C w) as (s1 & dd1 & _ & _ & E1 & M1 & Hs & Hl);
      try done.
    destruct (bulk_item_stored e 2 C 1 (committed (db w)) s1 (event_seq (db w) + 1) dd1)
      as (s2 & E & E2 & M2); try done.
    rewrite E in Hl.
    split; [|split; [|split; [|split]]];
      [| | |apply raw_payload_column, HA|apply raw_payload_column, HC];
      rewrite (post_events_bulk_run e req w A [B; C] Hb), Hf;
      unfold run_handler; rewrite bulk_transaction_run, !Hf, Hl; simpl;
      [done| |].
    + unfold events_of. simpl. rewrite E2, E1. unfold events_of.
      by rewrite <- app_assoc.
    + unfold metadata_of. simpl. by rewrite M2, M1.
Qed.

(** ** Session pages *)

(** An event for an existing session leaves both pages of the session as
    stored, whatever page the event carries: the ON CONFLICT clause of
    [POST /events] sets [client_id] only. *)
Lemma event_keeps_session_pages (e : Env) (req : Request) (w : World)
    (k : string) (old : SessionRow) :
  let ev := event_of req in
  valid ev ->
  unseen (clock e (AtDedupe 0)) ev (dedupe w) ->
  fault e (OpUpsertUser 0) = false ->
  fault e (OpUpsertSession 0) = false ->
  truthy (get ev "session_id") = true ->
  key_text (get ev "session_id") = Some k ->
  sessions_of w !! k = Some old ->
  exists row,
    sessions_of (post_events e req w).2 !! k = Some row /\
    s_first_page row = s_first_page old /\
    s_last_page row = s_last_page old /\
    s_client_id row = sql_param (get ev "client_id").
Proof.
  intros ev Hv Hs Fu Fs Hsid Hk Hold.
  rewrite post_events_sessions by done. fold ev.
  unfold in_session. rewrite Hsid, Hk. unfold sessions_of at 1. simpl.
  rewrite upserted_lookup. fold (sessions_of w). rewrite Hold.
  eexists. split; [reflexivity|]. done.
Qed.

(** The explicit session upsert keeps a first page that is set and takes
    the incoming last page when there is one. *)
Lemma sessions_upsert_pages (e : Env) (req : Request) (w : World)
    (k : string) (old : SessionRow) :
  let b := event_of req in
  key_text (get b "session_id") = Some k ->
  sessions_of w !! k = Some old ->
  fault e (OpUpsertSession 0) = false ->
  exists row w',
    post_sessions e req w = (Ret {| status := 200; payload := SessionJson row |}, w') /\
    sessions_of w' !! k = Some row /\
    (s_first_page old <> JNull -> s_first_page row = s_first_page old) /\
    s_last_page row = coalesce_spec (jor (get b "last_page") JNull) (s_last_page old).
Proof.
  intros b Hk Hold Hf.
  destruct (post_sessions_existing e req w k old) as (w' & E1 & E2); try done.
  fold b in E1, E2. eexists _, w'. split; [exact E1|]. split; [exact E2|].
  simpl. split.
  - intros Hne. by destruct (s_first_page old).
  - by rewrite <- coalesce_is_spec.
Qed.

(** ** The campaign column *)



Lemma campaign_structured (ev : JsVal) :
  truthy (get ev "campaign") = true -> campaign_of ev = get ev "campaign".
Proof. intros Ht. unfold campaign_of, jor. by rewrite Ht, Ht. Qed.

Lemma campaign_synthesized (ev : JsVal) :
  truthy (get ev "campaign") = false -> campaign_of ev = pick ev legacy_keys.
Proof. intros Ht. unfold campaign_of, jor. by rewrite Ht. Qed.

(** No event has a null campaign: the object [pick] returns is truthy even
    when it is empty, so the [|| null] after it is never taken. *)
Lemma campaign_never_null (ev : JsVal) : truthy (campaign_of ev) = true.
Proof.
  unfold campaign_of, jor.
  destruct (truthy (get ev "campaign")) eqn:Ht; [by rewrite Ht|done].
Qed.

Lemma campaign_column (ev ua : JsVal) (t : JsNumber) :
  assoc "campaign" (event_params ev ua t) = Some (campaign_of ev).
Proof.
  simpl. unfold jor at 1. by rewrite campaign_never_null.
Qed.

(** * Further properties of the handlers *)

(** ** [pick] *)







(** ** [validateEvent] *)

(** X2. [validateEvent] throws exactly on [null] and [undefined].  On any
    other value it reports no hard error exactly when [event_id],
    [event_name] and [client_id] are truthy and, if the name is the string
    ["purchase"], [ecommerce.value] is a number and [ecommerce.currency] a
    string. *)
Theorem validate_accepts_iff (ev : JsVal) :
  (nullish ev = true <-> validateEvent ev = Throw TypeError) /\
  (nullish ev = false ->
   (validateEvent ev = Ret ([], warns_of ev) <->
    truthy (get ev "event_id") = true /\
    truthy (get ev "event_name") = true /\
    truthy (get ev "client_id") = true /\
    (get ev "event_name" = JStr "purchase" ->
     (exists n, ecommerce_value ev = JNum n) /\
     (exists s, ecommerce_currency ev = JStr s)))).
Proof.
  split.
  - unfold validateEvent. destruct (nullish ev); split; done.
  - intros Hn. rewrite (validateEvent_returns _ Hn).
    assert (Hret : Ret (errs_of ev, warns_of ev) = Ret ([], warns_of ev)
                   <-> errs_of ev = []).
    { split; [by intros [= ->]|by intros ->]. }
    rewrite Hret, (errs_of_unfold _ Hn). clear Hret.
    pose proof (typeof_number (ecommerce_value ev)) as Tn.
    pose proof (typeof_string (ecommerce_currency ev)) as Ts.
    unfold ecommerce_value, ecommerce_currency in *.
    assert (Hp : strict_eq_str (get ev "event_name") "purchase" = true
                 <-> get ev "event_name" = JStr "purchase").
    { unfold strict_eq_str. destruct (get ev "event_name"); try (split; done).
      rewrite String.eqb_eq. split; [by intros ->|by intros [= ->]]. }
    unfold push_if.
    destruct (truthy (get ev "event_id")), (truthy (get ev "event_name")),
      (truthy (get ev "client_id")); simpl;
      destruct (strict_eq_str (get ev "event_name") "purchase") eqn:Es; simpl;
      try (split; [intros E; by destruct (_ =? _)%string, (_ =? _)%string
                  |intros (? & ? & ? & _); done]).
    + destruct (String.eqb (typeof _) "number") eqn:En,
        (String.eqb (typeof _) "string") eqn:Est; simpl.
      * split; [|done]. intros _.
        split; [done|]. split; [done|]. split; [done|].
        intros _. split; [by apply Tn|by apply Ts].
      * split; [done|]. intros (_ & _ & _ & Hc).
        destruct (Hc (proj1 Hp eq_refl)) as [_ Hs]. apply Ts in Hs. congruence.
      * split; [done|]. intros (_ & _ & _ & Hc).
        destruct (Hc (proj1 Hp eq_refl)) as [Hv _]. apply Tn in Hv. congruence.
      * split; [done|]. intros (_ & _ & _ & Hc).
        destruct (Hc (proj1 Hp eq_refl)) as [Hv _]. apply Tn in Hv. congruence.
    + split; [|done]. intros _.
      split; [done|]. split; [done|]. split; [done|].
      intros Hpur. apply Hp in Hpur. congruence.
Qed.


(** ** The dedupe cache, continued *)

Lemma append_assoc (a b c : string) : ((a ++ b) ++ c = a ++ (b ++ c))%string.
Proof.
  induction a as [|x a IH]; [done|].
  change (String x ((a ++ b) ++ c) = String x (a ++ b ++ c))%string.
  by f_equal.
Qed.

(** X3. The fingerprint is the text [name:id], so two events with different
    [(event_name, event_id)] pairs share a fingerprint when the colon falls
    elsewhere: name [n:i] with id [j], and name [n] with id [i:j].  The
    second of two such valid events, checked within 60 seconds of the first
    being accepted, is answered [deduped] and not stored. *)
Theorem fingerprint_collision (e1 e2 : Env) (req1 req2 : Request) (w : World)
    (n i j : string) :
  let ev1 := event_of req1 in
  let ev2 := event_of req2 in
  let r1 := post_events e1 req1 w in
  valid ev1 -> valid ev2 ->
  get ev1 "event_name" = JStr (n ++ ":" ++ i) ->
  get ev1 "event_id" = JStr j ->
  get ev2 "event_name" = JStr n ->
  get ev2 "event_id" = JStr (i ++ ":" ++ j) ->
  unseen (clock e1 (AtDedupe 0)) ev1 (dedupe w) ->
  clock e2 (AtDedupe 0) - clock e1 (AtDedupe 0) <= 60000 ->
  dedupe_key ev1 = dedupe_key ev2 /\
  post_events e2 req2 r1.2
  = ({| status := 200; payload := Deduped |}, swept e2 0 r1.2).
Proof.
  intros ev1 ev2 r1 Hv1 Hv2 N1 I1 N2 I2 Hs Hin.
  assert (Hkey : dedupe_key ev1 = dedupe_key ev2).
  { unfold dedupe_key. rewrite N1, I1, N2, I2. simpl.
    by rewrite !append_assoc. }
  split; [done|].
  apply (post_events_deduped e2 req2 r1.2 (clock e1 (AtDedupe 0))); [done| |done].
  subst r1. rewrite post_events_registers by done. fold ev1 ev2.
  unfold registered. simpl. rewrite <- Hkey. by rewrite lookup_insert_eq.
Qed.

(** X4. The window of a fingerprint is fixed, not sliding: it starts when the
    fingerprint is registered and a duplicate check does not restart it.
    After an event is accepted at time [t1], whatever checks follow within
    60 seconds of [t1] (duplicates of the same fingerprint among them) leave
    its entry with time [t1], and a check of the same fingerprint more than
    60 seconds after [t1] is answered [true] and registers the new time. *)
Theorem dedupe_window_is_fixed (e1 e2 : Env) (i1 i2 : nat) (ev1 ev2 : JsVal)
    (w : World) (cs : list (Env * nat * JsVal)) :
  let t1 := clock e1 (AtDedupe i1) in
  let t2 := clock e2 (AtDedupe i2) in
  let w1 := checks cs (shouldStore e1 i1 ev1 w).2 in
  unseen t1 ev1 (dedupe w) ->
  dedupe_key ev2 = dedupe_key ev1 ->
  Forall (in_window t1) cs ->
  dedupe w1 !! dedupe_key ev1 = Some t1 /\
  (t2 - t1 <= 60000 -> (shouldStore e2 i2 ev2 w1).1 = Ret false) /\
  (t2 - t1 > 60000 ->
   (shouldStore e2 i2 ev2 w1).1 = Ret true /\
   dedupe (shouldStore e2 i2 ev2 w1).2 !! dedupe_key ev1 = Some t2).
Proof.
  intros t1 t2 w1 Hs Hkey Hcs.
  assert (Hreg : dedupe w1 !! dedupe_key ev1 = Some t1).
  { subst w1. apply checks_keep; [|done].
    rewrite shouldStore_unseen by done. unfold registered. simpl.
    by rewrite lookup_insert_eq. }
  split; [done|]. split.
  - intros Hin. rewrite shouldStore_answer. f_equal.
    apply bool_decide_eq_false_2. unfold unseen. rewrite Hkey.
    fold t2. rewrite (proj2 (evict_lookup t2 (dedupe w1) _ t1)); done.
  - intros Hout.
    assert (Hun : unseen t2 ev2 (dedupe w1)).
    { unfold unseen. rewrite Hkey. by apply (evict_lookup_expired _ _ _ t1). }
    rewrite shouldStore_unseen by done. split; [done|].
    unfold registered. simpl. rewrite Hkey. by rewrite lookup_insert_eq.
Qed.


(** ** The originating address *)

Lemma before_comma_no_comma (s : string) :
  has_char ","%char (before_comma s) = false.
Proof.
  induction s as [|c s IH]; simpl; [done|].
  destruct (Ascii.eqb c ","%char) eqn:E; simpl; [done|]. by rewrite E.
Qed.

Lemma trim_start_has_char (c : Ascii.ascii) (s : string) :
  has_char c (trim_start s) = true -> has_char c s = true.
Proof.
  induction s as [|c' s IH]; simpl; [done|].
  destruct (is_space c'); simpl; [|done].
  intros Hc. rewrite IH by done. apply orb_true_r.
Qed.

Lemma trim_end_has_char (c : Ascii.ascii) (s : string) :
  has_char c (trim_end s) = true -> has_char c s = true.
Proof.
  induction s as [|c' s IH]; simpl; [done|].
  destruct (trim_end s) as [|c'' r] eqn:E.
  - destruct (is_space c'); simpl; [done|].
    rewrite orb_false_r. intros ->. done.
  - simpl in *. destruct (Ascii.eqb c' c); simpl; [done|]. exact IH.
Qed.

Lemma trim_start_starts (s : string) : starts_with_space (trim_start s) = false.
Proof.
  induction s as [|c s IH]; simpl; [done|].
  destruct (is_space c) eqn:E; simpl; done.
Qed.

Lemma trim_end_starts (s : string) :
  starts_with_space s = false -> starts_with_space (trim_end s) = false.
Proof.
  destruct s as [|c s]; simpl; [done|].
  intros Hc. destruct (trim_end s); simpl; [by rewrite Hc|done].
Qed.

Lemma trim_end_ends (s : string) : ends_with_space (trim_end s) = false.
Proof.
  induction s as [|c s IH]; simpl; [done|].
  destruct (trim_end s) as [|c' r] eqn:E.
  - destruct (is_space c) eqn:Ec; simpl; done.
  - simpl in *. exact IH.
Qed.

Lemma jor_truthy (a b : JsVal) : truthy a = true -> jor a b = a.
Proof. unfold jor. by intros ->. Qed.

Lemma jor_falsy (a b : JsVal) : truthy a = false -> jor a b = b.
Proof. unfold jor. by intros ->. Qed.

(** X5. The address stored with a request is [null] or a non-empty string.
    When the request has an [x-forwarded-for] header whose first
    comma-separated entry is not blank, the address is that entry with the
    white space around it removed: it holds no comma and neither starts nor
    ends with white space.  When the header is missing or its first entry is
    blank, the address is the peer address of the socket, or [null]. *)
Theorem request_ip_shape (req : Request) :
  (request_ip req = JNull \/
   exists a, request_ip req = JStr a /\ a <> "") /\
  (forall s,
     header_lookup "x-forwarded-for" (headers req) = Some s ->
     trim (before_comma s) <> "" ->
     request_ip req = JStr (trim (before_comma s)) /\
     has_char ","%char (trim (before_comma s)) = false /\
     starts_with_space (trim (before_comma s)) = false /\
     ends_with_space (trim (before_comma s)) = false) /\
  ((header_lookup "x-forwarded-for" (headers req) = None \/
    exists s, header_lookup "x-forwarded-for" (headers req) = Some s /\
              trim (before_comma s) = "") ->
   request_ip req = peer_ip req).
Proof.
  assert (Hne : forall a, truthy (JStr a) = true -> a <> "").
  { intros a Ha ->. done. }
  assert (Hpeer : peer_ip req = JNull \/ exists a, peer_ip req = JStr a /\ a <> "").
  { unfold peer_ip, jor. destruct (remoteAddress req) as [a|]; [|by left].
    destruct (truthy (JStr a)) eqn:Ha; [|by left]. right. exists a. auto. }
  assert (Hblank : forall fw, truthy fw = false ->
            (fw = JUndefined \/ exists s, fw = JStr s) ->
            jor (jor fw match remoteAddress req with
                        | Some a => JStr a | None => JUndefined end) JNull
            = peer_ip req).
  { intros fw Hfw _. rewrite (jor_falsy fw) by done. unfold peer_ip.
    by destruct (remoteAddress req) as [a|]. }
  split; [|split].
  - unfold request_ip, header.
    destruct (header_lookup "x-forwarded-for" (headers req)) as [s|].
    + destruct (truthy (JStr (trim (before_comma s)))) eqn:Ht.
      * right. exists (trim (before_comma s)).
        rewrite (jor_truthy (JStr _)) by done. rewrite jor_truthy by done. auto.
      * rewrite Hblank; eauto.
    + rewrite Hblank; eauto.
  - intros s Hs Hnb. split; [|split; [|split]].
    + unfold request_ip, header. rewrite Hs.
      assert (Ht : truthy (JStr (trim (before_comma s))) = true).
      { simpl. destruct (String.eqb_spec (trim (before_comma s)) ""); done. }
      rewrite (jor_truthy (JStr _)) by done. by rewrite jor_truthy.
    + destruct (has_char ","%char (trim (before_comma s))) eqn:E; [|done].
      unfold trim in E. apply trim_end_has_char, trim_start_has_char in E.
      by rewrite before_comma_no_comma in E.
    + unfold trim. apply trim_end_starts, trim_start_starts.
    + unfold trim. apply trim_end_ends.
  - intros [Hn|(s & Hs & Hb)]; unfold request_ip, header.
    + rewrite Hn. apply Hblank; eauto.
    + rewrite Hs, Hb. apply Hblank; eauto.
Qed.


(** ** The columns of a stored event *)

Lemma column_param (c : string) (id : Z) (params : list (string * JsVal)) :
  column c (event_row id params) = sql_param <$> assoc c params.
Proof.
  unfold column, event_row. simpl.
  induction params as [|[k v] params IH]; simpl; [done|].
  destruct (String.eqb k c); [done|]. exact IH.
Qed.

(** X6. The two time columns of a stored event.  [occurred_at] is the date
    of the event's [occurred_at] field when that is truthy, else the date of
    its [timestamp] when that is a non-zero finite number, else the current
    time.  [timestamp] is the event's own [timestamp] unless that is null or
    absent, in which case it is the time value of the stored [occurred_at]:
    an event without [timestamp] always gets two columns that agree, while a
    [timestamp] that is not a non-zero finite number (0, a string) is stored
    as it came next to an [occurred_at] taken from the clock. *)
Theorem time_columns (e : Env) (i : nat) (ev ua : JsVal) (id : Z) :
  let row := event_row id (event_params ev ua (occurredAt e i ev)) in
  let ts := get ev "timestamp" in
  let oc := get ev "occurred_at" in
  column "occurred_at" row = Some (JDate (occurredAt e i ev)) /\
  (truthy oc = true -> occurredAt e i ev = date_value H oc) /\
  (truthy oc = false -> truthy ts = true -> Number_isFinite ts = true ->
   occurredAt e i ev = date_value H ts) /\
  (truthy oc = false -> (truthy ts && Number_isFinite ts)%bool = false ->
   occurredAt e i ev = date_now e (AtOccurred i)) /\
  (nullish ts = true -> column "timestamp" row = Some (JNum (occurredAt e i ev))) /\
  (nullish ts = false -> column "timestamp" row = Some ts).
Proof.
  intros row ts oc. subst row. rewrite !column_param. simpl.
  fold ts oc. unfold occurredAt, toTimestampTz. fold ts oc.
  split; [done|]. split; [by intros ->|]. split; [by intros -> -> ->|].
  split; [by intros -> ->|]. unfold jnullish_or.
  split; intros Hn; rewrite Hn; [done|]. simpl. by rewrite sql_param_id.
Qed.

(** X7. The [user_agent] column.  The single-event handler stores the
    event's own [user_agent] when truthy, else the request's [user-agent]
    header when present and not empty, else NULL.  The batch handler stores
    the event's own [user_agent] or NULL and never looks at the header. *)
Theorem user_agent_column (e : Env) (req : Request) (i : nat) (ev : JsVal) (id : Z) :
  let single := column "user_agent" (event_row id (single_params e req ev)) in
  let batch := column "user_agent" (event_row id (bulk_params e i ev)) in
  (truthy (get ev "user_agent") = true ->
   single = Some (get ev "user_agent") /\ batch = Some (get ev "user_agent")) /\
  (truthy (get ev "user_agent") = false ->
   batch = Some JNull /\
   (forall u, header_lookup "user-agent" (headers req) = Some u -> u <> "" ->
              single = Some (JStr u)) /\
   (header_lookup "user-agent" (headers req) = None \/
    header_lookup "user-agent" (headers req) = Some "" ->
    single = Some JNull)).
Proof.
  intros single batch. subst single batch.
  unfold single_params, bulk_params. rewrite !column_param.
  assert (Hua : forall ua t, sql_param <$> assoc "user_agent" (event_params ev ua t)
                             = Some (sql_param ua)) by done.
  rewrite !Hua. clear Hua.
  split.
  - intros Ht. rewrite !(jor_truthy (get ev "user_agent")) by done.
    by rewrite sql_param_id by by apply truthy_not_nullish.
  - intros Hf. rewrite !(jor_falsy (get ev "user_agent")) by done.
    split; [done|]. unfold header. split.
    + intros u -> Hu.
      assert (Ht : truthy (JStr u) = true).
      { simpl. by destruct (String.eqb_spec u ""). }
      by rewrite jor_truthy.
    + intros [->| ->]; done.
Qed.

(** X8. Guards on the stored columns.  [bot_score] is always a finite
    number (0 when the event gives none); [timezone_offset] is a finite
    number or NULL; [referrer_chain] is an array or NULL; and each column
    filled by [ev.c || null] is NULL or a truthy value, so an empty string,
    a zero or [false] in such a field is stored as NULL. *)
Theorem stored_columns_guarded (ev ua : JsVal) (t : JsNumber) (id : Z) :
  let row := event_row id (event_params ev ua t) in
  (exists v, column "bot_score" row = Some v /\ Number_isFinite v = true) /\
  (exists v, column "timezone_offset" row = Some v /\
             (v = JNull \/ Number_isFinite v = true)) /\
  (exists v, column "referrer_chain" row = Some v /\
             (v = JNull \/ Array_isArray v = true)) /\
  (forall c, In c or_null_columns ->
     exists v, column c row = Some v /\ (v = JNull \/ truthy v = true)).
Proof.
  intros row. subst row.
  assert (Hor : forall v, exists v', sql_param (jor v JNull) = v' /\
                                     (v' = JNull \/ truthy v' = true)).
  { intros v. rewrite sql_param_or_null. eexists. split; [done|].
    unfold jor. destruct (truthy v) eqn:E; auto. }
  split; [|split; [|split]].
  - rewrite column_param. simpl.
    destruct (Number_isFinite (get ev "bot_score")) eqn:E.
    + eexists. split; [done|].
      rewrite sql_param_id; [done|]. by destruct (get ev "bot_score").
    + eexists. split; [done|]. done.
  - rewrite column_param. simpl.
    destruct (Number_isFinite (get ev "timezone_offset")) eqn:E.
    + eexists. split; [done|]. right.
      rewrite sql_param_id; [done|]. by destruct (get ev "timezone_offset").
    + eexists. split; [done|]. by left.
  - rewrite column_param. simpl.
    destruct (Array_isArray (get ev "referrer_chain")) eqn:E.
    + eexists. split; [done|]. right.
      rewrite sql_param_id; [done|]. by destruct (get ev "referrer_chain").
    + eexists. split; [done|]. by left.
  - intros c Hc. rewrite column_param.
    unfold or_null_columns in Hc. simpl in Hc.
    repeat (destruct Hc as [<-|Hc];
            [simpl; match goal with
                    | |- context [sql_param (jor ?v JNull)] =>
                        destruct (Hor v) as (v' & -> & Hv'); by exists v'
                    end|]).
    done.
Qed.


(** ** What a request can do to the store *)

Lemma keeps_identity_refl (r : UserRow) : keeps_identity r r.
Proof. by repeat split. Qed.

Lemma keeps_identity_trans (a b c : UserRow) :
  keeps_identity a b -> keeps_identity b c -> keeps_identity a c.
Proof.
  intros (A1 & A2 & A3 & A4) (B1 & B2 & B3 & B4).
  split; [congruence|]. repeat split; auto.
Qed.

Lemma keeps_first_page_refl (r : SessionRow) : keeps_first_page r r.
Proof. by repeat split. Qed.

Lemma keeps_first_page_trans (a b c : SessionRow) :
  keeps_first_page a b -> keeps_first_page b c -> keeps_first_page a c.
Proof.
  intros (A1 & A2 & A3) (B1 & B2 & B3).
  split; [congruence|]. split; [congruence|].
  intros Hne. rewrite B3; [by apply A3|]. rewrite A3; done.
Qed.

Lemma linked_mono (s s' : Store) (m : MetadataRow) (new : list EventRow) :
  pixel_events s' = (pixel_events s ++ new)%list -> linked s m -> linked s' m.
Proof.
  intros He [Hg Hl]. split; [done|].
  destruct Hl as [Hz|(r & Hr & Hid)]; [by left|].
  right. exists r. split; [|done]. rewrite He. apply in_or_app. by left.
Qed.

Lemma grows_refl (s : Store) : grows s s.
Proof.
  repeat split.
  - exists []. by rewrite app_nil_r.
  - exists []. by rewrite app_nil_r.
  - intros k old Hk. exists old. split; [done|apply keeps_identity_refl].
  - intros k old Hk. exists old. split; [done|apply keeps_first_page_refl].
Qed.

Lemma grows_trans (a b c : Store) : grows a b -> grows b c -> grows a c.
Proof.
  intros ((e1 & E1 & V1) & (m1 & M1 & L1) & U1 & S1)
         ((e2 & E2 & V2) & (m2 & M2 & L2) & U2 & S2).
  repeat split.
  - exists (e1 ++ e2)%list. rewrite E2, E1, <- app_assoc. split; [done|].
    apply Forall_app. done.
  - exists (m1 ++ m2)%list. rewrite M2, M1, <- app_assoc. split; [done|].
    apply Forall_app. split; [|done].
    eapply Forall_impl; [exact L1|]. intros m. by apply (linked_mono b c m e2).
  - intros k old Hk. destruct (U1 k old Hk) as (r1 & Hr1 & K1).
    destruct (U2 k r1 Hr1) as (r2 & Hr2 & K2).
    exists r2. split; [done|]. by apply (keeps_identity_trans old r1 r2).
  - intros k old Hk. destruct (S1 k old Hk) as (r1 & Hr1 & K1).
    destruct (S2 k r1 Hr1) as (r2 & Hr2 & K2).
    exists r2. split; [done|]. by apply (keeps_first_page_trans old r1 r2).
Qed.

Lemma coalesce_keeps (x old : JsVal) : old <> JNull -> COALESCE x old <> JNull.
Proof. by destruct x. Qed.

(** An upsert of a user row, with any of the three SET clauses. *)
Lemma grows_upsert_user (s : Store) (k : string) (x : UserRow)
    (merge : UserRow -> UserRow -> UserRow) :
  (forall old, keeps_identity old (merge x old)) ->
  grows s (set_users (upserted k x (merge x) (pixel_users s)) s).
Proof.
  intros Hm. repeat split; simpl.
  - exists []. by rewrite app_nil_r.
  - exists []. by rewrite app_nil_r.
  - intros k' old Hk. destruct (decide (k = k')) as [<-|Hne].
    + rewrite upserted_lookup, Hk. eauto.
    + unfold upserted. rewrite lookup_insert_ne by done.
      exists old. split; [done|apply keeps_identity_refl].
  - intros k' old Hk. exists old. split; [done|apply keeps_first_page_refl].
Qed.

Lemma grows_upsert_session (s : Store) (k : string) (x : SessionRow)
    (merge : SessionRow -> SessionRow -> SessionRow) :
  (forall old, keeps_first_page old (merge x old)) ->
  grows s (set_sessions (upserted k x (merge x) (pixel_sessions s)) s).
Proof.
  intros Hm. repeat split; simpl.
  - exists []. by rewrite app_nil_r.
  - exists []. by rewrite app_nil_r.
  - intros k' old Hk. exists old. split; [done|apply keeps_identity_refl].
  - intros k' old Hk. destruct (decide (k = k')) as [<-|Hne].
    + rewrite upserted_lookup, Hk. eauto.
    + unfold upserted. rewrite lookup_insert_ne by done.
      exists old. split; [done|apply keeps_first_page_refl].
Qed.

Lemma merge_user_event_keeps (x old : UserRow) :
  keeps_identity old (merge_user_event x old).
Proof. repeat split; simpl; try done; apply coalesce_keeps. Qed.

Lemma merge_user_full_keeps (x old : UserRow) :
  keeps_identity old (merge_user_full x old).
Proof. repeat split; simpl; try done; apply coalesce_keeps. Qed.

Lemma merge_user_minimal_keeps (x old : UserRow) :
  keeps_identity old (merge_user_minimal x old).
Proof. by repeat split. Qed.

Lemma merge_session_event_keeps (x old : SessionRow) :
  keeps_first_page old (merge_session_event x old).
Proof. by repeat split. Qed.

Lemma merge_session_full_keeps (x old : SessionRow) :
  keeps_first_page old (merge_session_full x old).
Proof.
  repeat split; simpl; try done. intros Hne. by destruct (s_first_page old).
Qed.

Lemma grows_add_event (s : Store) (r : EventRow) :
  validated_row r -> grows s (add_event r s).
Proof.
  intros Hr. repeat split; simpl.
  - exists [r]. split; [done|]. by constructor.
  - exists []. by rewrite app_nil_r.
  - intros k old Hk. exists old. split; [done|apply keeps_identity_refl].
  - intros k old Hk. exists old. split; [done|apply keeps_first_page_refl].
Qed.

Lemma grows_add_metadata (s : Store) (m : MetadataRow) :
  linked s m -> grows s (add_metadata m s).
Proof.
  intros Hm. repeat split; simpl.
  - exists []. by rewrite app_nil_r.
  - exists [m]. split; [done|]. constructor; [|done]. exact Hm.
  - intros k old Hk. exists old. split; [done|apply keeps_identity_refl].
  - intros k old Hk. exists old. split; [done|apply keeps_first_page_refl].
Qed.

Lemma upsert_user_none (c : Conn) (merge : UserRow -> UserRow -> UserRow)
    (p : UserRow) (d : Database) :
  key_text (u_client_id p) = None -> upsert_user c merge p d = None.
Proof.
  intros Hk. unfold upsert_user, upsert_row. simpl.
  by rewrite key_text_param, Hk.
Qed.

Lemma upsert_session_none (c : Conn)
    (merge : SessionRow -> SessionRow -> SessionRow)
    (p : SessionRow) (d : Database) :
  key_text (s_session_id p) = None -> upsert_session c merge p d = None.
Proof.
  intros Hk. unfold upsert_session, upsert_row. simpl.
  by rewrite key_text_param, Hk.
Qed.

(** What an upsert does to the store of its connection: one table is
    replaced by the table after the upsert. *)
Lemma upsert_user_effect (c : Conn) (merge : UserRow -> UserRow -> UserRow)
    (p : UserRow) (d : Database) :
  match upsert_user c merge p d with
  | Some (_, d') =>
      exists k,
        d' = write c (set_users (upserted k (bind_user p) (merge (bind_user p))
                                   (pixel_users (view c d))) (view c d)) d
  | None => True
  end.
Proof.
  destruct (key_text (u_client_id p)) as [k|] eqn:Hk.
  - destruct (upsert_user_run c merge p d k Hk) as [row ->]. by exists k.
  - by rewrite upsert_user_none.
Qed.

Lemma upsert_session_effect (c : Conn)
    (merge : SessionRow -> SessionRow -> SessionRow)
    (p : SessionRow) (d : Database) :
  match upsert_session c merge p d with
  | Some (_, d') =>
      exists k,
        d' = write c (set_sessions (upserted k (bind_session p) (merge (bind_session p))
                                      (pixel_sessions (view c d))) (view c d)) d
  | None => True
  end.
Proof.
  destruct (key_text (s_session_id p)) as [k|] eqn:Hk.
  - destruct (upsert_session_run c merge p d k Hk) as [row ->]. by exists k.
  - by rewrite upsert_session_none.
Qed.

Lemma rolled_back_committed (e : Env) (w : World) :
  committed (db (rolled_back e w).2) = committed (db w).
Proof. unfold rolled_back. by destruct (fault e OpRollback). Qed.

(** ** Relations between stores that the handlers keep *)

Section Invariant.

(** A reflexive and transitive relation [R] between a store and a later
    one.  Each kind of write is assumed to keep [R] only where a lemma needs
    it. *)
Variable R : Store -> Store -> Prop.
Hypothesis R_refl : forall s, R s s.
Hypothesis R_trans : forall a b c, R a b -> R b c -> R a c.

Hypothesis R_add_event : forall s r, validated_row r -> R s (add_event r s).
Hypothesis R_add_metadata : forall s m, linked s m -> R s (add_metadata m s).

(** *** Statements and handler pieces inside a transaction *)

Lemma tx_keeps_upsert_user (merge : UserRow -> UserRow -> UserRow) (p : UserRow) :
  user_merge_ok R merge -> tx_keeps R (upsert_user Client merge p).
Proof.
  intros Hm c0 s n a d' Hst.
  pose proof (upsert_user_effect Client merge p
                {| committed := c0; in_tx := Some s; event_seq := n |}) as E.
  rewrite Hst in E. destruct E as (k & ->). eexists _, n. split; [reflexivity|].
  apply Hm.
Qed.

Lemma tx_keeps_upsert_session (merge : SessionRow -> SessionRow -> SessionRow)
    (p : SessionRow) :
  session_merge_ok R merge -> tx_keeps R (upsert_session Client merge p).
Proof.
  intros Hm c0 s n a d' Hst.
  pose proof (upsert_session_effect Client merge p
                {| committed := c0; in_tx := Some s; event_seq := n |}) as E.
  rewrite Hst in E. destruct E as (k & ->). eexists _, n. split; [reflexivity|].
  apply Hm.
Qed.

Lemma tx_keeps_insert_event (ev ua : JsVal) (t : JsNumber) :
  valid ev -> tx_keeps R (insert_event Client (event_params ev ua t)).
Proof.
  intros Hv c0 s n a d' [= <- <-]. eexists _, _. split; [reflexivity|].
  apply R_add_event. by eexists _, ev, ua, t.
Qed.

Lemma tx_safe_ret {A : Type} (a : A) : tx_safe R (ret a).
Proof. intros c0 s n dd. eexists _, s, n, dd. split; [done|apply R_refl]. Qed.

Lemma tx_safe_lift_bind {A B : Type} (o : Outcome A) (k : A -> M B) :
  (forall a, o = Ret a -> tx_safe R (k a)) -> tx_safe R (bind (lift o) k).
Proof.
  intros Hk c0 s n dd. rewrite bind_eq. unfold lift.
  destruct o as [a|x].
  - by apply Hk.
  - eexists _, s, n, dd. split; [done|apply R_refl].
Qed.

Lemma tx_safe_bind {A B : Type} (m : M A) (k : A -> M B) :
  tx_safe R m -> (forall a, tx_safe R (k a)) -> tx_safe R (bind m k).
Proof.
  intros Hm Hk c0 s n dd. rewrite bind_eq.
  destruct (Hm c0 s n dd) as (o & s1 & n1 & dd1 & -> & G1).
  destruct o as [a|x].
  - destruct (Hk a c0 s1 n1 dd1) as (o2 & s2 & n2 & dd2 & -> & G2).
    eexists _, s2, n2, dd2. split; [done|]. by apply (R_trans s s1 s2).
  - by eexists _, s1, n1, dd1.
Qed.

Lemma tx_safe_query {A : Type} (e : Env) (op : Op) (stmt : Statement A) :
  tx_keeps R stmt -> tx_safe R (query e op stmt).
Proof.
  intros Hst c0 s n dd. unfold query.
  destruct (fault e op).
  { eexists _, s, n, dd. split; [done|apply R_refl]. }
  simpl.
  destruct (stmt {| committed := c0; in_tx := Some s; event_seq := n |})
    as [[a d']|] eqn:E.
  - destruct (Hst c0 s n a d' E) as (s' & n' & -> & G).
    by eexists _, s', n', dd.
  - eexists _, s, n, dd. split; [done|apply R_refl].
Qed.

Lemma tx_safe_when (c : bool) (m : M unit) : tx_safe R m -> tx_safe R (when c m).
Proof. intros Hm. destruct c; [done|apply tx_safe_ret]. Qed.

Lemma tx_safe_shouldStore (e : Env) (i : nat) (ev : JsVal) :
  tx_safe R (shouldStore e i ev).
Proof.
  intros c0 s n dd. unfold shouldStore. simpl.
  destruct (evict _ dd !! dedupe_key ev).
  - eexists _, s, n, _. split; [done|apply R_refl].
  - eexists _, s, n, _. split; [done|apply R_refl].
Qed.

Lemma tx_safe_bulk_item (e : Env) (i : nat) (ev : JsVal) (ok : nat) :
  user_merge_ok R merge_user_minimal -> session_merge_ok R merge_session_event ->
  tx_safe R (bulk_item e i ev ok).
Proof.
  intros Hu Hs.
  unfold bulk_item. apply tx_safe_lift_bind. intros [errs warns] Hval. simpl.
  destruct (negb (Nat.eqb (length errs) 0)) eqn:He; [apply tx_safe_ret|].
  assert (Hv : valid ev).
  { unfold valid, errs_of. rewrite Hval. split.
    - unfold validateEvent in Hval. by destruct (nullish ev).
    - by destruct errs. }
  apply tx_safe_bind; [apply tx_safe_shouldStore|]. intros store.
  destruct (negb store); [apply tx_safe_ret|].
  apply tx_safe_bind.
  { apply tx_safe_when, tx_safe_bind; [|intros; apply tx_safe_ret].
    by apply tx_safe_query, tx_keeps_upsert_user. }
  intros _. apply tx_safe_bind.
  { apply tx_safe_when, tx_safe_bind; [|intros; apply tx_safe_ret].
    by apply tx_safe_query, tx_keeps_upsert_session. }
  intros _. apply tx_safe_bind; [|intros; apply tx_safe_ret].
  apply tx_safe_query. unfold bulk_params. by apply tx_keeps_insert_event.
Qed.

Lemma tx_safe_bulk_loop (e : Env) (events : list JsVal) (i ok : nat) :
  user_merge_ok R merge_user_minimal -> session_merge_ok R merge_session_event ->
  tx_safe R (bulk_loop e i events ok).
Proof.
  intros Hu Hs. revert i ok. induction events as [|ev rest IH]; intros i ok; simpl.
  - apply tx_safe_ret.
  - apply tx_safe_bind; [by apply tx_safe_bulk_item|]. intros ok'. apply IH.
Qed.

(** *** The four handlers on the committed store *)

Lemma post_users_keeps (e : Env) (req : Request) (w : World) :
  user_merge_ok R merge_user_full ->
  R (committed (db w)) (committed (db (post_users e req w).2)).
Proof.
  intros Hm. unfold post_users. rewrite bind_eq. unfold query.
  destruct (fault e (OpUpsertUser 0)); [apply R_refl|].
  pose proof (upsert_user_effect Pool merge_user_full
                (users_params e (jor (body req) (JObj []))) (db w)) as E.
  destruct (upsert_user Pool merge_user_full _ (db w)) as [[row d']|];
    [|apply R_refl].
  destruct E as (k & ->). apply Hm.
Qed.

Lemma post_sessions_keeps (e : Env) (req : Request) (w : World) :
  session_merge_ok R merge_session_full ->
  R (committed (db w)) (committed (db (post_sessions e req w).2)).
Proof.
  intros Hm. unfold post_sessions. rewrite bind_eq. unfold query.
  destruct (fault e (OpUpsertSession 0)); [apply R_refl|].
  pose proof (upsert_session_effect Pool merge_session_full
                (sessions_params e (jor (body req) (JObj []))) (db w)) as E.
  destruct (upsert_session Pool merge_session_full _ (db w)) as [[row d']|];
    [|apply R_refl].
  destruct E as (k & ->). apply Hm.
Qed.

Lemma identified_keeps (e : Env) (ev : JsVal) (w : World) :
  user_merge_ok R merge_user_event ->
  R (committed (db w)) (committed (db (identified e ev w))).
Proof.
  intros Hm. unfold identified. destruct (key_text _); [|apply R_refl]. apply Hm.
Qed.

Lemma in_session_keeps (e : Env) (ev : JsVal) (w : World) :
  session_merge_ok R merge_session_event ->
  R (committed (db w)) (committed (db (in_session e ev w))).
Proof.
  intros Hm. unfold in_session. destruct (truthy _); [|apply R_refl].
  destruct (key_text _); [|apply R_refl]. apply Hm.
Qed.

Lemma write_event_keeps (e : Env) (req : Request) (ev : JsVal)
    (warns : list string) (w : World) :
  valid ev ->
  R (committed (db w)) (committed (db (write_event e req ev warns w).2)).
Proof.
  intros Hv. rewrite write_event_run.
  destruct (fault e OpConnect); [apply R_refl|].
  destruct (_ || _)%bool.
  { rewrite rolled_back_committed. apply R_refl. }
  destruct (_ || _)%bool.
  { rewrite rolled_back_committed. apply R_refl. }
  cbv zeta. cbn [snd db committed].
  eapply R_trans.
  - apply R_add_event. by eexists _, ev, _, _.
  - apply R_add_metadata. split; [done|]. right.
    exists (event_row (event_seq (db w) + 1) (single_params e req ev)).
    split; [|done]. cbn [add_event pixel_events]. apply in_or_app. right. by left.
Qed.

Lemma post_events_keeps (e : Env) (req : Request) (w : World) :
  user_merge_ok R merge_user_event -> session_merge_ok R merge_session_event ->
  R (committed (db w)) (committed (db (post_events e req w).2)).
Proof.
  intros Hu Hss.
  destruct (decide (errs_of (event_of req) = [])) as [He|He].
  2:{ rewrite post_events_invalid by done. apply R_refl. }
  assert (Hv : valid (event_of req)) by (split; [apply event_of_not_nullish|done]).
  destruct (evict (clock e (AtDedupe 0)) (dedupe w) !! dedupe_key (event_of req))
    as [ts|] eqn:Hs.
  { rewrite (post_events_duplicate e req w ts) by done. apply R_refl. }
  rewrite post_events_accepted_run by done. cbv zeta.
  destruct (fault e (OpUpsertUser 0)); [apply R_refl|].
  destruct (_ && _)%bool.
  { by apply (identified_keeps e (event_of req) (registered e 0 (event_of req) w)). }
  eapply R_trans;
    [by apply (identified_keeps e (event_of req) (registered e 0 (event_of req) w))|].
  eapply R_trans; [by apply in_session_keeps|].
  unfold run_handler.
  pose proof (write_event_keeps e req (event_of req) (warns_of (event_of req))
                (in_session e (event_of req)
                   (identified e (event_of req) (registered e 0 (event_of req) w))) Hv) as G.
  by destruct (write_event e req _ _ _) as [[r|x] w'].
Qed.

Lemma post_events_bulk_keeps (e : Env) (req : Request) (w : World) :
  user_merge_ok R merge_user_minimal -> session_merge_ok R merge_session_event ->
  R (committed (db w)) (committed (db (post_events_bulk e req w).2)).
Proof.
  intros Hu Hss.
  destruct (body req) as [| | | | |[|ev rest]| |] eqn:Hb;
    try (unfold post_events_bulk, run_handler, post_events_bulk_body;
         rewrite Hb; apply R_refl).
  rewrite (post_events_bulk_run e req w ev rest Hb).
  destruct (fault e OpConnect); [apply R_refl|].
  unfold run_handler. rewrite bulk_transaction_run.
  assert (Hrb : forall w1, committed (db w1) = committed (db w) ->
            R (committed (db w))
              (committed (db (let (o, w') := rolled_back e w1 in
                              match o with
                              | Ret r => (r, w')
                              | Throw _ => (server_error, w')
                              end).2))).
  { intros w1 Hc. unfold rolled_back.
    destruct (fault e OpRollback); simpl; rewrite Hc; apply R_refl. }
  destruct (fault e OpBegin); [by apply Hrb|].
  destruct (tx_safe_bulk_loop e (ev :: rest) 0 0 Hu Hss (committed (db w))
              (committed (db w)) (event_seq (db w)) (dedupe w))
    as (o & s' & n' & dd' & Hl & G).
  fold (begun w) in Hl. rewrite Hl.
  destruct o as [ok|x]; [|by apply Hrb].
  destruct (Nat.ltb 0 ok && fault e OpInsertMetadata)%bool; [by apply Hrb|].
  destruct (fault e OpCommit).
  { apply Hrb. by destruct (Nat.ltb 0 ok). }
  destruct (Nat.ltb 0 ok); simpl; [|done].
  eapply R_trans; [exact G|].
  apply R_add_metadata. split; [done|by left].
Qed.

(** A request that is not a [POST /sessions] keeps [R] when the three user
    upserts and the session upsert of the events do. *)
Lemma after_keeps (c : Call) (w : World) :
  user_merge_ok R merge_user_event -> user_merge_ok R merge_user_minimal ->
  user_merge_ok R merge_user_full -> session_merge_ok R merge_session_event ->
  no_session_upsert c ->
  R (committed (db w)) (committed (db (after c w))).
Proof.
  intros Hue Hum Huf Hse Hc. destruct c; simpl.
  - by apply post_events_keeps.
  - by apply post_events_bulk_keeps.
  - by apply post_users_keeps.
  - done.
Qed.

Lemma after_all_keeps (cs : list Call) (w : World) :
  (forall c w, In c cs -> R (committed (db w)) (committed (db (after c w)))) ->
  R (committed (db w)) (committed (db (after_all cs w))).
Proof.
  revert w. induction cs as [|c cs IH]; intros w Hstep; simpl.
  - apply R_refl.
  - eapply R_trans; [apply Hstep; by left|].
    apply IH. intros c' w' Hin. apply Hstep. by right.
Qed.

End Invariant.

(** ** The store only grows *)

Lemma after_grows (c : Call) (w : World) :
  grows (committed (db w)) (committed (db (after c w))).
Proof.
  assert (Hue : user_merge_ok grows merge_user_event)
    by (intros s k x; apply grows_upsert_user, merge_user_event_keeps).
  assert (Hum : user_merge_ok grows merge_user_minimal)
    by (intros s k x; apply grows_upsert_user, merge_user_minimal_keeps).
  assert (Huf : user_merge_ok grows merge_user_full)
    by (intros s k x; apply grows_upsert_user, merge_user_full_keeps).
  assert (Hse : session_merge_ok grows merge_session_event)
    by (intros s k x; apply grows_upsert_session, merge_session_event_keeps).
  assert (Hsf : session_merge_ok grows merge_session_full)
    by (intros s k x; apply grows_upsert_session, merge_session_full_keeps).
  destruct c.
  - apply (after_keeps grows grows_refl grows_trans grows_add_event
             grows_add_metadata (PostEvents e req) w Hue Hum Huf Hse I).
  - apply (after_keeps grows grows_refl grows_trans grows_add_event
             grows_add_metadata (PostEventsBulk e req) w Hue Hum Huf Hse I).
  - apply (after_keeps grows grows_refl grows_trans grows_add_event
             grows_add_metadata (PostUsers e req) w Hue Hum Huf Hse I).
  - by apply (post_sessions_keeps grows grows_refl).
Qed.

Lemma after_all_grows (cs : list Call) (w : World) :
  grows (committed (db w)) (committed (db (after_all cs w))).
Proof.
  apply (after_all_keeps grows grows_refl grows_trans). intros c w' _.
  apply after_grows.
Qed.

Lemma validated_row_required (r : EventRow) (c : string) :
  validated_row r ->
  In c ["event_id"; "event_name"; "client_id"] ->
  exists v, column c r = Some v /\ truthy v = true.
Proof.
  intros (id & ev & ua & t & -> & Hv) Hc.
  destruct (valid_required _ Hv) as (Hi & Hn & Hk).
  rewrite column_param.
  destruct Hc as [<-|[<-|[<-|[]]]].
  - exists (get ev "event_id"). split; [|done].
    change (Some (sql_param (get ev "event_id")) = Some (get ev "event_id")).
    by rewrite (sql_param_id _ (truthy_not_nullish _ Hi)).
  - exists (get ev "event_name"). split; [|done].
    change (Some (sql_param (get ev "event_name")) = Some (get ev "event_name")).
    by rewrite (sql_param_id _ (truthy_not_nullish _ Hn)).
  - exists (get ev "client_id"). split; [|done].
    change (Some (sql_param (get ev "client_id")) = Some (get ev "client_id")).
    by rewrite (sql_param_id _ (truthy_not_nullish _ Hk)).
Qed.

(** X9. The events table is append-only and holds validated events only.
    Whatever sequence of [POST /events], [POST /events/bulk], [POST /users]
    and [POST /sessions] requests is served, and whichever of their database
    operations are rejected, the committed events table afterwards is the
    table before followed by new rows: no row is removed, changed or
    reordered.  Every new row was written for an event that passes
    validation, and its [event_id], [event_name] and [client_id] columns hold
    values JavaScript takes for true (so none is NULL or empty). *)
Theorem events_append_only (cs : list Call) (w : World) :
  exists new,
    events_of (after_all cs w) = (events_of w ++ new)%list /\
    Forall (fun r =>
              validated_row r /\
              forall c, In c ["event_id"; "event_name"; "client_id"] ->
                        exists v, column c r = Some v /\ truthy v = true) new.
Proof.
  destruct (after_all_grows cs w) as ((new & Hn & Hf) & _).
  exists new. split; [exact Hn|].
  eapply Forall_impl; [exact Hf|]. intros r Hr. split; [exact Hr|].
  intros c Hc. by apply validated_row_required.
Qed.

(** X10. The metadata table is append-only, and a metadata row never
    dangles.  After any sequence of the four writing requests the committed
    metadata table is the table before followed by new rows; each new row
    has a NULL [geo_location] and its [pixel_event_id] is either 0 (the row
    of a batch) or the id of a row of the committed events table. *)
Theorem metadata_append_only_linked (cs : list Call) (w : World) :
  exists new,
    metadata_of (after_all cs w) = (metadata_of w ++ new)%list /\
    Forall (fun m =>
              m_geo_location m = JNull /\
              (m_pixel_event_id m = 0 \/
               exists r, In r (events_of (after_all cs w)) /\
                         e_id r = m_pixel_event_id m)) new.
Proof.
  destruct (after_all_grows cs w) as (_ & (new & Hn & Hf) & _).
  exists new. split; [exact Hn|exact Hf].
Qed.

(** X11. A user row is never deleted and a resolved identity is never
    erased.  If client [k] has a row in the committed users table, then after
    any sequence of the four writing requests, with any operations rejected,
    [k] still has a row, with the same [client_id]; and each of [user_id],
    [email_sha256], [phone_sha256] that was not NULL before is not NULL
    afterwards (it may have been replaced by another value). *)
Theorem identity_never_erased (cs : list Call) (w : World) (k : string)
    (old : UserRow) :
  users_of w !! k = Some old ->
  exists row,
    users_of (after_all cs w) !! k = Some row /\
    u_client_id row = u_client_id old /\
    (u_user_id old <> JNull -> u_user_id row <> JNull) /\
    (u_email_sha256 old <> JNull -> u_email_sha256 row <> JNull) /\
    (u_phone_sha256 old <> JNull -> u_phone_sha256 row <> JNull).
Proof.
  intros Hk. destruct (after_all_grows cs w) as (_ & _ & Hu & _).
  destruct (Hu k old Hk) as (row & Hr & Hkeep). by exists row.
Qed.

(** X12. A session keeps its origin.  If session [k] has a row in the
    committed sessions table, then after any sequence of the four writing
    requests [k] still has a row with the same [session_id] and the same
    [started_at]; and a [first_page] that was not NULL is unchanged.  (Only
    a NULL first page can still be filled in.) *)
Theorem session_origin_fixed (cs : list Call) (w : World) (k : string)
    (old : SessionRow) :
  sessions_of w !! k = Some old ->
  exists row,
    sessions_of (after_all cs w) !! k = Some row /\
    s_session_id row = s_session_id old /\
    s_started_at row = s_started_at old /\
    (s_first_page old <> JNull -> s_first_page row = s_first_page old).
Proof.
  intros Hk. destruct (after_all_grows cs w) as (_ & _ & _ & Hs).
  destruct (Hs k old Hk) as (row & Hr & Hkeep). by exists row.
Qed.


(** ** The batch: what a returned count means *)

Lemma bulk_item_returns (e : Env) (i : nat) (ev : JsVal) (ok : nat)
    (c0 s : Store) (n : Z) (dd : gmap string Z) (ok' : nat) (w' : World) :
  bulk_item e i ev ok (in_transaction c0 s n dd) = (Ret ok', w') ->
  (ok' = ok /\ exists dd', w' = in_transaction c0 s n dd') \/
  (ok' = S ok /\ valid ev /\
   exists s' dd',
     w' = in_transaction c0 s' (n + 1) dd' /\
     pixel_events s' = (pixel_events s ++ [event_row (n + 1) (bulk_params e i ev)])%list /\
     pixel_metadata s' = pixel_metadata s).
Proof.
  destruct (nullish ev) eqn:Hn.
  { unfold bulk_item, bind, lift, validateEvent. rewrite Hn. discriminate. }
  destruct (decide (errs_of ev = [])) as [He|He].
  2:{ rewrite bulk_item_invalid by done. intros [= <- <-]. left. eauto. }
  assert (Hv : valid ev) by done.
  destruct (evict (clock e (AtDedupe i)) dd !! dedupe_key ev) as [ts|] eqn:Hs.
  { rewrite (bulk_item_duplicate e i ev ok _ ts) by done.
    intros [= <- <-]. left. split; [done|]. by eexists. }
  rewrite bulk_item_accepted by done.
  destruct (valid_required _ Hv) as (_ & _ & Hc).
  pose proof (bulk_store_run e i ev ok c0 s n
                (<[dedupe_key ev := clock e (AtDedupe i)]> (evict (clock e (AtDedupe i)) dd))
                Hc) as R.
  simpl in R. unfold registered. simpl.
  fold (in_transaction c0 s n
          (<[dedupe_key ev := clock e (AtDedupe i)]> (evict (clock e (AtDedupe i)) dd))).
  destruct (_ || _ || _)%bool.
  - destruct R as (x & s' & ->). discriminate.
  - destruct R as (s' & -> & E & M). intros [= <- <-]. right.
    split; [done|]. split; [done|]. by eexists s', _.
Qed.

Lemma bulk_loop_returns (e : Env) (events : list JsVal) (i ok : nat)
    (c0 s : Store) (n : Z) (dd : gmap string Z) (ok' : nat) (w' : World) :
  bulk_loop e i events ok (in_transaction c0 s n dd) = (Ret ok', w') ->
  exists new s' dd',
    w' = in_transaction c0 s' (n + Z.of_nat (length new)) dd' /\
    ok' = (ok + length new)%nat /\
    pixel_events s' = (pixel_events s ++ new)%list /\
    pixel_metadata s' = pixel_metadata s /\
    numbered_from n new /\
    Forall (row_of_item e i events) new.
Proof.
  revert i ok s n dd. induction events as [|ev rest IH]; intros i ok s n dd.
  { intros [= <- <-]. exists [], s, dd. simpl.
    rewrite Z.add_0_r, Nat.add_0_r, app_nil_r.
    repeat split; try done. }
  simpl. rewrite bind_eq.
  destruct (bulk_item e i ev ok (in_transaction c0 s n dd)) as [[ok1|x] w1] eqn:Hi;
    [|discriminate].
  intros Hl.
  assert (Hshift : forall new, Forall (row_of_item e (S i) rest) new ->
                               Forall (row_of_item e i (ev :: rest)) new).
  { intros new HF. eapply Forall_impl; [exact HF|].
    intros r (j & it & Hj & Hv & Hr).
    exists (S j), it. split; [done|]. split; [done|].
    by rewrite Nat.add_succ_r. }
  apply bulk_item_returns in Hi as [(-> & dd1 & ->)|(-> & Hv & s1 & dd1 & -> & E1 & M1)].
  - destruct (IH _ _ _ _ _ Hl) as (new & s' & dd' & -> & -> & E & M & Hnum & Hrows).
    exists new, s', dd'. repeat split; try done. by apply Hshift.
  - destruct (IH _ _ _ _ _ Hl) as (new & s' & dd' & -> & -> & E & M & Hnum & Hrows).
    exists (event_row (n + 1) (bulk_params e i ev) :: new), s', dd'.
    split; [|split; [|split; [|split; [|split]]]].
    + simpl length. by replace (n + Z.of_nat (S (length new)))
        with (n + 1 + Z.of_nat (length new)) by lia.
    + simpl. lia.
    + rewrite E, E1. by rewrite <- app_assoc.
    + by rewrite M, M1.
    + intros [|j] r Hj; simpl in Hj.
      * injection Hj as <-. simpl. lia.
      * rewrite (Hnum j r Hj). lia.
    + constructor; [|by apply Hshift].
      exists 0%nat, ev. split; [done|]. split; [done|].
      by rewrite Nat.add_0_r.
Qed.

Lemma bulk_loop_null (e : Env) (events : list JsVal) (i ok : nat) (w : World)
    (ev : JsVal) :
  In ev events -> nullish ev = true ->
  exists x w', bulk_loop e i events ok w = (Throw x, w').
Proof.
  revert i ok w. induction events as [|it rest IH]; intros i ok w Hin Hn; [done|].
  simpl. rewrite bind_eq.
  destruct (bulk_item e i it ok w) as [[ok1|x] w1] eqn:Hi; [|eauto].
  destruct Hin as [->|Hin]; [|by apply IH].
  unfold bulk_item, bind, lift, validateEvent in Hi. by rewrite Hn in Hi.
Qed.

Lemma post_events_bulk_empty (e : Env) (req : Request) (w : World) :
  batch_of req = [] ->
  post_events_bulk e req w = ({| status := 200; payload := Ingested 0 |}, w).
Proof.
  unfold batch_of, post_events_bulk, run_handler, post_events_bulk_body.
  by intros ->.
Qed.

Lemma post_events_bulk_items (e : Env) (req : Request) (w : World) :
  batch_of req <> [] ->
  post_events_bulk e req w
  = if fault e OpConnect then (server_error, w)
    else run_handler (bulk_transaction e req (batch_of req)) w.
Proof.
  intros Hne. unfold batch_of in *.
  destruct (body req) as [| | | | |[|ev rest]| |] eqn:Hb; try done.
  by apply post_events_bulk_run.
Qed.

Lemma rolled_back_answer (e : Env) (w1 : World) :
  let r := run_handler (fun _ => rolled_back e w1) w1 in
  status r.1 = 500 /\
  committed (db r.2) = committed (db w1) /\
  (fault e OpRollback = false -> payload r.1 = Failure "db_error").
Proof.
  unfold run_handler, rolled_back. by destruct (fault e OpRollback).
Qed.

(** X13. What [{ok: true, ingested: n}] means.  When the batch handler
    answers with a count [n], the committed events table is the table before
    followed by exactly [n] new rows; the new rows carry consecutive serial
    numbers starting after the last one handed out, and each is the row of an
    item of the batch that passes validation.  The metadata table gained
    exactly one row, with [pixel_event_id] 0, when [n > 0], and none when
    [n = 0]. *)
Theorem bulk_count_is_rows (e : Env) (req : Request) (w : World) (n : nat) :
  (post_events_bulk e req w).1 = {| status := 200; payload := Ingested n |} ->
  let w' := (post_events_bulk e req w).2 in
  exists new,
    events_of w' = (events_of w ++ new)%list /\
    length new = n /\
    numbered_from (event_seq (db w)) new /\
    Forall (row_of_item e 0 (batch_of req)) new /\
    metadata_of w'
    = (metadata_of w ++ if Nat.ltb 0 n then [request_metadata req 0] else [])%list.
Proof.
  destruct (decide (batch_of req = [])) as [Hb|Hb].
  { rewrite post_events_bulk_empty by done. intros [= <-]. exists [].
    unfold events_of, metadata_of. simpl. rewrite !app_nil_r.
    repeat split; try done. }
  rewrite post_events_bulk_items by done.
  destruct (fault e OpConnect); [discriminate|].
  unfold run_handler. rewrite bulk_transaction_run.
  assert (Hrb : forall w1 r w2,
            (let (o, w') := rolled_back e w1 in
             match o with
             | Ret r => (r, w')
             | Throw _ => ({| status := 500; payload := Failure "server_error" |}, w')
             end) = (r, w2) -> r <> {| status := 200; payload := Ingested n |}).
  { intros w1 r w2. unfold rolled_back.
    destruct (fault e OpRollback); intros [= <- _]; discriminate. }
  assert (Hno : forall w1,
            (let (o, w') := rolled_back e w1 in
             match o with
             | Ret r => (r, w')
             | Throw _ => ({| status := 500; payload := Failure "server_error" |}, w')
             end).1 = {| status := 200; payload := Ingested n |} -> False).
  { intros w1 Hr.
    destruct (let (o, w') := rolled_back e w1 in
              match o with
              | Ret r => (r, w')
              | Throw _ => ({| status := 500; payload := Failure "server_error" |}, w')
              end) as [r w2] eqn:E.
    by apply (Hrb w1 r w2 E). }
  destruct (fault e OpBegin); [intros Hr; by destruct (Hno _ Hr)|].
  destruct (bulk_loop e 0 (batch_of req) 0 (begun w)) as [[ok|x] w1] eqn:Hl;
    [|intros Hr; by destruct (Hno _ Hr)].
  apply bulk_loop_returns in Hl
    as (new & s' & dd' & -> & -> & E & M & Hnum & Hrows).
  destruct (_ && _)%bool; [intros Hr; by destruct (Hno _ Hr)|].
  destruct (fault e OpCommit); [intros Hr; by destruct (Hno _ Hr)|].
  simpl. intros [= <-]. exists new.
  destruct (Nat.ltb 0 (length new)); unfold events_of, metadata_of; simpl;
    rewrite E, M, ?app_nil_r; by repeat (split; [done|]).
Qed.

(** X14. A [null] item aborts the whole batch.  When the array of a batch
    request holds a [null] (or an undefined) element, the request answers
    with status 500 and the committed store is exactly as before, whichever
    valid items stand before or after it and whatever else is rejected; the
    body is [db_error] when the connection and the ROLLBACK go through.  (The
    validator reads a field of the item and throws, inside the transaction.) *)
Theorem null_item_aborts_batch (e : Env) (req : Request) (w : World) (ev : JsVal) :
  In ev (batch_of req) -> nullish ev = true ->
  let r := post_events_bulk e req w in
  status r.1 = 500 /\
  committed (db r.2) = committed (db w) /\
  (fault e OpConnect = false -> fault e OpRollback = false ->
   payload r.1 = Failure "db_error").
Proof.
  intros Hin Hn.
  assert (Hb : batch_of req <> []) by (intros E; by rewrite E in Hin).
  rewrite post_events_bulk_items by done.
  destruct (fault e OpConnect); [done|].
  unfold run_handler. rewrite bulk_transaction_run.
  destruct (fault e OpBegin).
  { destruct (rolled_back_answer e w) as (A & B & C). by repeat split. }
  destruct (bulk_loop_null e (batch_of req) 0 0 (begun w) ev Hin Hn) as (x & w1 & Hl).
  rewrite Hl.
  destruct (bulk_loop_committed e (batch_of req) w _ _ Hl) as (s' & n' & dd' & ->).
  destruct (rolled_back_answer e (in_transaction (committed (db w)) s' n' dd'))
    as (A & B & C).
  by repeat split.
Qed.


(** ** The batch and the dedupe cache *)



Lemma all_registered_mono (items : list JsVal) (dd dd' : gmap string Z) :
  (forall k, is_Some (dd !! k) -> is_Some (dd' !! k)) ->
  all_registered items dd -> all_registered items dd'.
Proof.
  intros Hsub Hall. eapply Forall_impl; [exact Hall|].
  intros ev Hev Hv. by apply Hsub, Hev.
Qed.






(** ** The explicit upserts *)

Lemma post_users_run (e : Env) (req : Request) (w : World) (k : string) :
  let b := event_of req in
  let x := bind_user (users_params e b) in
  let row := match users_of w !! k with
             | Some old => merge_user_full x old
             | None => x
             end in
  key_text (get b "client_id") = Some k ->
  fault e (OpUpsertUser 0) = false ->
  post_users e req w
  = (Ret {| status := 200; payload := UserJson row |},
     put_users (<[k := row]> (users_of w)) w).
Proof.
  intros b x row Hk Hf. unfold post_users, bind, query, respond, ret.
  fold (event_of req). fold b. rewrite Hf. unfold upsert_user.
  assert (Hk' : key_text (u_client_id (bind_user (users_params e b))) = Some k)
    by (simpl; by rewrite key_text_param).
  rewrite (upsert_row_run _ k) by done. rewrite Hk', upserted_lookup.
  unfold upserted. by destruct w.
Qed.

Lemma post_sessions_run (e : Env) (req : Request) (w : World) (k : string) :
  let b := event_of req in
  let x := bind_session (sessions_params e b) in
  let row := match sessions_of w !! k with
             | Some old => merge_session_full x old
             | None => x
             end in
  key_text (get b "session_id") = Some k ->
  fault e (OpUpsertSession 0) = false ->
  post_sessions e req w
  = (Ret {| status := 200; payload := SessionJson row |},
     put_sessions (<[k := row]> (sessions_of w)) w).
Proof.
  intros b x row Hk Hf. unfold post_sessions, bind, query, respond, ret.
  fold (event_of req). fold b. rewrite Hf. unfold upsert_session.
  assert (Hk' : key_text (s_session_id (bind_session (sessions_params e b))) = Some k)
    by (simpl; by rewrite key_text_param).
  rewrite (upsert_row_run _ k) by done. rewrite Hk', upserted_lookup.
  unfold upserted. by destruct w.
Qed.

Lemma key_text_string (s : string) : key_text (JStr s) = Some s.
Proof. done. Qed.

Lemma coalesce_same (a : JsVal) : COALESCE a a = a.
Proof. by destruct a. Qed.

Lemma coalesce_left_again (a b : JsVal) : COALESCE a (COALESCE a b) = COALESCE a b.
Proof. by destruct a. Qed.

Lemma coalesce_right_again (a b : JsVal) : COALESCE (COALESCE a b) b = COALESCE a b.
Proof. destruct a; try done. apply coalesce_same. Qed.


Lemma put_sessions_same (k : string) (row : SessionRow)
    (t : gmap string SessionRow) (w : World) :
  put_sessions (<[k := row]> (sessions_of (put_sessions (<[k := row]> t) w)))
    (put_sessions (<[k := row]> t) w)
  = put_sessions (<[k := row]> t) w.
Proof. unfold put_sessions, sessions_of. simpl. by rewrite insert_insert_eq. Qed.

Lemma put_users_same (k : string) (row : UserRow)
    (t : gmap string UserRow) (w : World) :
  put_users (<[k := row]> (users_of (put_users (<[k := row]> t) w)))
    (put_users (<[k := row]> t) w)
  = put_users (<[k := row]> t) w.
Proof. unfold put_users, users_of. simpl. by rewrite insert_insert_eq. Qed.


(** X17. [POST /sessions] is idempotent.  After a [POST /sessions] whose
    body names the session by a string and whose query went through, the same
    request sent again, at any later time and whether or not its query is
    rejected, leaves the whole state exactly as it is: the start of the
    session is that of the first request, and the pages are coalesced to the
    same values. *)
Theorem post_sessions_idempotent (e1 e2 : Env) (req : Request) (w : World)
    (k : string) :
  get (event_of req) "session_id" = JStr k ->
  fault e1 (OpUpsertSession 0) = false ->
  let w1 := (post_sessions e1 req w).2 in
  (post_sessions e2 req w1).2 = w1.
Proof.
  intros Hs Hf w1. set (b := event_of req) in *.
  assert (Hk : key_text (get b "session_id") = Some k) by by rewrite Hs.
  subst w1. rewrite (post_sessions_run e1 req w k Hk Hf). fold b. simpl.
  set (x1 := bind_session (sessions_params e1 b)).
  set (row1 := match sessions_of w !! k with
               | Some old => merge_session_full x1 old
               | None => x1
               end).
  destruct (fault e2 (OpUpsertSession 0)) eqn:Hf2.
  { unfold post_sessions, bind. by rewrite query_fault. }
  rewrite (post_sessions_run e2 req _ k Hk Hf2). fold b. simpl.
  assert (Hl : sessions_of (put_sessions (<[k := row1]> (sessions_of w)) w) !! k
               = Some row1) by (unfold put_sessions, sessions_of; simpl;
                                by rewrite lookup_insert_eq).
  rewrite Hl.
  assert (Hrow : merge_session_full (bind_session (sessions_params e2 b)) row1 = row1).
  { subst row1 x1. unfold merge_session_full.
    destruct (sessions_of w !! k) as [old|]; simpl.
    - by rewrite coalesce_right_again, coalesce_left_again.
    - by rewrite !coalesce_same. }
  rewrite Hrow. apply put_sessions_same.
Qed.

(** X18. Repeating a [POST /users] changes [last_seen] at most.  After a
    [POST /users] whose body names the client by a string and whose query
    went through, the same request sent again leaves the client's row with
    the same [client_id], [traits], [user_id], [email_sha256] and
    [phone_sha256]; every other row and every other table is untouched; and
    when the body carries its own [last_seen] the whole state is exactly the
    same. *)
Theorem post_users_repeat (e1 e2 : Env) (req : Request) (w : World) (c : string) :
  let b := event_of req in
  get b "client_id" = JStr c ->
  fault e1 (OpUpsertUser 0) = false ->
  let w1 := (post_users e1 req w).2 in
  let w2 := (post_users e2 req w1).2 in
  (exists row1 row2,
      users_of w1 !! c = Some row1 /\ users_of w2 !! c = Some row2 /\
      u_client_id row2 = u_client_id row1 /\
      u_traits row2 = u_traits row1 /\
      u_user_id row2 = u_user_id row1 /\
      u_email_sha256 row2 = u_email_sha256 row1 /\
      u_phone_sha256 row2 = u_phone_sha256 row1) /\
  (forall c', c' <> c -> users_of w2 !! c' = users_of w1 !! c') /\
  sessions_of w2 = sessions_of w1 /\
  events_of w2 = events_of w1 /\
  metadata_of w2 = metadata_of w1 /\
  (truthy (get b "last_seen") = true -> w2 = w1).
Proof.
  intros b Hc Hf w1 w2.
  assert (Hk : key_text (get b "client_id") = Some c) by by rewrite Hc.
  subst w2 w1. rewrite (post_users_run e1 req w c Hk Hf). fold b. simpl.
  set (x1 := bind_user (users_params e1 b)).
  set (row1 := match users_of w !! c with
               | Some old => merge_user_full x1 old
               | None => x1
               end).
  set (w1 := put_users (<[c := row1]> (users_of w)) w).
  assert (Hl : users_of w1 !! c = Some row1)
    by (unfold w1, put_users, users_of; simpl; by rewrite lookup_insert_eq).
  destruct (fault e2 (OpUpsertUser 0)) eqn:Hf2.
  { unfold post_users at 1 2 3 4 5 6, bind. rewrite query_fault by done. simpl.
    split; [by exists row1, row1|]. done. }
  rewrite (post_users_run e2 req w1 c Hk Hf2). fold b. simpl. rewrite Hl.
  set (x2 := bind_user (users_params e2 b)).
  assert (Hsame : u_client_id (merge_user_full x2 row1) = u_client_id row1 /\
                  u_traits (merge_user_full x2 row1) = u_traits row1 /\
                  u_user_id (merge_user_full x2 row1) = u_user_id row1 /\
                  u_email_sha256 (merge_user_full x2 row1) = u_email_sha256 row1 /\
                  u_phone_sha256 (merge_user_full x2 row1) = u_phone_sha256 row1).
  { subst row1 x1 x2. destruct (users_of w !! c) as [old|]; simpl.
    - by rewrite !coalesce_left_again.
    - by rewrite !coalesce_same. }
  split.
  { exists row1, (merge_user_full x2 row1). split; [done|].
    split; [|done]. unfold put_users, users_of. simpl. by rewrite lookup_insert_eq. }
  split.
  { intros c' Hne. unfold put_users, users_of. simpl. by rewrite lookup_insert_ne. }
  split; [done|]. split; [done|]. split; [done|].
  intros Hls.
  assert (Hrow : merge_user_full x2 row1 = row1).
  { subst row1 x1 x2. unfold merge_user_full, users_params, bind_user. simpl.
    rewrite !(jor_truthy _ _ Hls).
    destruct (users_of w !! c) as [old|]; simpl.
    - by rewrite !coalesce_left_again.
    - by rewrite !coalesce_same. }
  rewrite Hrow. apply put_users_same.
Qed.


(** ** The legacy purchase *)

Lemma typeof_or_null_string (v : JsVal) :
  String.eqb (typeof (jor v JNull)) "string" = true
  <-> exists s, v = JStr s /\ s <> "".
Proof.
  unfold jor. destruct v as [| |b|n|s|l|l|d]; simpl;
    try (split; [done|by intros (s' & ? & _)]).
  - destruct b; simpl; (split; [done|by intros (s' & ? & _)]).
  - destruct (number_truthy n); simpl; (split; [done|by intros (s' & ? & _)]).
  - destruct (String.eqb s "") eqn:E; simpl.
    + apply String.eqb_eq in E as ->. split; [done|]. by intros (s' & [= <-] & ?).
    + apply String.eqb_neq in E. split; [|done]. intros _. by exists s.
Qed.

(** X19. The event built by [POST /purchases].  The validator never throws
    on it and never reports a missing name or a missing [ecommerce.value]:
    the value is always a number, 0 when the body has no (truthy) [value].
    The event passes validation exactly when the body has a truthy
    [purchase_id], a truthy [client_id] and a non-empty string as
    [currency]. *)
Theorem legacy_purchase_valid_iff (conv : JsVal -> JsNumber) (now : Z)
    (req_body : JsVal) :
  let b := jor req_body (JObj []) in
  let ev := purchase_event conv now req_body in
  validateEvent ev = Ret (errs_of ev, warns_of ev) /\
  ~ In "missing:event_name" (errs_of ev) /\
  ~ In "missing:ecommerce.value" (errs_of ev) /\
  (exists n, ecommerce_value ev = JNum n) /\
  (truthy (get b "value") = false -> ecommerce_value ev = JInt 0) /\
  (valid ev <->
   truthy (get b "purchase_id") = true /\
   truthy (get b "client_id") = true /\
   exists s, get b "currency" = JStr s /\ s <> "").
Proof.
  intros b ev.
  assert (Hn : nullish ev = false) by done.
  split; [by apply validateEvent_returns|].
  pose proof (typeof_or_null_string (get b "currency")) as Hcur.
  assert (He : errs_of ev
               = push_if (negb (String.eqb (typeof (jor (get b "currency") JNull)) "string"))
                   "missing:ecommerce.currency"
                   (push_if (negb (truthy (get b "client_id"))) "missing:client_id"
                      (push_if (negb (truthy (get b "purchase_id"))) "missing:event_id" []))).
  { rewrite (errs_of_unfold _ Hn). reflexivity. }
  rewrite He. unfold valid. rewrite He. unfold push_if.
  split; [|split; [|split; [|split]]].
  - destruct (truthy (get b "purchase_id")), (truthy (get b "client_id")),
      (String.eqb _ "string"); simpl; intuition discriminate.
  - destruct (truthy (get b "purchase_id")), (truthy (get b "client_id")),
      (String.eqb _ "string"); simpl; intuition discriminate.
  - by eexists.
  - intros Hv. unfold ecommerce_value, ev, purchase_event. fold b.
    change (JNum (to_number conv (jor (get b "value") (JInt 0))) = JInt 0).
    unfold jor. by rewrite Hv.
  - destruct (truthy (get b "purchase_id")), (truthy (get b "client_id"));
      destruct (String.eqb _ "string") eqn:Es; simpl;
      try (split; [by intros [_ ?]|]);
      try (intros (? & ? & Hs); apply Hcur in Hs; congruence).
    split; [|done]. intros _. split; [done|]. split; [done|]. by apply Hcur.
Qed.


(** ** Events and the pages of a session *)

Lemma same_pages_refl (r : SessionRow) : same_pages r r.
Proof. by repeat split. Qed.

Lemma pages_frozen_refl (s : Store) : pages_frozen s s.
Proof. intros k old Hk. exists old. split; [done|apply same_pages_refl]. Qed.

Lemma pages_frozen_trans (a b c : Store) :
  pages_frozen a b -> pages_frozen b c -> pages_frozen a c.
Proof.
  intros Hab Hbc k old Hk.
  destruct (Hab k old Hk) as (r1 & Hr1 & A1 & A2 & A3 & A4).
  destruct (Hbc k r1 Hr1) as (r2 & Hr2 & B1 & B2 & B3 & B4).
  exists r2. split; [done|]. repeat split; congruence.
Qed.

Lemma pages_frozen_users (merge : UserRow -> UserRow -> UserRow) :
  user_merge_ok pages_frozen merge.
Proof. intros s k x k' old Hk. exists old. split; [done|apply same_pages_refl]. Qed.

(** The session upsert of the events: [SET client_id = EXCLUDED.client_id]. *)
Lemma pages_frozen_session_event : session_merge_ok pages_frozen merge_session_event.
Proof.
  intros s k x k' old Hk. simpl. destruct (decide (k = k')) as [<-|Hne].
  - rewrite upserted_lookup, Hk. eexists. split; [reflexivity|]. by repeat split.
  - unfold upserted. rewrite lookup_insert_ne by done.
    exists old. split; [done|apply same_pages_refl].
Qed.

Lemma pages_frozen_add_event (s : Store) (r : EventRow) :
  validated_row r -> pages_frozen s (add_event r s).
Proof. intros _ k old Hk. exists old. split; [done|apply same_pages_refl]. Qed.

Lemma pages_frozen_add_metadata (s : Store) (m : MetadataRow) :
  linked s m -> pages_frozen s (add_metadata m s).
Proof. intros _ k old Hk. exists old. split; [done|apply same_pages_refl]. Qed.

(** X20. Events never move a session.  If session [k] has a row in the
    committed sessions table, then after any sequence of [POST /events],
    [POST /events/bulk] and [POST /users] requests, with any operations
    rejected, [k] still has a row with the same [started_at], the same
    [first_page] and the same [last_page]: whatever [page_location] the
    events of the session carry, the last page is not advanced and a NULL
    first page (that of a session created by a batch) is not filled.  Only
    [POST /sessions] changes the pages of an existing session. *)
Theorem events_never_move_a_session (cs : list Call) (w : World) (k : string)
    (old : SessionRow) :
  Forall no_session_upsert cs ->
  sessions_of w !! k = Some old ->
  exists row,
    sessions_of (after_all cs w) !! k = Some row /\
    s_started_at row = s_started_at old /\
    s_first_page row = s_first_page old /\
    s_last_page row = s_last_page old.
Proof.
  intros Hcs Hk.
  assert (G : pages_frozen (committed (db w)) (committed (db (after_all cs w)))).
  { apply (after_all_keeps pages_frozen pages_frozen_refl pages_frozen_trans).
    intros c w' Hin.
    apply (after_keeps pages_frozen pages_frozen_refl pages_frozen_trans
             pages_frozen_add_event pages_frozen_add_metadata);
      try apply pages_frozen_users; [apply pages_frozen_session_event|].
    rewrite Forall_forall in Hcs. apply Hcs. by apply list_elem_of_In. }
  destruct (G k old Hk) as (row & Hr & _ & Hs & Hf & Hl). by exists row.
Qed.


(** ** One cache for both event handlers *)


End Handlers.

(** * The handlers on sample requests *)

(** C5. A session created by an event on page ["/a"] has first and last
    page ["/a"].  A later event of the same session on page ["/b"] is stored
    (its row carries ["/b"]) but the session keeps last page ["/a"]: the
    ON CONFLICT clause of the event handler sets [client_id] only.  The
    explicit session upsert with last page ["/b"] does set it. *)
Theorem event_leaves_last_page_stale :
  let w1 := (post_events host0 (env_ok 1000) (request (page_view "e1" "/a")) world0).2 in
  let r2 := post_events host0 (env_ok 2000) (request (page_view "e2" "/b")) w1 in
  let r3 := post_sessions host0 (env_ok 3000) (request (session_body "/b")) w1 in
  sessions_of w1 !! "s1"
  = Some {| s_session_id := JStr "s1"; s_client_id := JStr "c1";
            s_started_at := at_ms 1000;
            s_first_page := JStr "/a"; s_last_page := JStr "/a" |} /\
  r2.1 = {| status := 200; payload := Stored 2 [] |} /\
  map (fun row => assoc "page_location" (e_columns row)) (events_of r2.2)
  = [Some (JStr "/a"); Some (JStr "/b")] /\
  sessions_of r2.2 !! "s1"
  = Some {| s_session_id := JStr "s1"; s_client_id := JStr "c1";
            s_started_at := at_ms 1000;
            s_first_page := JStr "/a"; s_last_page := JStr "/a" |} /\
  sessions_of r3.2 !! "s1"
  = Some {| s_session_id := JStr "s1"; s_client_id := JStr "c1";
            s_started_at := at_ms 1000;
            s_first_page := JStr "/a"; s_last_page := JStr "/b" |}.
Proof. vm_compute. repeat split. Qed.

(** C2. An item that fails validation is not always skipped.  In the batch
    [[A; null; C]] with [A] and [C] valid page views and no operation
    rejected, the validator throws on the [null] item (it reads
    [ev.event_id]), inside the transaction: the request is answered 500
    [db_error] and neither [A] nor [C] is stored.  With an item that lacks
    its [event_id] in place of [null] the same batch is answered
    [ingested = 2] with the rows of [A] and [C]; and the single-event
    handler, which takes [req.body || {}], answers a [null] body with 400 and
    the list of missing fields. *)
Theorem null_item_loses_batch :
  let A := page_view "e1" "/a" in
  let C := page_view "e2" "/b" in
  let r := post_events_bulk host0 (env_ok 1000) (request (JArr [A; JNull; C])) world0 in
  let r' := post_events_bulk host0 (env_ok 1000) (request (JArr [A; ev_no_id; C])) world0 in
  valid A /\ valid C /\
  validateEvent JNull = Throw TypeError /\
  r.1 = {| status := 500; payload := Failure "db_error" |} /\
  committed (db r.2) = empty_store /\
  r'.1 = {| status := 200; payload := Ingested 2 |} /\
  map (fun row => assoc "event_id" (e_columns row)) (events_of r'.2)
  = [Some (JStr "e1"); Some (JStr "e2")] /\
  post_events host0 (env_ok 1000) (request JNull) world0
  = ({| status := 400;
        payload := InvalidEvent
                     ["missing:event_id"; "missing:event_name"; "missing:client_id"]
                     ["recommend:session_id"] |}, world0).
Proof. vm_compute. repeat split. Qed.

(** C6. An event with neither a campaign object nor any flat attribution
    field is stored with the empty object as its campaign, not with null;
    flat [utm_source] and [utm_medium] are stored as the object of exactly
    these two fields; a campaign object is stored as it is. *)
Theorem campaign_of_bare_event_is_empty_object :
  let r := post_events host0 (env_ok 1000) (request ev_no_session) world0 in
  let r' := post_events host0 (env_ok 1000) (request ev_legacy_utm) world0 in
  let r'' := post_events host0 (env_ok 1000) (request ev_campaign) world0 in
  r.1 = {| status := 200; payload := Stored 1 ["recommend:session_id"] |} /\
  map (fun row => assoc "campaign" (e_columns row)) (events_of r.2)
  = [Some (JObj [])] /\
  map (fun row => assoc "campaign" (e_columns row)) (events_of r'.2)
  = [Some (JObj [("utm_source", JStr "ads"); ("utm_medium", JStr "cpc")])] /\
  map (fun row => assoc "campaign" (e_columns row)) (events_of r''.2)
  = [Some (JObj [("utm_source", JStr "newsletter")])].
Proof. vm_compute. repeat split. Qed.

(** ** The theorems at work *)


(** The batch [[A; B; C]] with [B] lacking its [event_id]: two rows
    when nothing is rejected, none when the INSERT of [C] is. *)
Lemma batch_semantics_witness :
  let batch := JArr [page_view "e1" "/a"; ev_no_id; page_view "e2" "/b"] in
  let r := post_events_bulk host0 (env_ok 1000) (request batch) world0 in
  let r' := post_events_bulk host0 (env_fault (OpInsertEvent 2) 1000)
              (request batch) world0 in
  (r.1 = {| status := 200; payload := Ingested 2 |} /\
   map (fun row => assoc "event_id" (e_columns row)) (events_of r.2)
   = [Some (JStr "e1"); Some (JStr "e2")]) /\
  (r'.1 = {| status := 500; payload := Failure "db_error" |} /\
   committed (db r'.2) = empty_store).
Proof.
  intros batch r r'.
  assert (VA : valid (page_view "e1" "/a")) by (split; reflexivity).
  assert (VC : valid (page_view "e2" "/b")) by (split; reflexivity).
  assert (NB : errs_of ev_no_id <> []) by (vm_compute; discriminate).
  assert (NK : dedupe_key host0 (page_view "e1" "/a") <> dedupe_key host0 (page_view "e2" "/b"))
    by (vm_compute; discriminate).
  split.
  - destruct (batch_semantics host0 (env_ok 1000) (request batch) world0)
      as (_ & _ & _ & _ & _ & P).
    assert (F : no_fault (env_ok 1000)) by (intros op; reflexivity).
    destruct (P (page_view "e1" "/a") ev_no_id (page_view "e2" "/b")
                eq_refl VA eq_refl NB VC NK eq_refl eq_refl F) as (P1 & P2 & _).
    subst r. rewrite P1, P2. split; reflexivity.
  - destruct (batch_semantics host0 (env_fault (OpInsertEvent 2) 1000)
                (request batch) world0) as (_ & _ & _ & P & _).
    assert (U : unseen host0 1000 (page_view "e2" "/b")
                  (dedupe (bulk_loop host0 (env_fault (OpInsertEvent 2) 1000) 0
                             [page_view "e1" "/a"; ev_no_id] 0 (begun world0)).2))
      by reflexivity.
    destruct (P [page_view "e1" "/a"; ev_no_id] (page_view "e2" "/b") [] 1%nat
                (bulk_loop host0 (env_fault (OpInsertEvent 2) 1000) 0
                   [page_view "e1" "/a"; ev_no_id] 0 (begun world0)).2
                eq_refl eq_refl eq_refl eq_refl VC U eq_refl)
      as (_ & P2 & P3).
    subst r'. split; [exact (P3 eq_refl)|exact P2].
Defined.


(** Client [c1], known as user ["u1"]: an event without identity and
    an explicit upsert with a null user id leave ["u1"], an event resolving
    the client to ["u2"] stores ["u2"]; each refreshes the last-seen time. *)
Lemma client_identity_coalesced_witness :
  let w1 := (post_events host0 (env_ok 1000) (request (ev_identify "e1" "u1")) world0).2 in
  let seen w := u_last_seen <$> users_of w !! "c1" in
  let user w := u_user_id <$> users_of w !! "c1" in
  let r2 := post_events host0 (env_ok 2000) (request ev_no_session) w1 in
  let r3 := post_events host0 (env_ok 3000) (request (ev_identify "e2" "u2")) w1 in
  let r4 := post_users host0 (env_ok 4000) (request (user_body JNull)) w1 in
  (user r2.2 = Some (JStr "u1") /\ seen r2.2 = Some (at_ms 2000)) /\
  (user r3.2 = Some (JStr "u2") /\ seen r3.2 = Some (at_ms 3000)) /\
  (user r4.2 = Some (JStr "u1") /\ seen r4.2 = Some (at_ms 4000)).
Proof.
  intros w1 seen user r2 r3 r4.
  set (old := {| u_client_id := JStr "c1"; u_traits := JObj [];
                 u_last_seen := at_ms 1000; u_user_id := JStr "u1";
                 u_email_sha256 := JNull; u_phone_sha256 := JNull |}).
  assert (O : users_of w1 !! "c1" = Some old) by (vm_compute; reflexivity).
  split; [|split].
  - destruct (client_identity_coalesced host0 (env_ok 2000) (request ev_no_session)
                w1 "c1" old O eq_refl eq_refl) as (_ & P & _).
    assert (V : valid (event_of (request ev_no_session))) by (split; reflexivity).
    assert (U : unseen host0 2000 (event_of (request ev_no_session)) (dedupe w1))
      by (vm_compute; reflexivity).
    destruct (P V U) as (row & P1 & P2 & _ & _ & P5).
    subst user seen r2. cbv beta. rewrite P1. simpl. rewrite P2, P5. split; reflexivity.
  - destruct (client_identity_coalesced host0 (env_ok 3000)
                (request (ev_identify "e2" "u2")) w1 "c1" old O eq_refl eq_refl)
      as (_ & P & _).
    assert (V : valid (event_of (request (ev_identify "e2" "u2")))) by (split; reflexivity).
    assert (U : unseen host0 3000 (event_of (request (ev_identify "e2" "u2"))) (dedupe w1))
      by (vm_compute; reflexivity).
    destruct (P V U) as (row & P1 & P2 & _ & _ & P5).
    subst user seen r3. cbv beta. rewrite P1. simpl. rewrite P2, P5. split; reflexivity.
  - destruct (client_identity_coalesced host0 (env_ok 4000) (request (user_body JNull))
                w1 "c1" old O eq_refl eq_refl) as (P & _ & _).
    destruct P as (row & w' & P0 & P1 & P2 & _ & _ & P5).
    assert (E : r4.2 = w') by (subst r4; by rewrite P0).
    subst user seen. cbv beta. rewrite E, P1. simpl. rewrite P2, P5. split; reflexivity.
Defined.


(** A purchase whose value is the string ["19.99"]. *)
Lemma purchase_fields_enforced_witness :
  In "missing:ecommerce.value" (errs_of ev_purchase_text_value) /\
  ~ In "missing:ecommerce.currency" (errs_of ev_purchase_text_value) /\
  post_events host0 (env_ok 1000) (request ev_purchase_text_value) world0
  = ({| status := 400;
        payload := InvalidEvent ["missing:ecommerce.value"] ["recommend:session_id"] |},
     world0).
Proof.
  destruct (purchase_fields_enforced host0 (env_ok 1000)
              (request ev_purchase_text_value) world0 eq_refl)
    as (A & B & _ & _ & C).
  assert (N : ~ exists n, get_opt (get_opt (event_of (request ev_purchase_text_value))
                                     "ecommerce") "value" = JNum n).
  { intros [n E]. vm_compute in E. discriminate E. }
  split; [exact (proj2 A N)|]. split.
  - intros I. apply (proj1 B I). exists "EUR". reflexivity.
  - exact (proj1 (C (or_introl N))).
Defined.



(** ** The further properties at work *)


(** The validator on the purchase whose value is a string. *)
Lemma validate_accepts_iff_witness :
  validateEvent ev_purchase_text_value <> Ret ([], warns_of ev_purchase_text_value).
Proof.
  intros E.
  destruct (validate_accepts_iff ev_purchase_text_value) as [_ P].
  destruct (proj1 (P eq_refl) E) as (_ & _ & _ & Q).
  destruct (Q eq_refl) as [[n Hn] _]. vm_compute in Hn. discriminate Hn.
Defined.

(** Name ["cart:add"] with id ["1"], then name ["cart"] with id ["add:1"]. *)
Lemma fingerprint_collision_witness :
  let named n i :=
    request (JObj [("event_id", JStr i); ("event_name", JStr n);
                   ("client_id", JStr "c1")]) in
  let r1 := post_events host0 (env_ok 1000) (named "cart:add" "1") world0 in
  let r2 := post_events host0 (env_ok 2000) (named "cart" "add:1") r1.2 in
  r1.1 = {| status := 200; payload := Stored 1 ["recommend:session_id"] |} /\
  r2.1 = {| status := 200; payload := Deduped |}.
Proof.
  intros named r1 r2. split; [reflexivity|].
  assert (V1 : valid (event_of (named "cart:add" "1"))) by (split; reflexivity).
  assert (V2 : valid (event_of (named "cart" "add:1"))) by (split; reflexivity).
  assert (U : unseen host0 1000 (event_of (named "cart:add" "1")) (dedupe world0))
    by reflexivity.
  assert (L : 2000 - 1000 <= 60000) by lia.
  destruct (fingerprint_collision host0 (env_ok 1000) (env_ok 2000)
              (named "cart:add" "1") (named "cart" "add:1") world0
              "cart" "add" "1" V1 V2 eq_refl eq_refl eq_refl eq_refl U L)
    as [_ P].
  subst r2 r1. rewrite P. reflexivity.
Defined.

(** A page view accepted at 1000, checked again at 30000 and 61000, and
    once more at 61001. *)
Lemma dedupe_window_is_fixed_witness :
  let ev := page_view "e1" "/a" in
  let w1 := checks host0 [(env_ok 30000, 0%nat, ev); (env_ok 61000, 0%nat, ev)]
              (shouldStore host0 (env_ok 1000) 0 ev world0).2 in
  (shouldStore host0 (env_ok 61000) 0 ev w1).1 = Ret false /\
  (shouldStore host0 (env_ok 61001) 0 ev w1).1 = Ret true.
Proof.
  intros ev w1.
  assert (U : unseen host0 1000 ev (dedupe world0)) by reflexivity.
  assert (F : Forall (in_window 1000)
                [(env_ok 30000, 0%nat, ev); (env_ok 61000, 0%nat, ev)]).
  { repeat constructor; unfold in_window; simpl; lia. }
  split.
  - destruct (dedupe_window_is_fixed host0 (env_ok 1000) (env_ok 61000) 0 0 ev ev
                world0 _ U eq_refl F) as (_ & P & _).
    apply P. simpl. lia.
  - destruct (dedupe_window_is_fixed host0 (env_ok 1000) (env_ok 61001) 0 0 ev ev
                world0 _ U eq_refl F) as (_ & _ & P).
    apply P. simpl. lia.
Defined.

(** The sample request: forwarded for ["203.0.113.7, 10.0.0.1"]. *)
Lemma request_ip_shape_witness :
  request_ip (request JNull) = JStr "203.0.113.7".
Proof.
  destruct (request_ip_shape (request JNull)) as (_ & P & _).
  assert (N : trim (before_comma "203.0.113.7, 10.0.0.1") <> "")
    by (vm_compute; discriminate).
  exact (proj1 (P "203.0.113.7, 10.0.0.1" eq_refl N)).
Defined.

(** An event with [timestamp: 0]: the column keeps the 0, [occurred_at]
    comes from the clock. *)
Lemma time_columns_witness :
  let ev := JObj [("event_id", JStr "e1"); ("event_name", JStr "page_view");
                  ("client_id", JStr "c1"); ("timestamp", JInt 0)] in
  let row := event_row 1 (event_params ev JNull (occurredAt host0 (env_ok 1000) 0 ev)) in
  column "timestamp" row = Some (JInt 0) /\
  column "occurred_at" row = Some (at_ms 1000).
Proof.
  intros ev row.
  destruct (time_columns host0 (env_ok 1000) 0 ev JNull 1) as (P1 & _ & _ & P4 & _ & P6).
  split.
  - exact (P6 eq_refl).
  - subst row. rewrite P1. rewrite (P4 eq_refl eq_refl). reflexivity.
Defined.

(** A page view without [user_agent], sent with the header ["pixel/1"]. *)
Lemma user_agent_column_witness :
  column "user_agent"
    (event_row 1 (single_params host0 (env_ok 1000) (request ev_no_session) ev_no_session))
  = Some (JStr "pixel/1") /\
  column "user_agent" (event_row 1 (bulk_params host0 (env_ok 1000) 0 ev_no_session))
  = Some JNull.
Proof.
  destruct (user_agent_column host0 (env_ok 1000) (request ev_no_session) 0
              ev_no_session 1) as [_ P].
  destruct (P eq_refl) as (P1 & P2 & _).
  split; [|exact P1].
  apply P2; [reflexivity|discriminate].
Defined.

(** The [message] column of any stored row is NULL or truthy. *)
Lemma stored_columns_guarded_witness :
  exists v,
    column "message" (event_row 1 (event_params ev_no_session JNull NaN)) = Some v /\
    (v = JNull \/ truthy v = true).
Proof.
  destruct (stored_columns_guarded ev_no_session JNull NaN 1) as (_ & _ & _ & P).
  apply P. unfold or_null_columns. simpl. tauto.
Defined.

(** Client [c1], resolved to user ["u1"] by a first event: a later event
    without identity followed by an explicit upsert with a null user id
    leaves the client with a row and a user id. *)
Lemma identity_never_erased_witness :
  let w1 := (post_events host0 (env_ok 1000) (request (ev_identify "e1" "u1")) world0).2 in
  let cs := [PostEvents (env_ok 2000) (request ev_no_session);
             PostUsers (env_ok 4000) (request (user_body JNull))] in
  exists row,
    users_of (after_all host0 cs w1) !! "c1" = Some row /\
    u_user_id row <> JNull.
Proof.
  intros w1 cs.
  set (old := {| u_client_id := JStr "c1"; u_traits := JObj [];
                 u_last_seen := at_ms 1000; u_user_id := JStr "u1";
                 u_email_sha256 := JNull; u_phone_sha256 := JNull |}).
  assert (O : users_of w1 !! "c1" = Some old) by (vm_compute; reflexivity).
  destruct (identity_never_erased host0 cs w1 "c1" old O) as (row & R & _ & U & _).
  exists row. split; [exact R|]. apply U. discriminate.
Defined.

(** Session [s1], started by a page view of ["/a"] at time 1000: a page view
    of ["/b"] in the same session and an explicit upsert naming another
    first page leave the start and the first page as they were. *)
Lemma session_origin_fixed_witness :
  let w1 := (post_events host0 (env_ok 1000) (request (page_view "e1" "/a")) world0).2 in
  let cs := [PostEvents (env_ok 2000) (request (page_view "e2" "/b"));
             PostSessions (env_ok 3000)
               (request (JObj [("session_id", JStr "s1"); ("client_id", JStr "c1");
                               ("first_page", JStr "/z")]))] in
  exists row,
    sessions_of (after_all host0 cs w1) !! "s1" = Some row /\
    s_started_at row = at_ms 1000 /\
    s_first_page row = JStr "/a".
Proof.
  intros w1 cs.
  set (old := {| s_session_id := JStr "s1"; s_client_id := JStr "c1";
                 s_started_at := at_ms 1000; s_first_page := JStr "/a";
                 s_last_page := JStr "/a" |}).
  assert (O : sessions_of w1 !! "s1" = Some old) by (vm_compute; reflexivity).
  destruct (session_origin_fixed host0 cs w1 "s1" old O) as (row & R & _ & S & F).
  exists row. split; [exact R|]. split; [exact S|]. apply F. discriminate.
Defined.

(** A batch of a page view, an item without [event_id] and another page
    view, on the empty store: the answer counts 2, and two rows numbered 1
    and 2 and one metadata row are committed. *)
Lemma bulk_count_is_rows_witness :
  let req := request (JArr [page_view "e1" "/a"; ev_no_id; page_view "e2" "/b"]) in
  let w' := (post_events_bulk host0 (env_ok 1000) req world0).2 in
  exists new,
    events_of w' = new /\ length new = 2%nat /\
    numbered_from 0 new /\
    length (metadata_of w') = 1%nat.
Proof.
  intros req w'.
  assert (R : (post_events_bulk host0 (env_ok 1000) req world0).1
              = {| status := 200; payload := Ingested 2 |}) by reflexivity.
  destruct (bulk_count_is_rows host0 (env_ok 1000) req world0 2 R)
    as (new & E & L & N & _ & M).
  exists new. fold w' in E, M. split; [exact E|]. split; [exact L|].
  split; [exact N|]. by rewrite M.
Defined.

(** A page view followed by [null]: status 500, [db_error], and the empty
    store stays empty. *)
Lemma null_item_aborts_batch_witness :
  let req := request (JArr [page_view "e1" "/a"; JNull]) in
  let r := post_events_bulk host0 (env_ok 1000) req world0 in
  status r.1 = 500 /\
  committed (db r.2) = empty_store /\
  payload r.1 = Failure "db_error".
Proof.
  intros req r.
  assert (I : In JNull (batch_of req)) by (right; left; reflexivity).
  destruct (null_item_aborts_batch host0 (env_ok 1000) req world0 JNull I eq_refl)
    as (A & B & C).
  split; [exact A|]. split; [exact B|]. by apply C.
Defined.



(** The session upsert of [s1] with last page ["/a"], sent at time 1000 and
    again at time 2000. *)
Lemma post_sessions_idempotent_witness :
  let req := request (session_body "/a") in
  let w1 := (post_sessions host0 (env_ok 1000) req world0).2 in
  (post_sessions host0 (env_ok 2000) req w1).2 = w1.
Proof.
  intros req w1.
  exact (post_sessions_idempotent host0 (env_ok 1000) (env_ok 2000) req world0 "s1"
           eq_refl eq_refl).
Defined.

(** The upsert of client [c1] as user ["u1"], sent at time 1000 and again at
    time 2000: the row differs in [last_seen] only. *)
Lemma post_users_repeat_witness :
  let req := request (user_body (JStr "u1")) in
  let w1 := (post_users host0 (env_ok 1000) req world0).2 in
  let w2 := (post_users host0 (env_ok 2000) req w1).2 in
  exists row1 row2,
    users_of w1 !! "c1" = Some row1 /\ users_of w2 !! "c1" = Some row2 /\
    u_user_id row2 = u_user_id row1 /\
    events_of w2 = events_of w1.
Proof.
  intros req w1 w2.
  destruct (post_users_repeat host0 (env_ok 1000) (env_ok 2000) req world0 "c1"
              eq_refl eq_refl) as ((row1 & row2 & R1 & R2 & _ & _ & U & _) & _ & _ & E & _).
  exists row1, row2. split; [exact R1|]. split; [exact R2|]. split; [exact U|exact E].
Defined.

(** Session [s1], created by a batch and so without pages: a page view of
    ["/b"] in that session, sent as a single event, leaves both pages
    NULL. *)
Lemma events_never_move_a_session_witness :
  let w1 := (post_events_bulk host0 (env_ok 1000)
               (request (JArr [page_view "e1" "/a"])) world0).2 in
  let cs := [PostEvents (env_ok 2000) (request (page_view "e2" "/b"))] in
  exists row,
    sessions_of (after_all host0 cs w1) !! "s1" = Some row /\
    s_first_page row = JNull /\ s_last_page row = JNull.
Proof.
  intros w1 cs.
  set (old := {| s_session_id := JStr "s1"; s_client_id := JStr "c1";
                 s_started_at := at_ms 1000; s_first_page := JNull;
                 s_last_page := JNull |}).
  assert (O : sessions_of w1 !! "s1" = Some old) by (vm_compute; reflexivity).
  assert (N : Forall no_session_upsert cs) by (constructor; [exact I|constructor]).
  destruct (events_never_move_a_session host0 cs w1 "s1" old N O)
    as (row & R & _ & F & L).
  exists row. split; [exact R|]. split; [exact F|exact L].
Defined.

